(** * Ascended Social: content moderation, scoring and ranking pipeline

    A shallow embedding of the server-side pipeline of the repository:

    - [server/services/safety-moderation.ts]   (module [Safety])
    - [server/services/positivity-analyzer.ts] (module [Positivity])
    - [server/services/ranking-engine.ts]      (module [Ranking])
    - [server/services/moderation-workflow.ts] (module [Moderation])
    - [server/services/trending-calculator.ts] (module [Trending])

    together with the part of [shared/schema.ts] and [shared/types.ts]
    these services read and write.

    Conventions of the embedding.
    - An [async] function whose awaited calls can reject is a function into
      [Completion]; a [try { .. } catch { .. }] is a [match] on it.
    - An [async] function that writes to the database is a function from
      the database to the database it leaves and a completion ([Run]).
      Every awaited statement can be rejected, by the environment or for
      the values it carries; what was written before stays written.
    - The network is not part of the program: what [fetch] and
      [response.json()] deliver is an argument of the function that awaits
      them.
    - The database is a record of tables.  A table with a primary key that
      the code addresses by key ([videos], [posts]) is a finite map from the
      key; a table the code appends to and scans is a list of rows that
      carry their identity column.
    - [new Date()] and the [defaultNow()] column default read a clock that
      is passed as the argument [now]. *)

From Stdlib Require Import QArith Qround Qabs Lqa Ascii String.
From stdpp Require Import gmap strings list sorting pretty.

Local Open Scope string_scope.
Local Open Scope Z_scope.

(** ** Shared types ([shared/types.ts]) *)

Inductive ElementCategory := Water | Fire | Earth | Air | Spiritual.
Inductive UploadStatus := UnderReview | Published | Flagged.
Inductive ModerationStatus := auto_approved | requires_review | rejected.
Inductive ModerationQueueStatus := pending | in_review | resolved.
Inductive ModerationPriority := urgent | high | normal | low.
Inductive AuditAction :=
  act_upload | act_categorize | act_moderate | act_publish | act_reject.
Inductive ContentType := video | post.
Inductive RiskLevel := risk_none | risk_low | risk_medium | risk_high.

#[global] Instance ElementCategory_eq_dec : EqDecision ElementCategory.
Proof. solve_decision. Defined.
#[global] Instance UploadStatus_eq_dec : EqDecision UploadStatus.
Proof. solve_decision. Defined.
#[global] Instance ModerationStatus_eq_dec : EqDecision ModerationStatus.
Proof. solve_decision. Defined.
#[global] Instance ModerationQueueStatus_eq_dec : EqDecision ModerationQueueStatus.
Proof. solve_decision. Defined.
#[global] Instance ModerationPriority_eq_dec : EqDecision ModerationPriority.
Proof. solve_decision. Defined.
#[global] Instance ContentType_eq_dec : EqDecision ContentType.
Proof. solve_decision. Defined.
#[global] Instance RiskLevel_eq_dec : EqDecision RiskLevel.
Proof. solve_decision. Defined.

(** A JavaScript number, as far as [<] and printing can tell: the finite
    doubles are rationals, and the three special values are kept apart. *)
Inductive JsNumber :=
  | JsNaN
  | JsInfinity (negative : bool)
  | JsFinite (q : Q).

(** [a < b] on numbers: false as soon as one side is [NaN]. *)
Definition js_lt (a b : JsNumber) : bool :=
  match a, b with
  | JsNaN, _ | _, JsNaN => false
  | JsInfinity true, JsInfinity true => false
  | JsInfinity true, _ => true
  | _, JsInfinity true => false
  | JsInfinity false, _ => false
  | JsFinite _, JsInfinity false => true
  | JsFinite x, JsFinite y => if Qlt_le_dec x y then true else false
  end.

(** ** Numbers: the arithmetic of doubles *)

(** The results of [*] and of a decimal literal are doubles: the binary64
    number nearest to the exact value, a tie going to the even mantissa.
    [js_lt], [Math.min] and [Math.max] are exact.  The two zeros are not
    told apart. *)
Module Double.

(** [2^e]. *)
Definition pow2 (e : Z) : Q :=
  if decide (0 ≤ e) then inject_Z (2 ^ e) else 1 # Z.to_pos (2 ^ (- e)).

(** The [e] with [2^e ≤ q < 2^(e+1)], for [0 < q]. *)
Definition exponentOf (q : Q) : Z :=
  let k := Z.log2 (Qnum q) - Z.log2 (Z.pos (Qden q)) in
  if Qlt_le_dec q (pow2 k) then k - 1 else k.

(** The integer nearest to [q], a tie going to the even one, for [0 ≤ q]. *)
Definition roundHalfEven (q : Q) : Z :=
  let f := Qfloor q in
  match (q - inject_Z f ?= 1 # 2)%Q with
  | Lt => f
  | Gt => f + 1
  | Eq => if Z.even f then f else f + 1
  end.

(** The double nearest to a rational: 53 bits of mantissa, exponents from
    -1074, and infinity from [2^1024] on. *)
Definition nearest (q : Q) : JsNumber :=
  if Qeq_bool q 0 then JsFinite 0
  else
    let a := Qabs q in
    let e := Z.max (exponentOf a - 52) (-1074) in
    let v := (inject_Z (roundHalfEven (a / pow2 e)) * pow2 e)%Q in
    if Qle_bool (pow2 1024) v then JsInfinity (Qnum q <? 0)
    else JsFinite (Qred (if Qnum q <? 0 then - v else v)).

(** An integer as a number. *)
Definition ofInt (z : Z) : JsNumber := nearest (inject_Z z).

Definition isZero (q : Q) : bool := Qeq_bool q 0.
Definition isNegative (q : Q) : bool := Qnum q <? 0.

(** [a * b]. *)
Definition mul (a b : JsNumber) : JsNumber :=
  match a, b with
  | JsNaN, _ | _, JsNaN => JsNaN
  | JsInfinity s, JsInfinity t => JsInfinity (xorb s t)
  | JsInfinity s, JsFinite y | JsFinite y, JsInfinity s =>
      if isZero y then JsNaN else JsInfinity (xorb s (isNegative y))
  | JsFinite x, JsFinite y => nearest (x * y)
  end.

(** [Math.min(a, b)] and [Math.max(a, b)]. *)
Definition min (a b : JsNumber) : JsNumber :=
  match a, b with
  | JsNaN, _ | _, JsNaN => JsNaN
  | _, _ => if js_lt b a then b else a
  end.

Definition max (a b : JsNumber) : JsNumber :=
  match a, b with
  | JsNaN, _ | _, JsNaN => JsNaN
  | _, _ => if js_lt a b then b else a
  end.

(** A number that [||] skips. *)
Definition isFalsy (a : JsNumber) : bool :=
  match a with
  | JsNaN => true
  | JsFinite q => isZero q
  | JsInfinity _ => false
  end.

End Double.

Record AIAnalysisResult := {
  elementType : ElementCategory;
  confidence : JsNumber;
  reasoning : string;
}.

Record SafetyAssessment := {
  isSafe : bool;
  flags : list string;
  riskLevel : RiskLevel;
}.

(** What a JavaScript [throw] carries: an [Error] with its message, or any
    other value. *)
Inductive Thrown :=
  | ErrorObject (message : string)
  | OtherValue.

(** The completion of an awaited call: it returns or it throws. *)
Inductive Completion (A : Type) :=
  | Returns (a : A)
  | Throws (e : Thrown).
Arguments Returns {A} a.
Arguments Throws {A} e.

Definition bindC {A B} (c : Completion A) (k : A → Completion B) : Completion B :=
  match c with
  | Returns a => k a
  | Throws e => Throws e
  end.

Notation "x ←ᶜ c ; k" := (bindC c (fun x => k))
  (at level 100, c at next level, right associativity).

(** [!s] for an environment variable: unset or empty. *)
Definition configured (key : option string) : bool :=
  match key with
  | Some (String _ _) => true
  | _ => false
  end.

(** ** Values of [JSON.parse] *)

(** What [JSON.parse] delivers.  The members of an object are in the order
    of the text; of two members with one name the later is the one read. *)
#[local] Unset Elimination Schemes.
Inductive Json :=
  | JNull
  | JBool (b : bool)
  | JNumber (n : JsNumber)
  | JString (s : string)
  | JArray (items : list Json)
  | JObject (members : list (string * Json)).
#[local] Set Elimination Schemes.

Fixpoint lastMember (name : string) (members : list (string * Json)) : option Json :=
  match members with
  | [] => None
  | (key, value) :: rest =>
      match lastMember name rest with
      | Some later => Some later
      | None => if decide (key = name) then Some value else None
      end
  end.

(** [parsed.name], for a name that no prototype has: a [TypeError] on
    [null], [undefined] ([None]) on every value but an object that has the
    member. *)
Definition getMember (name : string) (parsed : Json) : Completion (option Json) :=
  match parsed with
  | JNull => Throws (ErrorObject "Cannot read properties of null")
  | JObject members => Returns (lastMember name members)
  | _ => Returns None
  end.

(** [ToBoolean]: [undefined], [null], [false], the zeros, [NaN] and the
    empty string are falsy. *)
Definition truthy (value : option Json) : bool :=
  match value with
  | None | Some JNull => false
  | Some (JBool b) => b
  | Some (JNumber n) => negb (Double.isFalsy n)
  | Some (JString s) => negb (bool_decide (s = ""))
  | Some (JArray _) | Some (JObject _) => true
  end.

(** [value || other]. *)
Definition js_or (value : option Json) (other : Json) : Json :=
  match value with
  | Some v => if truthy value then v else other
  | None => other
  end.

Section Conversions.
(** The number a string denotes ([StringToNumber]; [NaN] when it denotes
    none), and the string [ToPrimitive] gives for an array or an object, a
    [TypeError] when it has no conversion that can be called. *)
Variable stringToNumber : string → JsNumber.
Variable toPrimitive : Json → Completion string.

(** [ToNumber], as [Math.max] and [Math.min] apply it to an argument. *)
Definition toNumber (value : Json) : Completion JsNumber :=
  match value with
  | JNull => Returns (JsFinite 0)
  | JBool b => Returns (JsFinite (if b then 1 else 0))
  | JNumber n => Returns n
  | JString s => Returns (stringToNumber s)
  | JArray _ | JObject _ =>
      text ←ᶜ toPrimitive value;
      Returns (stringToNumber text)
  end.

(** [Math.min(hi, Math.max(lo, value || other))]. *)
Definition clamped (lo hi : JsNumber) (value : option Json) (other : JsNumber)
    : Completion JsNumber :=
  n ←ᶜ toNumber (js_or value (JNumber other));
  Returns (Double.min hi (Double.max lo n)).
End Conversions.

(** ** Strings *)

(** [String.prototype.includes]. *)
Fixpoint includes (text w : string) : bool :=
  if String.prefix w text then true
  else match text with
       | EmptyString => false
       | String _ rest => includes rest w
       end.

(** [String.prototype.toLowerCase] on an ASCII text: the letters A to Z
    are mapped to a to z, every other character is kept. *)
Definition lower_ascii (c : ascii) : ascii :=
  let n := N_of_ascii c in
  if ((65 <=? n) && (n <=? 90))%N then ascii_of_N (n + 32) else c.

Fixpoint toLowerCase (s : string) : string :=
  match s with
  | EmptyString => EmptyString
  | String c rest => String (lower_ascii c) (toLowerCase rest)
  end.

(** The texts on which [toLowerCase] above is the method of the language:
    every character code is below 128.  Outside them the language maps
    further characters (the Kelvin sign to k, for one), and what is proved
    of the keyword scorers below is proved of ASCII texts. *)
Fixpoint isAscii (s : string) : bool :=
  match s with
  | EmptyString => true
  | String c rest => (N_of_ascii c <? 128)%N && isAscii rest
  end.

(** [Array.prototype.join]. *)
Fixpoint join (sep : string) (l : list string) : string :=
  match l with
  | [] => ""
  | [x] => x
  | x :: rest => x +:+ sep +:+ join sep rest
  end.

(** ** Safety screener ([server/services/safety-moderation.ts]) *)

Module Safety.

(** [data.results?.[0]] of the moderation endpoint: [flagged] is
    [result.flagged === true], [categories] the entries of
    [result.categories || {}] with the truthiness of each value. *)
Record ModerationResult := {
  flagged : bool;
  categories : list (string * bool);
}.

(** What [await response.json()] followed by [data.results?.[0]] gives. *)
Inductive Body :=
  | BodyUnparsable             (* response.json() rejects *)
  | BodyNoObject               (* data is null: data.results throws *)
  | BodyResults (first : option ModerationResult).

(** What [await fetch(..)] gives. *)
Inductive Fetch :=
  | FetchRejected (e : Thrown)
  | FetchResponse (ok : bool) (status : Z) (body : Body).

Definition highRiskCategories : list string :=
  ["sexual/minors"; "violence/graphic"; "self-harm/intent";
   "self-harm/instructions"].

Definition approved_unchecked : SafetyAssessment :=
  {| isSafe := true; flags := []; riskLevel := risk_none |}.

Definition api_error : SafetyAssessment :=
  {| isSafe := false; flags := ["api_error"]; riskLevel := risk_medium |}.

Definition flaggedCategoriesOf (r : ModerationResult) : list string :=
  (filter (λ kv, snd kv = true) (categories r)).*1.

Definition riskOf (isFlagged : bool) (flaggedCategories : list string) : RiskLevel :=
  if isFlagged then
    let hasHighRisk :=
      existsb (λ c, bool_decide (c ∈ highRiskCategories)) flaggedCategories in
    if hasHighRisk then risk_high
    else if bool_decide (2 < length flaggedCategories)%nat then risk_high
    else if bool_decide (0 < length flaggedCategories)%nat then risk_medium
    else risk_none
  else risk_none.

(** The statements of [checkContentSafety] inside its [try]. *)
Definition checkContentSafety_try (net : Fetch) : Completion SafetyAssessment :=
  match net with
  | FetchRejected e => Throws e
  | FetchResponse false _ _ => Returns api_error
  | FetchResponse true _ BodyUnparsable =>
      Throws (ErrorObject "Unexpected token in JSON")
  | FetchResponse true _ BodyNoObject =>
      Throws (ErrorObject "Cannot read properties of null")
  | FetchResponse true _ (BodyResults None) => Returns approved_unchecked
  | FetchResponse true _ (BodyResults (Some result)) =>
      let flaggedCategories := flaggedCategoriesOf result in
      let isFlagged := flagged result in
      Returns {| isSafe := negb isFlagged;
                 flags := flaggedCategories;
                 riskLevel := riskOf isFlagged flaggedCategories |}
  end.

Definition checkContentSafety (OPENAI_API_KEY : option string) (net : Fetch)
    (content : string) (contentType : ContentType) : Completion SafetyAssessment :=
  if negb (configured OPENAI_API_KEY) then Returns approved_unchecked
  else match checkContentSafety_try net with
       | Returns a => Returns a
       | Throws _ => Returns api_error
       end.

(** [`${title} ${description || ""}`.trim()] is only sent to the service;
    the assessment does not look at it. *)
Definition checkVideoSafety (OPENAI_API_KEY : option string) (net : Fetch)
    (title : string) (description : option string) (videoUrl : string)
    : Completion SafetyAssessment :=
  checkContentSafety OPENAI_API_KEY net
    (title +:+ " " +:+ default "" description) video.

(** The configured service did not deliver a usable answer. *)
Definition failing (net : Fetch) : Prop :=
  match net with
  | FetchRejected _ => True
  | FetchResponse ok _ body =>
      ok = false ∨ body = BodyUnparsable ∨ body = BodyNoObject
  end.

End Safety.

(** ** Positivity scorer ([server/services/positivity-analyzer.ts]) *)

Module Positivity.

Definition positiveWords : list string :=
  ["love"; "happy"; "joy"; "peace"; "gratitude"; "inspire"; "hope";
   "beautiful"; "amazing"; "wonderful"; "blessing"; "heal"; "grow";
   "empower"; "uplift"; "kindness"; "compassion"; "harmony"; "calm";
   "grateful"; "positive"; "support"; "strength"; "courage"; "light";
   "meditation"; "mindful"; "wellness"; "yoga"; "spirit"; "nature"].

Definition negativeWords : list string :=
  ["hate"; "angry"; "sad"; "fear"; "anxiety"; "stress"; "pain";
   "fail"; "ugly"; "terrible"; "awful"; "destroy"; "fight"; "war";
   "toxic"; "bad"; "worst"; "negative"; "depress"; "hopeless"].

(** [words.filter((w) => text.includes(w))]. *)
Definition hits (text : string) (words : list string) : list string :=
  filter (λ w, includes text w = true) words.

Definition fallbackPositivityScore (content : string) : Z :=
  let text := toLowerCase content in
  let posCount := Z.of_nat (length (hits text positiveWords)) in
  let negCount := Z.of_nat (length (hits text negativeWords)) in
  let score := 50 + posCount * 5 - negCount * 8 in
  Z.min 100 (Z.max 0 score).

(** What the chat endpoint delivered, as far as [analyzePositivity] looks
    at it; [ReplyParsed parsed] is the value [JSON.parse(responseContent)]
    returned, whatever it is. *)
Inductive Reply :=
  | ReplyRejected              (* fetch rejects *)
  | ReplyNotOk                 (* !response.ok *)
  | ReplyNoContent             (* no choices[0].message.content *)
  | ReplyUnparsable            (* response.json() or JSON.parse throws *)
  | ReplyParsed (parsed : Json).

Section Scorer.
Variable stringToNumber : string → JsNumber.
Variable toPrimitive : Json → Completion string.

(** The statements of [analyzePositivity] inside its [try], from
    [JSON.parse] on. *)
Definition analyzePositivity_try (parsed : Json) : Completion JsNumber :=
  score ←ᶜ getMember "score" parsed;
  clamped stringToNumber toPrimitive (JsFinite 0) (JsFinite 100) score (JsFinite 50).

Definition analyzePositivity (OPENAI_API_KEY : option string) (net : Reply)
    (content : string) : JsNumber :=
  let fallback := JsFinite (inject_Z (fallbackPositivityScore content)) in
  if negb (configured OPENAI_API_KEY) then fallback
  else match net with
       | ReplyParsed parsed =>
           match analyzePositivity_try parsed with
           | Returns score => score
           | Throws _ => fallback
           end
       | _ => fallback
       end.
End Scorer.

End Positivity.

(** ** Ranking engine ([server/services/ranking-engine.ts]) *)

(** [Array.prototype.sort] with a comparator.  The language fixes the sort
    to be stable; for a comparator that is a consistent ordering the result
    is then determined, and a stable insertion sort computes it. *)
Section ArraySort.
Context {A : Type} (cmp : A → A → Z).

Fixpoint insertOrdered (x : A) (l : list A) : list A :=
  match l with
  | [] => [x]
  | y :: rest =>
      if decide (cmp x y ≤ 0) then x :: y :: rest
      else y :: insertOrdered x rest
  end.

Definition arraySort (l : list A) : list A := foldr insertOrdered [] l.
End ArraySort.

Module Ranking.

Inductive VisibilityTier := featured | standard | reduced | suppressed.

#[global] Instance VisibilityTier_eq_dec : EqDecision VisibilityTier.
Proof. solve_decision. Defined.

(** [FeedItem] of [shared/types.ts]: the fields the ranking reads, and the
    identity of the item.  [createdAt] is the time value
    [new Date(item.createdAt).getTime()] of the ISO string every producer
    of feed items writes with [toISOString()]. *)
Record FeedItem := {
  id : Z;
  type : ContentType;
  elementCategory : ElementCategory;
  viewCount : Z;
  positivityScore : option Z;
  createdAt : Z;
}.

Definition getVisibilityTier (positivityScore : option Z) : VisibilityTier :=
  match positivityScore with
  | None => standard
  | Some p =>
      if decide (90 ≤ p) then featured
      else if decide (50 ≤ p) then standard
      else if decide (30 ≤ p) then reduced
      else suppressed
  end.

Definition tierOrder (t : VisibilityTier) : Z :=
  match t with
  | featured => 0
  | standard => 1
  | reduced => 2
  | suppressed => 3
  end.

Definition tierOf (item : FeedItem) : VisibilityTier :=
  getVisibilityTier (positivityScore item).

(** The comparator handed to [sort]. *)
Definition compareItems (a b : FeedItem) : Z :=
  let tierA := tierOf a in
  let tierB := tierOf b in
  if decide (tierOrder tierA ≠ tierOrder tierB)
  then tierOrder tierA - tierOrder tierB
  else createdAt b - createdAt a.

Definition applyPositivityRanking (items : list FeedItem) : list FeedItem :=
  arraySort compareItems
    (filter (λ item, tierOf item ≠ suppressed) items).

(** [a] may stand before [b] in a ranked feed: a better tier, or the same
    tier and not older. *)
Definition ranksBefore (a b : FeedItem) : Prop :=
  tierOrder (tierOf a) < tierOrder (tierOf b)
  ∨ (tierOf a = tierOf b ∧ createdAt b ≤ createdAt a).

End Ranking.

(** ** Database ([shared/schema.ts]) *)

(** [videos]; the primary key [id] is the key of the table. *)
Module VideoRow.
Record t := {
  title : string;
  description : option string;
  uploadStatus : UploadStatus;
  elementCategory : ElementCategory;
  createdBy : string;
  createdAt : Z;
  videoUrl : option string;
  durationSeconds : option Z;
  viewCount : Z;
  aiAnalysisResult : option AIAnalysisResult;
  safetyAssessment : option SafetyAssessment;
  moderationStatus : option ModerationStatus;
  moderationNotes : option string;
  moderatedBy : option string;
  moderatedAt : option Z;
  positivityScore : option Z;
}.
End VideoRow.

(** [posts]; the columns of the older social feed that no service below
    touches ([imageUrl], [chakraType], [frequencyScore], [sparkCount],
    [commentCount]) are left out. *)
Module PostRow.
Record t := {
  authorId : string;
  content : string;
  createdAt : Z;
  elementCategory : option ElementCategory;
  uploadStatus : option UploadStatus;
  safetyAssessment : option SafetyAssessment;
  moderationStatus : option ModerationStatus;
  viewCount : Z;
  engagementScore : option Z;
  positivityScore : option Z;
}.
End PostRow.

(** [moderation_queue]. *)
Module QueueRow.
Record t := {
  id : Z;
  contentId : Z;
  contentType : ContentType;
  aiFlaggedReason : option string;
  priority : ModerationPriority;
  createdAt : Z;
  status : ModerationQueueStatus;
}.
End QueueRow.

(** The [decision] of a moderator: ["approved" | "rejected"]. *)
Inductive ModerationDecision := decision_approved | decision_rejected.

#[global] Instance ModerationDecision_eq_dec : EqDecision ModerationDecision.
Proof. solve_decision. Defined.

(** The [changes] column of the audit log. *)
Inductive AuditChanges :=
  | PipelineChanges (analysis : AIAnalysisResult) (safety : SafetyAssessment)
      (moderationStatus : ModerationStatus) (positivityScore : JsNumber)
  | DecisionChanges (decision : ModerationDecision) (notes : option string).

(** [audit_log]. *)
Module AuditRow.
Record t := {
  id : Z;
  action : AuditAction;
  actorId : option string;
  contentId : option Z;
  contentType : option ContentType;
  changes : option AuditChanges;
  timestamp : Z;
}.
End AuditRow.

(** [content_trending]; [trendingScore] is a [decimal] column, which the
    driver reads and writes as text. *)
Module TrendingRow.
Record t := {
  id : Z;
  contentId : Z;
  contentType : ContentType;
  elementCategory : ElementCategory;
  trendingScore : option string;
  viewCount24h : Z;
  engagementCount24h : Z;
  updatedAt : Z;
}.
End TrendingRow.

(** The tables, and the identity sequences of those that are lists. *)
Record DB := {
  videos : gmap Z VideoRow.t;
  posts : gmap Z PostRow.t;
  moderationQueue : list QueueRow.t;
  moderationQueue_seq : Z;
  auditLog : list AuditRow.t;
  auditLog_seq : Z;
  contentTrending : list TrendingRow.t;
  contentTrending_seq : Z;
}.

(** ** Awaited statements *)

(** A piece of an [async] function that works on the database: it leaves
    a database and returns or throws.  What a statement wrote before a
    later one throws stays written: no function below opens a
    transaction. *)
Definition Run (A : Type) : Type := DB → DB * Completion A.

Definition ret {A} (a : A) : Run A := λ db, (db, Returns a).

Definition bindR {A B} (m : Run A) (k : A → Run B) : Run B :=
  λ db, match m db with
        | (db', Returns a) => k a db'
        | (db', Throws e) => (db', Throws e)
        end.

Notation "x ←ʳ m ; k" := (bindR m (fun x => k))
  (at level 100, m at next level, right associativity).
Notation "m ;ʳ k" := (bindR m (fun _ => k))
  (at level 100, k at level 200, right associativity).

(** [await] of a call that does not touch the database. *)
Definition await {A} (c : Completion A) : Run A := λ db, (db, c).

(** [try { body } catch (error) { handler }]. *)
Definition tryCatch {A} (body : Run A) (handler : Thrown → Run A) : Run A :=
  λ db, match body db with
        | (db', Returns a) => (db', Returns a)
        | (db', Throws error) => handler error db'
        end.

(** An awaited [insert] or [update].  [rejection] is what the environment
    does to it: [Some e] when the statement is rejected with [e] (the
    connection is lost, a constraint the tables here do not carry is
    violated), and then nothing is written. *)
Definition statement (rejection : option Thrown) (write : DB → DB) : Run unit :=
  λ db, match rejection with
        | Some e => (db, Throws e)
        | None => (write db, Returns tt)
        end.

(** [for (const x of l) { await body(x) }]. *)
Fixpoint forEach {A} (body : A → Run unit) (l : list A) : Run unit :=
  match l with
  | [] => ret tt
  | x :: rest => body x ;ʳ forEach body rest
  end.

(** The value an [integer] column takes from a number the driver sends as
    its decimal text: the number itself when it is an integer of 32 bits.
    Every other number ([NaN], an infinity, a fraction, an integer out of
    range) is refused by the database. *)
Definition asInteger (n : JsNumber) : option Z :=
  match n with
  | JsFinite q =>
      let z := Qfloor q in
      if Qeq_bool (inject_Z z) q && bool_decide (-2147483648 ≤ z ≤ 2147483647)
      then Some z else None
  | _ => None
  end.

(** ** Moderation workflow ([server/services/moderation-workflow.ts]) *)

Module Moderation.

(** [db.insert(moderationQueue).values({..})]: [id] and [createdAt] take
    their defaults. *)
Definition insertQueue (now : Z) (contentId : Z) (contentType : ContentType)
    (aiFlaggedReason : string) (priority : ModerationPriority)
    (status : ModerationQueueStatus) (db : DB) : DB :=
  {| videos := videos db;
     posts := posts db;
     moderationQueue :=
       moderationQueue db ++
       [ {| QueueRow.id := moderationQueue_seq db;
            QueueRow.contentId := contentId;
            QueueRow.contentType := contentType;
            QueueRow.aiFlaggedReason := Some aiFlaggedReason;
            QueueRow.priority := priority;
            QueueRow.createdAt := now;
            QueueRow.status := status |} ];
     moderationQueue_seq := moderationQueue_seq db + 1;
     auditLog := auditLog db;
     auditLog_seq := auditLog_seq db;
     contentTrending := contentTrending db;
     contentTrending_seq := contentTrending_seq db |}.

(** [db.insert(auditLog).values({..})]. *)
Definition insertAudit (now : Z) (action : AuditAction) (actorId : string)
    (contentId : Z) (contentType : ContentType) (changes : AuditChanges)
    (db : DB) : DB :=
  {| videos := videos db;
     posts := posts db;
     moderationQueue := moderationQueue db;
     moderationQueue_seq := moderationQueue_seq db;
     auditLog :=
       auditLog db ++
       [ {| AuditRow.id := auditLog_seq db;
            AuditRow.action := action;
            AuditRow.actorId := Some actorId;
            AuditRow.contentId := Some contentId;
            AuditRow.contentType := Some contentType;
            AuditRow.changes := Some changes;
            AuditRow.timestamp := now |} ];
     auditLog_seq := auditLog_seq db + 1;
     contentTrending := contentTrending db;
     contentTrending_seq := contentTrending_seq db |}.

(** [db.update(videos).set(..).where(eq(videos.id, videoId))]: the row
    with that key is rewritten, and nothing happens when there is none. *)
Definition updateVideo (videoId : Z) (set : VideoRow.t → VideoRow.t) (db : DB) : DB :=
  {| videos := alter set videoId (videos db);
     posts := posts db;
     moderationQueue := moderationQueue db;
     moderationQueue_seq := moderationQueue_seq db;
     auditLog := auditLog db;
     auditLog_seq := auditLog_seq db;
     contentTrending := contentTrending db;
     contentTrending_seq := contentTrending_seq db |}.

Definition updatePost (postId : Z) (set : PostRow.t → PostRow.t) (db : DB) : DB :=
  {| videos := videos db;
     posts := alter set postId (posts db);
     moderationQueue := moderationQueue db;
     moderationQueue_seq := moderationQueue_seq db;
     auditLog := auditLog db;
     auditLog_seq := auditLog_seq db;
     contentTrending := contentTrending db;
     contentTrending_seq := contentTrending_seq db |}.

(** [db.update(moderationQueue).set({ status: "resolved" })
      .where(eq(moderationQueue.contentId, contentId))]. *)
Definition resolveQueue (contentId : Z) (db : DB) : DB :=
  {| videos := videos db;
     posts := posts db;
     moderationQueue :=
       (λ e, if decide (QueueRow.contentId e = contentId)
             then {| QueueRow.id := QueueRow.id e;
                     QueueRow.contentId := QueueRow.contentId e;
                     QueueRow.contentType := QueueRow.contentType e;
                     QueueRow.aiFlaggedReason := QueueRow.aiFlaggedReason e;
                     QueueRow.priority := QueueRow.priority e;
                     QueueRow.createdAt := QueueRow.createdAt e;
                     QueueRow.status := resolved |}
             else e) <$> moderationQueue db;
     moderationQueue_seq := moderationQueue_seq db;
     auditLog := auditLog db;
     auditLog_seq := auditLog_seq db;
     contentTrending := contentTrending db;
     contentTrending_seq := contentTrending_seq db |}.

(** The ternary that every pipeline write uses for [uploadStatus]. *)
Definition uploadStatusFor (moderationStatus : ModerationStatus) : UploadStatus :=
  if decide (moderationStatus = auto_approved) then Published
  else if decide (moderationStatus = rejected) then Flagged
  else UnderReview.

Definition auditActionFor (moderationStatus : ModerationStatus) : AuditAction :=
  if decide (moderationStatus = auto_approved) then act_publish else act_moderate.

Record Outcome := {
  success : bool;
  status : ModerationStatus;
}.

(** [error instanceof Error ? error.message : "Unknown error"]. *)
Definition errorMessage (e : Thrown) : string :=
  match e with
  | ErrorObject message => message
  | OtherValue => "Unknown error"
  end.

(** *** The column sets of the [update] statements *)

(** [processVideoUpload], step 5. *)
Definition setVideoAnalysed (analysis : AIAnalysisResult) (safety : SafetyAssessment)
    (moderationStatus : ModerationStatus) (positivityScore : Z)
    (r : VideoRow.t) : VideoRow.t :=
  {| VideoRow.title := VideoRow.title r;
     VideoRow.description := VideoRow.description r;
     VideoRow.uploadStatus := uploadStatusFor moderationStatus;
     VideoRow.elementCategory := elementType analysis;
     VideoRow.createdBy := VideoRow.createdBy r;
     VideoRow.createdAt := VideoRow.createdAt r;
     VideoRow.videoUrl := VideoRow.videoUrl r;
     VideoRow.durationSeconds := VideoRow.durationSeconds r;
     VideoRow.viewCount := VideoRow.viewCount r;
     VideoRow.aiAnalysisResult := Some analysis;
     VideoRow.safetyAssessment := Some safety;
     VideoRow.moderationStatus := Some moderationStatus;
     VideoRow.moderationNotes := VideoRow.moderationNotes r;
     VideoRow.moderatedBy := VideoRow.moderatedBy r;
     VideoRow.moderatedAt := VideoRow.moderatedAt r;
     VideoRow.positivityScore := Some positivityScore |}.

(** [{ moderationStatus, uploadStatus }] alone, as the [catch] of
    [processVideoUpload] writes it. *)
Definition setVideoStatus (moderationStatus : ModerationStatus)
    (uploadStatus : UploadStatus) (r : VideoRow.t) : VideoRow.t :=
  {| VideoRow.title := VideoRow.title r;
     VideoRow.description := VideoRow.description r;
     VideoRow.uploadStatus := uploadStatus;
     VideoRow.elementCategory := VideoRow.elementCategory r;
     VideoRow.createdBy := VideoRow.createdBy r;
     VideoRow.createdAt := VideoRow.createdAt r;
     VideoRow.videoUrl := VideoRow.videoUrl r;
     VideoRow.durationSeconds := VideoRow.durationSeconds r;
     VideoRow.viewCount := VideoRow.viewCount r;
     VideoRow.aiAnalysisResult := VideoRow.aiAnalysisResult r;
     VideoRow.safetyAssessment := VideoRow.safetyAssessment r;
     VideoRow.moderationStatus := Some moderationStatus;
     VideoRow.moderationNotes := VideoRow.moderationNotes r;
     VideoRow.moderatedBy := VideoRow.moderatedBy r;
     VideoRow.moderatedAt := VideoRow.moderatedAt r;
     VideoRow.positivityScore := VideoRow.positivityScore r |}.

(** The video branch of [resolveModeration]; a column whose value is
    [undefined] ([notes] left out) is not part of the statement. *)
Definition setVideoResolved (moderationStatus : ModerationStatus)
    (uploadStatus : UploadStatus) (notes : option string) (moderatorId : string)
    (now : Z) (r : VideoRow.t) : VideoRow.t :=
  {| VideoRow.title := VideoRow.title r;
     VideoRow.description := VideoRow.description r;
     VideoRow.uploadStatus := uploadStatus;
     VideoRow.elementCategory := VideoRow.elementCategory r;
     VideoRow.createdBy := VideoRow.createdBy r;
     VideoRow.createdAt := VideoRow.createdAt r;
     VideoRow.videoUrl := VideoRow.videoUrl r;
     VideoRow.durationSeconds := VideoRow.durationSeconds r;
     VideoRow.viewCount := VideoRow.viewCount r;
     VideoRow.aiAnalysisResult := VideoRow.aiAnalysisResult r;
     VideoRow.safetyAssessment := VideoRow.safetyAssessment r;
     VideoRow.moderationStatus := Some moderationStatus;
     VideoRow.moderationNotes :=
       match notes with
       | Some n => Some n
       | None => VideoRow.moderationNotes r
       end;
     VideoRow.moderatedBy := Some moderatorId;
     VideoRow.moderatedAt := Some now;
     VideoRow.positivityScore := VideoRow.positivityScore r |}.

(** [processPostCreation], step 5. *)
Definition setPostAnalysed (analysis : AIAnalysisResult) (safety : SafetyAssessment)
    (moderationStatus : ModerationStatus) (positivityScore : Z)
    (r : PostRow.t) : PostRow.t :=
  {| PostRow.authorId := PostRow.authorId r;
     PostRow.content := PostRow.content r;
     PostRow.createdAt := PostRow.createdAt r;
     PostRow.elementCategory := Some (elementType analysis);
     PostRow.uploadStatus := Some (uploadStatusFor moderationStatus);
     PostRow.safetyAssessment := Some safety;
     PostRow.moderationStatus := Some moderationStatus;
     PostRow.viewCount := PostRow.viewCount r;
     PostRow.engagementScore := PostRow.engagementScore r;
     PostRow.positivityScore := Some positivityScore |}.

(** [{ moderationStatus, uploadStatus }] alone: the [catch] of
    [processPostCreation] and the post branch of [resolveModeration]. *)
Definition setPostStatus (moderationStatus : ModerationStatus)
    (uploadStatus : UploadStatus) (r : PostRow.t) : PostRow.t :=
  {| PostRow.authorId := PostRow.authorId r;
     PostRow.content := PostRow.content r;
     PostRow.createdAt := PostRow.createdAt r;
     PostRow.elementCategory := PostRow.elementCategory r;
     PostRow.uploadStatus := Some uploadStatus;
     PostRow.safetyAssessment := PostRow.safetyAssessment r;
     PostRow.moderationStatus := Some moderationStatus;
     PostRow.viewCount := PostRow.viewCount r;
     PostRow.engagementScore := PostRow.engagementScore r;
     PostRow.positivityScore := PostRow.positivityScore r |}.

(** *** The three operations

    The three awaited stages ([analyzeVideoElement] or
    [analyzeTextElement], [checkVideoSafety] or [checkContentSafety],
    [analyzePositivity]) are given by their completions, in place of the
    texts they are called with.  Every awaited statement can be rejected;
    inside the [try] the rejection runs the [catch], inside the [catch] it
    rejects the call. *)

(** What the environment does to the statements of one call, in the order
    of the text: the queue [insert] of step 4, the [update] of step 5, the
    audit [insert] of step 6, and the [update] and the [insert] of the
    [catch]. *)
Record Rejections := {
  queueInsert : option Thrown;
  contentUpdate : option Thrown;
  auditInsert : option Thrown;
  catchUpdate : option Thrown;
  catchInsert : option Thrown;
}.

(** No statement is rejected by the environment. *)
Definition noRejection : Rejections :=
  {| queueInsert := None; contentUpdate := None; auditInsert := None;
     catchUpdate := None; catchInsert := None |}.

Section Orchestrator.
(** The conversion of a number to a string in a template literal, and the
    error with which the database refuses a number for an [integer]
    column. *)
Variable numberToString : JsNumber → string.
Variable integerRefused : JsNumber → Thrown.
Variable env : Rejections.

(** Step 5 of [processVideoUpload]; [positivityScore] goes to an [integer]
    column. *)
Definition updateVideoAnalysed (videoId : Z) (analysis : AIAnalysisResult)
    (safety : SafetyAssessment) (moderationStatus : ModerationStatus)
    (positivityScore : JsNumber) : Run unit :=
  match contentUpdate env, asInteger positivityScore with
  | Some e, _ => statement (Some e) id
  | None, None => statement (Some (integerRefused positivityScore)) id
  | None, Some score =>
      statement None
        (updateVideo videoId (setVideoAnalysed analysis safety moderationStatus score))
  end.

Definition processVideoUpload_try (now videoId : Z) (actorId : string)
    (analysing : Completion AIAnalysisResult)
    (screening : Completion SafetyAssessment)
    (scoring : Completion JsNumber) : Run Outcome :=
  analysis ←ʳ await analysing;
  safety ←ʳ await screening;
  positivityScore ←ʳ await scoring;
  moderationStatus ←ʳ
    (if negb (isSafe safety) then
       statement (queueInsert env)
         (insertQueue now videoId video (join ", " (flags safety))
            (if decide (riskLevel safety = risk_high) then urgent else high)
            pending) ;ʳ
       ret (if decide (riskLevel safety = risk_high) then rejected else requires_review)
     else if js_lt (confidence analysis) (JsFinite (1 # 2)) then
       statement (queueInsert env)
         (insertQueue now videoId video
            ("Low categorization confidence: " +:+ numberToString (confidence analysis))
            normal pending) ;ʳ
       ret requires_review
     else ret auto_approved);
  updateVideoAnalysed videoId analysis safety moderationStatus positivityScore ;ʳ
  statement (auditInsert env)
    (insertAudit now (auditActionFor moderationStatus) actorId videoId video
       (PipelineChanges analysis safety moderationStatus positivityScore)) ;ʳ
  ret {| success := true; status := moderationStatus |}.

Definition processVideoUpload_catch (now videoId : Z) (error : Thrown) : Run Outcome :=
  statement (catchUpdate env)
    (updateVideo videoId (setVideoStatus requires_review UnderReview)) ;ʳ
  statement (catchInsert env)
    (insertQueue now videoId video
       ("Processing error: " +:+ errorMessage error) high pending) ;ʳ
  ret {| success := false; status := requires_review |}.

Definition processVideoUpload (now videoId : Z) (actorId : string)
    (analysing : Completion AIAnalysisResult)
    (screening : Completion SafetyAssessment)
    (scoring : Completion JsNumber) : Run Outcome :=
  tryCatch
    (processVideoUpload_try now videoId actorId analysing screening scoring)
    (processVideoUpload_catch now videoId).

(** Step 5 of [processPostCreation]. *)
Definition updatePostAnalysed (postId : Z) (analysis : AIAnalysisResult)
    (safety : SafetyAssessment) (moderationStatus : ModerationStatus)
    (positivityScore : JsNumber) : Run unit :=
  match contentUpdate env, asInteger positivityScore with
  | Some e, _ => statement (Some e) id
  | None, None => statement (Some (integerRefused positivityScore)) id
  | None, Some score =>
      statement None
        (updatePost postId (setPostAnalysed analysis safety moderationStatus score))
  end.

Definition processPostCreation_try (now postId : Z) (actorId : string)
    (analysing : Completion AIAnalysisResult)
    (screening : Completion SafetyAssessment)
    (scoring : Completion JsNumber) : Run Outcome :=
  analysis ←ʳ await analysing;
  safety ←ʳ await screening;
  positivityScore ←ʳ await scoring;
  moderationStatus ←ʳ
    (if negb (isSafe safety) then
       statement (queueInsert env)
         (insertQueue now postId post (join ", " (flags safety))
            (if decide (riskLevel safety = risk_high) then urgent else high)
            pending) ;ʳ
       ret (if decide (riskLevel safety = risk_high) then rejected else requires_review)
     else ret auto_approved);
  updatePostAnalysed postId analysis safety moderationStatus positivityScore ;ʳ
  statement (auditInsert env)
    (insertAudit now (auditActionFor moderationStatus) actorId postId post
       (PipelineChanges analysis safety moderationStatus positivityScore)) ;ʳ
  ret {| success := true; status := moderationStatus |}.

Definition processPostCreation_catch (postId : Z) (error : Thrown) : Run Outcome :=
  statement (catchUpdate env)
    (updatePost postId (setPostStatus requires_review UnderReview)) ;ʳ
  ret {| success := false; status := requires_review |}.

Definition processPostCreation (now postId : Z) (actorId : string)
    (analysing : Completion AIAnalysisResult)
    (screening : Completion SafetyAssessment)
    (scoring : Completion JsNumber) : Run Outcome :=
  tryCatch
    (processPostCreation_try now postId actorId analysing screening scoring)
    (processPostCreation_catch postId).
End Orchestrator.

Definition resolveModeration (now contentId : Z) (contentType : ContentType)
    (decision : ModerationDecision) (notes : option string) (moderatorId : string)
    (db : DB) : DB :=
  let moderationStatus :=
    if decide (decision = decision_approved) then auto_approved else rejected in
  let uploadStatus :=
    if decide (decision = decision_approved) then Published else Flagged in
  let db :=
    if decide (contentType = video) then
      updateVideo contentId
        (setVideoResolved moderationStatus uploadStatus notes moderatorId now) db
    else
      updatePost contentId (setPostStatus moderationStatus uploadStatus) db in
  let db := resolveQueue contentId db in
  insertAudit now (if decide (decision = decision_approved) then act_publish else act_reject)
    moderatorId contentId contentType (DecisionChanges decision notes) db.

(** No statement of the [try] block is rejected: not by the environment,
    and the score is one the [integer] column takes. *)
Definition accepted (env : Rejections) (positivityScore : JsNumber) : Prop :=
  queueInsert env = None ∧ contentUpdate env = None ∧ auditInsert env = None
  ∧ is_Some (asInteger positivityScore).

(** The queue rows an operation added. *)
Definition enqueued (before after : DB) : list QueueRow.t :=
  drop (length (moderationQueue before)) (moderationQueue after).

(** The decision policy in the words of the specification, first match
    wins: the moderation status, and the priority of the queue entry when
    one is to be created.  The operations above are compared with it. *)
Definition policy (contentType : ContentType) (safety : SafetyAssessment)
    (confidence : JsNumber) : ModerationStatus * option ModerationPriority :=
  if negb (isSafe safety) && bool_decide (riskLevel safety = risk_high)
  then (rejected, Some urgent)
  else if negb (isSafe safety)
  then (requires_review, Some high)
  else if bool_decide (contentType = video) && js_lt confidence (JsFinite (1 # 2))
  then (requires_review, Some normal)
  else (auto_approved, None).

(** The publish status that goes with a moderation status, in the words
    of the specification. *)
Definition publishStatusOf (m : ModerationStatus) : UploadStatus :=
  match m with
  | auto_approved => Published
  | rejected => Flagged
  | requires_review => UnderReview
  end.

(** A content row whose publish status is the one of its moderation
    status. *)
Definition consistentVideo (r : VideoRow.t) : Prop :=
  ∃ m, VideoRow.moderationStatus r = Some m
       ∧ VideoRow.uploadStatus r = publishStatusOf m.

Definition consistentPost (r : PostRow.t) : Prop :=
  ∃ m, PostRow.moderationStatus r = Some m
       ∧ PostRow.uploadStatus r = Some (publishStatusOf m).

End Moderation.

(** ** Trending calculator ([server/services/trending-calculator.ts]) *)

Module Trending.

(** The numbers of the language are IEEE doubles.  The calculator is
    written against the operations it uses on them, so that what is proved
    of it holds for the doubles as for any other reading of the
    arithmetic. *)
Class NumberOps (num : Type) := {
  ofInt : Z → num;            (* an integer column read as a number *)
  literal : Q → num;          (* a decimal literal of the program text *)
  add : num → num → num;
  mul : num → num → num;
  floor : num → Z;            (* Math.floor *)
  toFixed2 : num → string;    (* n.toFixed(2) *)
}.

Section Calculator.
Context {num : Type} `{NumberOps num}.

Definition getPositivityMultiplier (score : Z) : num :=
  if decide (90 ≤ score) then literal 3
  else if decide (70 ≤ score) then literal (3 # 2)
  else if decide (50 ≤ score) then literal 1
  else literal (1 # 2).

(** [views * 0.6 + engagement * 0.4], then the multiplier when the
    positivity score is not [null]. *)
Definition trendingScoreOf (viewCount24h engagementCount24h : Z)
    (positivityScore : option Z) : num :=
  let trendingScore :=
    add (mul (ofInt viewCount24h) (literal (6 # 10)))
        (mul (ofInt engagementCount24h) (literal (4 # 10))) in
  match positivityScore with
  | Some p => mul trendingScore (getPositivityMultiplier p)
  | None => trendingScore
  end.

(** One row of work: what the loop body hands to the upsert. *)
Record Work := {
  w_contentId : Z;
  w_contentType : ContentType;
  w_element : ElementCategory;
  w_trendingScore : string;
  w_viewCount24h : Z;
  w_engagementCount24h : Z;
}.

Definition hasKey (contentId : Z) (contentType : ContentType)
    (r : TrendingRow.t) : Prop :=
  TrendingRow.contentId r = contentId ∧ TrendingRow.contentType r = contentType.

#[global] Instance hasKey_dec contentId contentType r :
  Decision (hasKey contentId contentType r).
Proof. unfold hasKey. apply _. Defined.

(** [db.update(contentTrending).set({..}).where(eq(contentTrending.id, id))]. *)
Definition updateTrendingRows (now id : Z) (w : Work)
    (rows : list TrendingRow.t) : list TrendingRow.t :=
  (λ r, if decide (TrendingRow.id r = id)
        then {| TrendingRow.id := TrendingRow.id r;
                TrendingRow.contentId := TrendingRow.contentId r;
                TrendingRow.contentType := TrendingRow.contentType r;
                TrendingRow.elementCategory := TrendingRow.elementCategory r;
                TrendingRow.trendingScore := Some (w_trendingScore w);
                TrendingRow.viewCount24h := w_viewCount24h w;
                TrendingRow.engagementCount24h := w_engagementCount24h w;
                TrendingRow.updatedAt := now |}
        else r) <$> rows.

(** The row [db.insert(contentTrending).values({..})] adds. *)
Definition newTrendingRow (now id : Z) (w : Work) : TrendingRow.t :=
  {| TrendingRow.id := id;
     TrendingRow.contentId := w_contentId w;
     TrendingRow.contentType := w_contentType w;
     TrendingRow.elementCategory := w_element w;
     TrendingRow.trendingScore := Some (w_trendingScore w);
     TrendingRow.viewCount24h := w_viewCount24h w;
     TrendingRow.engagementCount24h := w_engagementCount24h w;
     TrendingRow.updatedAt := now |}.

(** "Upsert trending record", as far as the database accepts it: select
    by (content id, content type), update the first row found by its [id],
    insert when none is found.  The refusal of a score is part of [upsert]
    below. *)
Definition upsertTrending (now : Z) (db : DB) (w : Work) : DB :=
  let existing :=
    filter (hasKey (w_contentId w) (w_contentType w)) (contentTrending db) in
  match existing with
  | first :: _ =>
      {| videos := videos db;
         posts := posts db;
         moderationQueue := moderationQueue db;
         moderationQueue_seq := moderationQueue_seq db;
         auditLog := auditLog db;
         auditLog_seq := auditLog_seq db;
         contentTrending :=
           updateTrendingRows now (TrendingRow.id first) w (contentTrending db);
         contentTrending_seq := contentTrending_seq db |}
  | [] =>
      {| videos := videos db;
         posts := posts db;
         moderationQueue := moderationQueue db;
         moderationQueue_seq := moderationQueue_seq db;
         auditLog := auditLog db;
         auditLog_seq := auditLog_seq db;
         contentTrending :=
           contentTrending db ++ [newTrendingRow now (contentTrending_seq db) w];
         contentTrending_seq := contentTrending_seq db + 1 |}
  end.

(** The body of the loop over [publishedVideos]. *)
Definition videoWork (element : ElementCategory) (row : Z * VideoRow.t) : Work :=
  let viewCount24h := VideoRow.viewCount row.2 in
  let engagementCount24h := floor (mul (ofInt viewCount24h) (literal (3 # 10))) in
  {| w_contentId := row.1;
     w_contentType := video;
     w_element := element;
     w_trendingScore :=
       toFixed2 (trendingScoreOf viewCount24h engagementCount24h
                   (VideoRow.positivityScore row.2));
     w_viewCount24h := viewCount24h;
     w_engagementCount24h := engagementCount24h |}.

(** The body of the loop over [publishedPosts]. *)
Definition postWork (element : ElementCategory) (row : Z * PostRow.t) : Work :=
  let viewCount24h := PostRow.viewCount row.2 in
  let engagementCount24h := default 0 (PostRow.engagementScore row.2) in
  {| w_contentId := row.1;
     w_contentType := post;
     w_element := element;
     w_trendingScore :=
       toFixed2 (trendingScoreOf viewCount24h engagementCount24h
                   (PostRow.positivityScore row.2));
     w_viewCount24h := viewCount24h;
     w_engagementCount24h := engagementCount24h |}.

(** The two [select]s of [calculateElementTrending]; the rows come in
    the order of the table scan. *)
Definition publishedVideos (element : ElementCategory) (db : DB)
    : list (Z * VideoRow.t) :=
  filter (λ v, VideoRow.elementCategory v.2 = element
               ∧ VideoRow.uploadStatus v.2 = Published)
    (map_to_list (videos db)).

Definition publishedPosts (element : ElementCategory) (db : DB)
    : list (Z * PostRow.t) :=
  filter (λ p, PostRow.elementCategory p.2 = Some element
               ∧ PostRow.uploadStatus p.2 = Some Published)
    (map_to_list (posts db)).

(** What the database does with the text of a score for the column
    [trending_score numeric(10, 2)]: [Some e] when it refuses the text with
    the error [e], as it does for a magnitude of 10^8 and more. *)
Variable numericRefused : string → option Thrown.

(** The awaited [update] or [insert] of the upsert; both carry the score. *)
Definition upsert (now : Z) (w : Work) : Run unit :=
  statement (numericRefused (w_trendingScore w)) (λ db, upsertTrending now db w).

(** An awaited [select]. *)
Definition select {A} (query : DB → A) : Run A := λ db, (db, Returns (query db)).

(** No statement is inside a [try]: the first that is refused ends the
    run, and what was written before stays. *)
Definition calculateElementTrending (now : Z) (element : ElementCategory) : Run unit :=
  publishedVideos ←ʳ select (publishedVideos element);
  forEach (λ video, upsert now (videoWork element video)) publishedVideos ;ʳ
  publishedPosts ←ʳ select (publishedPosts element);
  forEach (λ post, upsert now (postWork element post)) publishedPosts.

Definition elements : list ElementCategory :=
  [Water; Fire; Earth; Air; Spiritual].

Definition calculateTrendingScores (now : Z) : Run unit :=
  forEach (calculateElementTrending now) elements.

(** *** Notions for the properties of the calculator *)

(** The composite key of a trending row, and of a unit of work. *)
Definition keyOf (r : TrendingRow.t) : Z * ContentType :=
  (TrendingRow.contentId r, TrendingRow.contentType r).

Definition workKey (w : Work) : Z * ContentType :=
  (w_contentId w, w_contentType w).

(** The primary key of [content_trending] holds, and its identity sequence
    is ahead of the rows. *)
Definition primaryKeyHolds (db : DB) : Prop :=
  NoDup (TrendingRow.id <$> contentTrending db)
  ∧ ∀ r, r ∈ contentTrending db → TrendingRow.id r < contentTrending_seq db.

(** The work of one element, and of a whole run, in the order of the
    loops. *)
Definition elementWork (db : DB) (element : ElementCategory) : list Work :=
  (videoWork element <$> publishedVideos element db)
  ++ (postWork element <$> publishedPosts element db).

Definition workOf (db : DB) : list Work := elements ≫= elementWork db.

(** A sequence of upserts. *)
Definition upsertAll (now : Z) (db : DB) (ws : list Work) : DB :=
  foldl (upsertTrending now) db ws.

(** The first refusal that a sequence of upserts meets, if one does. *)
Fixpoint refusal (ws : list Work) : option Thrown :=
  match ws with
  | [] => None
  | w :: rest =>
      match numericRefused (w_trendingScore w) with
      | None => refusal rest
      | Some e => Some e
      end
  end.

(** The work that is done before the first refusal. *)
Fixpoint untilRefused (ws : list Work) : list Work :=
  match ws with
  | [] => []
  | w :: rest =>
      match numericRefused (w_trendingScore w) with
      | None => w :: untilRefused rest
      | Some _ => []
      end
  end.




End Calculator.

(** The arithmetic read exactly, on the rationals; [toFixed2] rounds to
    the nearest hundredth, a tie going to the larger magnitude. *)
Definition twoDigits (n : Z) : string :=
  if decide (n < 10) then "0" +:+ pretty n else pretty n.

Definition toFixed2_Q (x : Q) : string :=
  let n := Qfloor (Qabs x * 100 + (1 # 2)) in
  (if decide (Qnum x < 0 ∧ 0 < n) then "-" else "")
  +:+ pretty (n / 100) +:+ "." +:+ twoDigits (n mod 100).

#[global] Instance exactArithmetic : NumberOps Q := {|
  ofInt := inject_Z;
  literal := λ q, q;
  add := Qplus;
  mul := Qmult;
  floor := Qfloor;
  toFixed2 := toFixed2_Q;
|}.

(** The check of [numeric(10, 2)] on a text as [toFixed(2)] gives it: at
    most eight digits before the point. *)
Fixpoint beforePoint (text : string) : string :=
  match text with
  | EmptyString => EmptyString
  | String c rest => if Ascii.eqb c "." then EmptyString else String c (beforePoint rest)
  end.

Definition integerDigits (text : string) : nat :=
  String.length (beforePoint (match text with
                              | String "-" rest => rest
                              | _ => text
                              end)).

Definition numericOverflow (text : string) : option Thrown :=
  if decide (8 < integerDigits text)%nat
  then Some (ErrorObject "numeric field overflow") else None.

End Trending.

(** ** Sample data *)

Module Sample.

Definition aVideo : VideoRow.t :=
  {| VideoRow.title := "Morning flow";
     VideoRow.description := None;
     VideoRow.uploadStatus := UnderReview;
     VideoRow.elementCategory := Water;
     VideoRow.createdBy := "user-1";
     VideoRow.createdAt := 1000;
     VideoRow.videoUrl := None;
     VideoRow.durationSeconds := Some 60;
     VideoRow.viewCount := 10;
     VideoRow.aiAnalysisResult := None;
     VideoRow.safetyAssessment := None;
     VideoRow.moderationStatus := Some requires_review;
     VideoRow.moderationNotes := None;
     VideoRow.moderatedBy := None;
     VideoRow.moderatedAt := None;
     VideoRow.positivityScore := Some 95 |}.

Definition aPost : PostRow.t :=
  {| PostRow.authorId := "user-2";
     PostRow.content := "I hate everything, it's hopeless";
     PostRow.createdAt := 2000;
     PostRow.elementCategory := Some Fire;
     PostRow.uploadStatus := Some Published;
     PostRow.safetyAssessment := None;
     PostRow.moderationStatus := Some auto_approved;
     PostRow.viewCount := 7;
     PostRow.engagementScore := Some 3;
     PostRow.positivityScore := None |}.

Definition queued (id contentId : Z) (contentType : ContentType) : QueueRow.t :=
  {| QueueRow.id := id;
     QueueRow.contentId := contentId;
     QueueRow.contentType := contentType;
     QueueRow.aiFlaggedReason := Some "harassment";
     QueueRow.priority := high;
     QueueRow.createdAt := 3000;
     QueueRow.status := pending |}.

(** Video 7 and post 7 share their number; both are queued, and so is
    video 8, which has no row. *)
Definition db : DB :=
  {| videos := {[ 7 := aVideo ]};
     posts := {[ 7 := aPost ]};
     moderationQueue := [queued 1 7 video; queued 2 7 post; queued 3 8 video];
     moderationQueue_seq := 4;
     auditLog := [];
     auditLog_seq := 1;
     contentTrending := [];
     contentTrending_seq := 1 |}.

Definition analysis : AIAnalysisResult :=
  {| elementType := Fire;
     confidence := JsFinite (3 # 10);
     reasoning := "Keyword analysis matched 1 Fire keywords" |}.

Definition safe : SafetyAssessment :=
  {| isSafe := true; flags := []; riskLevel := risk_none |}.

(** A printer of numbers for the examples: two decimals. *)
Definition printNumber (n : JsNumber) : string :=
  match n with
  | JsNaN => "NaN"
  | JsInfinity true => "-Infinity"
  | JsInfinity false => "Infinity"
  | JsFinite q => Trending.toFixed2_Q q
  end.

(** The refusal of a number by an [integer] column, for the examples. *)
Definition integerRefused (n : JsNumber) : Thrown :=
  ErrorObject ("invalid input syntax for type integer: " +:+ printNumber n).

End Sample.

(** ** Trending calculator: what a run leaves alone *)

Module TrendingFrame.

(** The columns of a trending row that only the insert sets. *)
Definition fixedColumns (r : TrendingRow.t) : Z * Z * ContentType * ElementCategory :=
  (TrendingRow.id r, TrendingRow.contentId r, TrendingRow.contentType r,
   TrendingRow.elementCategory r).

(** The content a trending row refers to is not published: it has no row,
    or its row has another publish status. *)
Definition notPublished (db : DB) (r : TrendingRow.t) : Prop :=
  match TrendingRow.contentType r with
  | video => ∀ row, videos db !! TrendingRow.contentId r = Some row →
                    VideoRow.uploadStatus row ≠ Published
  | post => ∀ row, posts db !! TrendingRow.contentId r = Some row →
                   PostRow.uploadStatus row ≠ Some Published
  end.

End TrendingFrame.

(** ** More sample data *)

Module SampleMore.

(** The trending row of video 7, written while the video was published. *)
Definition trendingOfVideo7 : TrendingRow.t :=
  {| TrendingRow.id := 1;
     TrendingRow.contentId := 7;
     TrendingRow.contentType := video;
     TrendingRow.elementCategory := Water;
     TrendingRow.trendingScore := Some "21.60";
     TrendingRow.viewCount24h := 10;
     TrendingRow.engagementCount24h := 3;
     TrendingRow.updatedAt := 200 |}.

(** [Sample.db], in which video 7 is under review, with that row. *)
Definition withStaleTrending : DB :=
  {| videos := videos Sample.db;
     posts := posts Sample.db;
     moderationQueue := moderationQueue Sample.db;
     moderationQueue_seq := moderationQueue_seq Sample.db;
     auditLog := auditLog Sample.db;
     auditLog_seq := auditLog_seq Sample.db;
     contentTrending := [trendingOfVideo7];
     contentTrending_seq := 2 |}.

End SampleMore.

(** ** Classifier ([server/services/content-analysis.ts]) *)

Module Analysis.

(** [keywords], in the order of its entries. *)
Definition keywords : list (ElementCategory * list string) :=
  [ (Water, ["water"; "ocean"; "flow"; "emotion"; "calm"; "soothe"; "reflect";
             "rain"; "river"; "wave"; "peace"; "intuition"; "feeling"]);
    (Fire, ["fire"; "energy"; "passion"; "motivat"; "transform"; "power";
            "action"; "burn"; "light"; "strength"; "drive"; "courage"]);
    (Earth, ["earth"; "ground"; "nature"; "grow"; "stability"; "nurture";
             "plant"; "forest"; "mountain"; "root"; "heal"; "body"]);
    (Air, ["air"; "wind"; "think"; "intellect"; "communic"; "freedom";
           "perspect"; "mind"; "idea"; "learn"; "breath"; "open"]);
    (Spiritual, ["spirit"; "transcend"; "divine"; "meditat"; "pray"; "conscious";
                 "sacred"; "soul"; "enlighten"; "chakra"; "universe"; "cosmic"]) ].

(** [words.filter((w) => text.includes(w)).length]. *)
Definition scoreOf (text : string) (words : list string) : nat :=
  length (filter (λ w, includes text w = true) words).

(** One turn of the loop over the entries of [keywords]. *)
Definition better (text : string) (best : ElementCategory * nat)
    (entry : ElementCategory * list string) : ElementCategory * nat :=
  let score := scoreOf text entry.2 in
  if decide (best.2 < score)%nat then (entry.1, score) else best.

(** [bestElement] and [bestScore] after the loop. *)
Definition bestOf (text : string) : ElementCategory * nat :=
  foldl (better text) (Spiritual, 0%nat) keywords.

Definition elementName (element : ElementCategory) : string :=
  match element with
  | Water => "Water"
  | Fire => "Fire"
  | Earth => "Earth"
  | Air => "Air"
  | Spiritual => "Spiritual"
  end.

(** The text [fallbackAnalysis] looks at. *)
Definition textOf (title : string) (description : option string) : string :=
  toLowerCase (title +:+ " " +:+ default "" description).

(** [fallbackAnalysis]; [drawn] is the element
    [elements[Math.floor(Math.random() * elements.length)]] that the random
    source picks when it is asked. *)
Definition fallbackAnalysis (drawn : ElementCategory) (title : string)
    (description : option string) : AIAnalysisResult :=
  let text := textOf title description in
  let bestScore := (bestOf text).2 in
  let bestElement :=
    if decide (bestScore = 0%nat) then drawn else (bestOf text).1 in
  {| elementType := bestElement;
     confidence :=
       if decide (0 < bestScore)%nat
       then Double.min (Double.nearest (8 # 10))
              (Double.mul (Double.ofInt (Z.of_nat bestScore)) (Double.nearest (2 # 10)))
       else Double.nearest (3 # 10);
     reasoning :=
       if decide (0 < bestScore)%nat
       then "Keyword analysis matched " +:+ pretty bestScore +:+ " "
            +:+ elementName bestElement +:+ " keywords"
       else "Random assignment (no AI API key configured)" |}.

(** What an analyser returns.  The declared type is [AIAnalysisResult];
    the object built from a reply carries what the reply holds:
    [elementType] is [parsed.elementType] under a cast, any value or none,
    and [reasoning] is any truthy value of the reply. *)
Record Analysed := {
  a_elementType : option Json;
  a_confidence : JsNumber;
  a_reasoning : Json;
}.

(** A result of the declared type, as an analyser returns it. *)
Definition declared (a : AIAnalysisResult) : Analysed :=
  {| a_elementType := Some (JString (elementName (elementType a)));
     a_confidence := confidence a;
     a_reasoning := JString (reasoning a) |}.

(** What the chat endpoint delivered, as far as the analysers look at it;
    [ChatParsed parsed] is the value [JSON.parse(content)] returned. *)
Inductive Chat :=
  | ChatRejected                  (* fetch rejects *)
  | ChatNotOk                     (* !response.ok *)
  | ChatUnreadable                (* response.json() rejects, or data is null *)
  | ChatNoContent                 (* no choices[0].message.content *)
  | ChatContentUnparsable         (* JSON.parse throws *)
  | ChatParsed (parsed : Json).

Section Analysers.
Variable stringToNumber : string → JsNumber.
Variable toPrimitive : Json → Completion string.

(** The object both analysers build from a parsed reply, inside their
    [try]. *)
Definition ofParsed (parsed : Json) : Completion Analysed :=
  elementType ←ᶜ getMember "elementType" parsed;
  confidence ←ᶜ getMember "confidence" parsed;
  confidence ←ᶜ clamped stringToNumber toPrimitive (JsFinite 0) (JsFinite 1)
                  confidence (JsFinite (1 # 2));
  reasoning ←ᶜ getMember "reasoning" parsed;
  Returns {| a_elementType := elementType;
             a_confidence := confidence;
             a_reasoning := js_or reasoning (JString "AI analysis completed") |}.

Definition analyzeVideoElement (OPENAI_API_KEY : option string) (net : Chat)
    (drawn : ElementCategory) (videoUrl title : string)
    (description : option string) : Analysed :=
  let fallback := declared (fallbackAnalysis drawn title description) in
  if negb (configured OPENAI_API_KEY) then fallback
  else match net with
       | ChatParsed parsed =>
           match ofParsed parsed with
           | Returns analysis => analysis
           | Throws _ => fallback
           end
       | _ => fallback
       end.

Definition analyzeTextElement (OPENAI_API_KEY : option string) (net : Chat)
    (drawn : ElementCategory) (content : string) : Analysed :=
  let fallback := declared (fallbackAnalysis drawn content None) in
  if negb (configured OPENAI_API_KEY) then fallback
  else match net with
       | ChatParsed parsed =>
           match ofParsed parsed with
           | Returns analysis => analysis
           | Throws _ => fallback
           end
       | _ => fallback
       end.
End Analysers.

(** The low-confidence test of the video orchestrator. *)
Definition lowConfidence (analysis : AIAnalysisResult) : bool :=
  js_lt (confidence analysis) (JsFinite (1 # 2)).

End Analysis.

(** ** Feed caching layer ([server/lib/cache.ts]) *)

(** [InMemoryCache]: the [Map] is a finite map from the key, [Date.now()]
    is the argument [now], and each method returns its result together with
    the map it leaves.  The cleanup timer calls [purgeExpired].  The values
    of [T] are the cached values other than [undefined], which [get] and
    [cacheAside] take for a miss; the time to live is always given. *)
Module Cache.
Section InMemoryCache.
Context {T : Type}.

Record CacheEntry := {
  data : T;
  expiresAt : Z;
}.

Definition get (now : Z) (key : string) (store : gmap string CacheEntry)
    : option T * gmap string CacheEntry :=
  match store !! key with
  | None => (None, store)
  | Some entry =>
      if decide (expiresAt entry < now) then (None, delete key store)
      else (Some (data entry), store)
  end.

Definition set (now : Z) (key : string) (data : T) (ttlSeconds : Z)
    (store : gmap string CacheEntry) : gmap string CacheEntry :=
  <[key := {| data := data; expiresAt := now + ttlSeconds * 1000 |}]> store.

Definition del (key : string) (store : gmap string CacheEntry)
    : bool * gmap string CacheEntry :=
  (bool_decide (is_Some (store !! key)), delete key store).

(** The loop over [Array.from(this.store.keys())]. *)
Definition invalidatePrefix (prefix : string) (store : gmap string CacheEntry)
    : nat * gmap string CacheEntry :=
  foldl (λ (acc : nat * gmap string CacheEntry) key,
           if String.prefix prefix key then (S acc.1, delete key acc.2) else acc)
    (0%nat, store) (map_to_list store).*1.

Definition flush (store : gmap string CacheEntry) : gmap string CacheEntry := ∅.

(** The loop over [Array.from(this.store.entries())]. *)
Definition purgeExpired (now : Z) (store : gmap string CacheEntry)
    : gmap string CacheEntry :=
  foldl (λ (acc : gmap string CacheEntry) (kv : string * CacheEntry),
           if decide (expiresAt kv.2 < now) then delete kv.1 acc else acc)
    store (map_to_list store).

(** The getter [size]. *)
Definition size (now : Z) (store : gmap string CacheEntry)
    : nat * gmap string CacheEntry :=
  let store := purgeExpired now store in
  (base.size store, store).


End InMemoryCache.
Arguments CacheEntry : clear implicits.
End Cache.

(** ** Rate limiting ([server/middleware/rate-limit.ts]) *)

(** [RateLimitStore] and the middleware made by [rateLimit].  The counters
    are small integers, on which the arithmetic of JavaScript numbers is
    exact.  The store is the one module-level [store] that every limiter
    made by [rateLimit] shares.  The response headers are kept as numbers,
    and [passed] tells whether [next()] was called or status 429 sent. *)
Module RateLimit.

Record WindowEntry := {
  count : Z;
  resetAt : Z;
}.

Record HitResult := {
  hit_count : Z;
  resetMs : Z;
}.

Definition hit (now : Z) (key : string) (windowMs : Z) (windows : gmap string WindowEntry)
    : HitResult * gmap string WindowEntry :=
  let opened :=
    ({| hit_count := 1; resetMs := windowMs |},
     <[key := {| count := 1; resetAt := now + windowMs |}]> windows) in
  match windows !! key with
  | None => opened
  | Some entry =>
      if decide (resetAt entry < now) then opened
      else
        ({| hit_count := count entry + 1; resetMs := resetAt entry - now |},
         <[key := {| count := count entry + 1; resetAt := resetAt entry |}]> windows)
  end.

Definition purge (now : Z) (windows : gmap string WindowEntry)
    : gmap string WindowEntry :=
  foldl (λ (acc : gmap string WindowEntry) (kv : string * WindowEntry),
           if decide (resetAt kv.2 < now) then delete kv.1 acc else acc)
    windows (map_to_list windows).

Record RateLimitOptions := {
  windowMs : Z;
  max : Z;
}.

Record Response := {
  rateLimitLimit : Z;
  rateLimitRemaining : Z;
  rateLimitReset : Z;
  passed : bool;
}.

(** [Math.ceil(resetMs / 1000)]. *)
Definition ceilSeconds (ms : Z) : Z := - ((- ms) / 1000).

Definition rateLimit (opts : RateLimitOptions) (now : Z) (key : string)
    (windows : gmap string WindowEntry) : Response * gmap string WindowEntry :=
  let '(h, windows) := hit now key (windowMs opts) windows in
  ({| rateLimitLimit := max opts;
      rateLimitRemaining := Z.max 0 (max opts - hit_count h);
      rateLimitReset := ceilSeconds (resetMs h);
      passed := negb (bool_decide (max opts < hit_count h)) |},
   windows).

Definition uploadRateLimit := rateLimit {| windowMs := 60000; max := 5 |}.
Definition apiRateLimit := rateLimit {| windowMs := 60000; max := 60 |}.
Definition authRateLimit := rateLimit {| windowMs := 60000; max := 10 |}.

(** A client's requests in the order they arrive: each goes through one
    limiter at one time, and the responses are collected in that order. *)
Definition serve (key : string) (requests : list (RateLimitOptions * Z))
    (windows : gmap string WindowEntry) : list Response * gmap string WindowEntry :=
  foldl (λ (acc : list Response * gmap string WindowEntry) (request : RateLimitOptions * Z),
           let r := rateLimit request.1 request.2 key acc.2 in
           ((acc.1 ++ [r.1])%list, r.2))
    ([], windows) requests.

(** No window of [key] is open at [now]. *)
Definition closed (now : Z) (key : string) (windows : gmap string WindowEntry) : Prop :=
  match windows !! key with
  | Some entry => resetAt entry < now
  | None => True
  end.

End RateLimit.

(** ** Feed service ([server/services/feed-service.ts]) *)

(** The element feed.  The module-level [feedCache] is a finite map that is
    passed through; every [Date.now()] is an argument, since the clock moves
    while queries are awaited; and the outcome of each database query is an
    argument, a completion holding the selected rows.  The [author] of an
    item, which nothing below reads, is left out with the join that
    fetches it. *)
Module Feed.
Import Ranking.

Record Cached := {
  data : list FeedItem;
  expiresAt : Z;
}.

Definition CACHE_TTL : Z := 5 * 60 * 1000.

Definition getCached (now : Z) (key : string) (feedCache : gmap string Cached)
    : option (list FeedItem) * gmap string Cached :=
  match feedCache !! key with
  | Some cached =>
      if decide (now < expiresAt cached) then (Some (data cached), feedCache)
      else (None, delete key feedCache)
  | None => (None, delete key feedCache)
  end.

Definition setCache (now : Z) (key : string) (data : list FeedItem)
    (feedCache : gmap string Cached) : gmap string Cached :=
  <[key := {| data := data; expiresAt := now + CACHE_TTL |}]> feedCache.

Definition invalidateFeedCache (feedCache : gmap string Cached) : gmap string Cached := ∅.

(** A row of the two [select]s. *)
Record QueryRow := {
  r_id : Z;
  r_elementCategory : ElementCategory;
  r_viewCount : Z;
  r_positivityScore : option Z;
  r_createdAt : Z;
}.

Definition itemOf (type : ContentType) (r : QueryRow) : FeedItem :=
  {| id := r_id r;
     type := type;
     elementCategory := r_elementCategory r;
     viewCount := r_viewCount r;
     positivityScore := r_positivityScore r;
     createdAt := r_createdAt r |}.

(** [array.slice(0, limit)]. *)
Definition slice0 {A} (limit : Z) (l : list A) : list A :=
  if decide (0 ≤ limit) then take (Z.to_nat limit) l
  else take (length l - Z.to_nat (- limit)) l.

(** The comparator of the merge. *)
Definition byDate (a b : FeedItem) : Z := createdAt b - createdAt a.

Section Service.
Variable numberToString : Z → string.

Definition cacheKey (kind : string) (elementCategory : ElementCategory)
    (limit offset : Z) : string :=
  kind +:+ ":" +:+ Analysis.elementName elementCategory +:+ ":"
  +:+ numberToString limit +:+ ":" +:+ numberToString offset.

(** [now] is the clock at the cache lookup, [later] when the query has
    answered. *)
Definition getVideosByElement (now later : Z) (query : Completion (list QueryRow))
    (elementCategory : ElementCategory) (limit offset : Z)
    (feedCache : gmap string Cached)
    : Completion (list FeedItem) * gmap string Cached :=
  let key := cacheKey "videos" elementCategory limit offset in
  match getCached now key feedCache with
  | (Some cached, feedCache) => (Returns cached, feedCache)
  | (None, feedCache) =>
      match query with
      | Returns result =>
          let items := itemOf video <$> result in
          (Returns items, setCache later key items feedCache)
      | Throws e => (Throws e, feedCache)
      end
  end.

Definition getPostsByElement (query : Completion (list QueryRow))
    : Completion (list FeedItem) :=
  match query with
  | Returns result => Returns (itemOf post <$> result)
  | Throws e => Throws e
  end.

(** [now], [nowVideos], [afterVideos] and [afterAll] are the clock at the
    lookup of the feed, at the lookup of the videos, when the videos query
    has answered and when both have.  When both queries fail,
    [postsFailFirst] tells which rejection [Promise.all] sees first. *)
Definition getFeedByElement (now nowVideos afterVideos afterAll : Z)
    (videoQuery postQuery : Completion (list QueryRow)) (postsFailFirst : bool)
    (elementCategory : ElementCategory) (limit offset : Z)
    (feedCache : gmap string Cached)
    : Completion (list FeedItem) * gmap string Cached :=
  let key := cacheKey "feed" elementCategory limit offset in
  match getCached now key feedCache with
  | (Some cached, feedCache) => (Returns cached, feedCache)
  | (None, feedCache) =>
      let '(videoItems, feedCache) :=
        getVideosByElement nowVideos afterVideos videoQuery
          elementCategory limit offset feedCache in
      match videoItems, getPostsByElement postQuery with
      | Returns videoItems, Returns postItems =>
          let combined :=
            slice0 limit (arraySort byDate (videoItems ++ postItems)%list) in
          (Returns combined, setCache afterAll key combined feedCache)
      | Throws e, Returns _ => (Throws e, feedCache)
      | Returns _, Throws e => (Throws e, feedCache)
      | Throws e, Throws e' => (Throws (if postsFailFirst then e' else e), feedCache)
      end
  end.

End Service.

(** Newest first. *)
Definition newestFirst (a b : FeedItem) : Prop := createdAt b ≤ createdAt a.

End Feed.

(** Rows for the examples of the feed. *)
Module SampleFeed.

Definition row (id createdAt : Z) (positivityScore : option Z) : Feed.QueryRow :=
  {| Feed.r_id := id;
     Feed.r_elementCategory := Fire;
     Feed.r_viewCount := 7;
     Feed.r_positivityScore := positivityScore;
     Feed.r_createdAt := createdAt |}.

(** Post 7 of [Sample.db], as the posts query selects it. *)
Definition post7 : Feed.QueryRow := row 7 2000 None.

Definition printInteger (n : Z) : string := pretty n.

End SampleFeed.

(** ** Moderation queue listing ([server/routes.ts]) *)

(** The handler of [GET /api/moderation/queue].  The rows come ordered by
    the [CASE] on the priority and then newest first; rows that agree on
    both are given in the order of the table, which is one of the orders
    the database may choose. *)
Module QueueRoute.





End QueueRoute.

(** ** Retrying calls of the AI services ([server/lib/ai-error-handler.ts]) *)

(** [withRetry].  The options are integers, on which the arithmetic is
    exact.  [fn attempt] is the completion of the call [fn()] made in the
    iteration [attempt]; the result comes with the list of the delays that
    were slept, in order. *)
Module Retry.

Record RetryOptions := {
  maxRetries : Z;
  baseDelay : Z;
  maxDelay : Z;
}.




(** What [lastError] holds: [undefined] before the first failure, then the
    [Error] that was thrown or [new Error(String(error))] of another
    value. *)
Inductive LastError :=
  | Undefined
  | TheError (message : string)
  | ErrorOfString.

Definition lastErrorOf (error : Thrown) : LastError :=
  match error with
  | ErrorObject message => TheError message
  | OtherValue => ErrorOfString
  end.

Inductive Settled (T : Type) :=
  | Resolved (value : T)
  | Rejected (reason : LastError).
Arguments Resolved {T} value.
Arguments Rejected {T} reason.

Definition delayOf (opts : RetryOptions) (attempt : Z) : Z :=
  Z.min (baseDelay opts * 2 ^ attempt) (maxDelay opts).

Section WithRetry.
Context {T : Type}.

(** The [for] loop, with [remaining] iterations to go. *)
Fixpoint loop (fn : Z → Completion T) (opts : RetryOptions) (remaining : nat)
    (attempt : Z) (lastError : LastError) (slept : list Z) : Settled T * list Z :=
  match remaining with
  | O => (Rejected lastError, slept)
  | S remaining =>
      match fn attempt with
      | Returns value => (Resolved value, slept)
      | Throws error =>
          let lastError := lastErrorOf error in
          if decide (attempt < maxRetries opts)
          then loop fn opts remaining (attempt + 1) lastError
                 (slept ++ [delayOf opts attempt])%list
          else loop fn opts remaining (attempt + 1) lastError slept
      end
  end.


End WithRetry.


End Retry.

(** ** Sparks and energy ([server/storage.ts], [server/routes.ts]) *)

(** [toggleSpark] and the spark route over the tables they touch: [sparks],
    the [energy_transactions], and of [posts] and [users] the columns
    [spark_count] and [energy_points], each a map from the primary key.
    The columns are 32-bit integers: a statement that leaves the range
    fails, and so does an insert that breaks a foreign key; the driver's
    errors for both are parameters.  No statement runs in a transaction.
    The columns [spark_type] and [created_at], which are not read, are
    left out. *)
Module Storage.

Definition INT_MAX : Z := 2147483647.
Definition INT_MIN : Z := -2147483648.
Definition inRange (z : Z) : Prop := INT_MIN ≤ z ≤ INT_MAX.

#[global] Instance inRange_dec z : Decision (inRange z).
Proof. unfold inRange. apply _. Defined.

Module SparkRow.
Record t := {
  id : Z;
  postId : Z;
  userId : string;
}.
End SparkRow.

Module EnergyRow.
Record t := {
  id : Z;
  userId : string;
  amount : Z;
  transactionType : string;
  description : option string;
}.
End EnergyRow.

Record Tables := {
  sparks : list SparkRow.t;
  sparks_seq : Z;
  sparkCount : gmap Z Z;
  energyPoints : gmap string Z;
  energyTransactions : list EnergyRow.t;
  energyTransactions_seq : Z;
}.

Definition setSparks (rows : list SparkRow.t) (seq : Z) (t : Tables) : Tables :=
  {| sparks := rows;
     sparks_seq := seq;
     sparkCount := sparkCount t;
     energyPoints := energyPoints t;
     energyTransactions := energyTransactions t;
     energyTransactions_seq := energyTransactions_seq t |}.

Definition setSparkCount (counts : gmap Z Z) (t : Tables) : Tables :=
  {| sparks := sparks t;
     sparks_seq := sparks_seq t;
     sparkCount := counts;
     energyPoints := energyPoints t;
     energyTransactions := energyTransactions t;
     energyTransactions_seq := energyTransactions_seq t |}.

Definition setEnergyPoints (points : gmap string Z) (t : Tables) : Tables :=
  {| sparks := sparks t;
     sparks_seq := sparks_seq t;
     sparkCount := sparkCount t;
     energyPoints := points;
     energyTransactions := energyTransactions t;
     energyTransactions_seq := energyTransactions_seq t |}.

Definition setEnergyTransactions (rows : list EnergyRow.t) (seq : Z) (t : Tables) : Tables :=
  {| sparks := sparks t;
     sparks_seq := sparks_seq t;
     sparkCount := sparkCount t;
     energyPoints := energyPoints t;
     energyTransactions := rows;
     energyTransactions_seq := seq |}.

(** The sparks of a user on a post, and the sparks on a post. *)
Definition sparksOf (postId : Z) (userId : string) (t : Tables) : list SparkRow.t :=
  filter (λ s, SparkRow.postId s = postId ∧ SparkRow.userId s = userId) (sparks t).

Definition sparksOn (postId : Z) (t : Tables) : list SparkRow.t :=
  filter (λ s, SparkRow.postId s = postId) (sparks t).

Section Statements.
Variables (foreignKeyViolation outOfRange : Thrown).

(** [const [spark] = await db.select().from(sparks).where(...)]. *)
Definition getUserSpark (postId : Z) (userId : string) (t : Tables)
    : option SparkRow.t :=
  head (sparksOf postId userId t).

(** [db.delete(sparks).where(eq(sparks.id, id))]. *)
Definition deleteSpark (id : Z) (t : Tables) : Tables :=
  setSparks (filter (λ s, SparkRow.id s ≠ id) (sparks t)) (sparks_seq t) t.

(** [db.insert(sparks).values({ postId, userId })]; the identity value is
    used up also when the insert fails. *)
Definition insertSpark (postId : Z) (userId : string) (t : Tables)
    : Completion unit * Tables :=
  if decide (is_Some (sparkCount t !! postId) ∧ is_Some (energyPoints t !! userId))
  then
    (Returns (),
     setSparks
       (sparks t ++ [{| SparkRow.id := sparks_seq t;
                        SparkRow.postId := postId;
                        SparkRow.userId := userId |}])%list
       (sparks_seq t + 1) t)
  else (Throws foreignKeyViolation, setSparks (sparks t) (sparks_seq t + 1) t).

(** [db.update(posts).set({ sparkCount: sql`spark_count + delta` })
      .where(eq(posts.id, postId))]. *)
Definition addSparkCount (postId delta : Z) (t : Tables) : Completion unit * Tables :=
  match sparkCount t !! postId with
  | Some count =>
      if decide (inRange (count + delta))
      then (Returns (), setSparkCount (<[postId := count + delta]> (sparkCount t)) t)
      else (Throws outOfRange, t)
  | None => (Returns (), t)
  end.

Definition toggleSpark (postId : Z) (userId : string) (t : Tables)
    : Completion bool * Tables :=
  match getUserSpark postId userId t with
  | Some existing =>
      let t := deleteSpark (SparkRow.id existing) t in
      match addSparkCount postId (-1) t with
      | (Returns _, t) => (Returns false, t)
      | (Throws e, t) => (Throws e, t)
      end
  | None =>
      match insertSpark postId userId t with
      | (Returns _, t) =>
          match addSparkCount postId 1 t with
          | (Returns _, t) => (Returns true, t)
          | (Throws e, t) => (Throws e, t)
          end
      | (Throws e, t) => (Throws e, t)
      end
  end.

Definition addEnergyTransaction (userId : string) (amount : Z)
    (transactionType : string) (description : option string) (t : Tables)
    : Completion EnergyRow.t * Tables :=
  let row :=
    {| EnergyRow.id := energyTransactions_seq t;
       EnergyRow.userId := userId;
       EnergyRow.amount := amount;
       EnergyRow.transactionType := transactionType;
       EnergyRow.description := description |} in
  if decide (is_Some (energyPoints t !! userId) ∧ inRange amount)
  then
    (Returns row,
     setEnergyTransactions (energyTransactions t ++ [row])%list
       (energyTransactions_seq t + 1) t)
  else
    (Throws (if decide (inRange amount) then foreignKeyViolation else outOfRange),
     setEnergyTransactions (energyTransactions t) (energyTransactions_seq t + 1) t).

Definition updateEnergy (userId : string) (amount : Z) (t : Tables)
    : Completion unit * Tables :=
  match energyPoints t !! userId with
  | Some points =>
      if decide (inRange (points + amount))
      then (Returns (), setEnergyPoints (<[userId := points + amount]> (energyPoints t)) t)
      else (Throws outOfRange, t)
  | None => (Returns (), t)
  end.

Inductive Response :=
  | Json (sparked : bool)
  | Status500.

(** The handler of [POST /api/posts/:id/spark]. *)
Definition sparkRoute (postId : Z) (userId : string) (t : Tables) : Response * Tables :=
  match toggleSpark postId userId t with
  | (Returns sparked, t) =>
      if sparked then
        match addEnergyTransaction userId 1 "earn" (Some "Sparked a post") t with
        | (Returns _, t) =>
            match updateEnergy userId 1 t with
            | (Returns _, t) => (Json sparked, t)
            | (Throws _, t) => (Status500, t)
            end
        | (Throws _, t) => (Status500, t)
        end
      else (Json sparked, t)
  | (Throws _, t) => (Status500, t)
  end.

(** A client that sparks a post and takes the spark back, [rounds] times. *)
Fixpoint sparkAndUnspark (rounds : nat) (postId : Z) (userId : string) (t : Tables)
    : list Response * Tables :=
  match rounds with
  | O => ([], t)
  | S rounds =>
      let '(on, t) := sparkRoute postId userId t in
      let '(off, t) := sparkRoute postId userId t in
      let '(later, t) := sparkAndUnspark rounds postId userId t in
      (on :: off :: later, t)
  end.

End Statements.

(** The primary key of [sparks], with the identity sequence ahead of it. *)
Definition primaryKey (t : Tables) : Prop :=
  NoDup (SparkRow.id <$> sparks t)
  ∧ ∀ s, s ∈ sparks t → SparkRow.id s < sparks_seq t.

(** Every post's [spark_count] is the number of its sparks. *)
Definition countsAgree (t : Tables) : Prop :=
  ∀ postId count,
    sparkCount t !! postId = Some count →
    count = Z.of_nat (length (sparksOn postId t)).

End Storage.

(** ** Safety flags ([server/lib/moderation-helper.ts]) *)

Module Helper.

Record SafetyFlags := {
  shouldBlock : bool;
  requiresReview : bool;
  reason : string;
}.

Definition parseSafetyFlags (assessment : SafetyAssessment) : SafetyFlags :=
  if negb (isSafe assessment) then
    if decide (riskLevel assessment = risk_high) then
      {| shouldBlock := true;
         requiresReview := false;
         reason := "High risk content detected: " +:+ join ", " (flags assessment) |}
    else
      {| shouldBlock := false;
         requiresReview := true;
         reason := "Content flagged for review: " +:+ join ", " (flags assessment) |}
  else
    {| shouldBlock := false;
       requiresReview := false;
       reason := "Content passed safety review" |}.

(** The status the two flags stand for. *)
Definition statusOfFlags (f : SafetyFlags) : ModerationStatus :=
  if shouldBlock f then rejected
  else if requiresReview f then requires_review
  else auto_approved.

End Helper.

(** ** Cost monitor ([server/lib/cost-monitor.ts]) *)

(** [CostMonitor].  The costs are doubles; their arithmetic is a
    parameter: [estimate] is the estimate of lines 56 to 59 as a function
    of the model and the token counts, [add] is [+] and [zero] is [0].  The
    window is a whole number of hours. *)
Module Cost.
Section CostMonitor.
Context {N : Type} (zero : N) (add : N → N → N) (estimate : string → Z → Z → N).

Record CostRecord := {
  timestamp : Z;
  model : string;
  inputTokens : Z;
  outputTokens : Z;
  estimatedCost : N;
  operation : string;
}.

Definition budgetWindowMs (budgetWindowHours : Z) : Z :=
  budgetWindowHours * 60 * 60 * 1000.

Definition pruneOldRecords (now budgetWindowHours : Z) (records : list CostRecord)
    : list CostRecord :=
  let cutoff := now - budgetWindowMs budgetWindowHours * 2 in
  filter (λ r, cutoff ≤ timestamp r) records.

Definition getCurrentSpend (now budgetWindowHours : Z) (records : list CostRecord) : N :=
  let cutoff := now - budgetWindowMs budgetWindowHours in
  foldl (λ sum r, add sum (estimatedCost r)) zero
    (filter (λ r, cutoff ≤ timestamp r) records).

(** [record], without the warning it may log. *)
Definition record (now budgetWindowHours : Z) (model : string)
    (inputTokens outputTokens : Z) (operation : string) (records : list CostRecord)
    : N * list CostRecord :=
  let estimatedCost := estimate model inputTokens outputTokens in
  let record :=
    {| timestamp := now;
       model := model;
       inputTokens := inputTokens;
       outputTokens := outputTokens;
       estimatedCost := estimatedCost;
       operation := operation |} in
  (estimatedCost, pruneOldRecords now budgetWindowHours (records ++ [record])%list).

End CostMonitor.
End Cost.

(** * Properties *)

(** ** Strings *)

Lemma prefix_refl (s : string) : String.prefix s s = true.
Proof.
  induction s as [|c s IH]; simpl; [done|].
  destruct (Ascii.ascii_dec c c); [exact IH | congruence].
Qed.

Lemma includes_cons (c : ascii) (text w : string) :
  includes (String c text) w
  = if String.prefix w (String c text) then true else includes text w.
Proof. reflexivity. Qed.

Lemma includes_self (s : string) : includes s s = true.
Proof. destruct s; [done|]. by rewrite includes_cons, prefix_refl. Qed.

Lemma includes_suffix (a b : string) : includes (a +:+ b) b = true.
Proof.
  induction a as [|c a IH].
  - apply includes_self.
  - change (String c a +:+ b) with (String c (a +:+ b)).
    rewrite includes_cons, IH. by destruct (String.prefix _ _).
Qed.

(** ** Sorting with a comparator *)

Lemma StronglySorted_weaken {A : Type} (R S : A → A → Prop) (l : list A) :
  (∀ a b, R a b → S a b) → StronglySorted R l → StronglySorted S l.
Proof.
  intros HRS. induction 1 as [|x l Hl IH Hx]; constructor; [exact IH|].
  eapply Forall_impl; [exact Hx|]. intros y. apply HRS.
Qed.

Section ArraySortFacts.
Context {A : Type} (cmp : A → A → Z).

Let before (x y : A) : Prop := cmp x y ≤ 0.

Hypothesis cmp_total : ∀ x y, cmp x y ≤ 0 ∨ cmp y x ≤ 0.
Hypothesis cmp_trans : ∀ x y z, cmp x y ≤ 0 → cmp y z ≤ 0 → cmp x z ≤ 0.

Lemma insertOrdered_Permutation x l : insertOrdered cmp x l ≡ₚ x :: l.
Proof.
  induction l as [|y l IH]; simpl; [done|].
  case_decide; [done|]. rewrite IH. apply Permutation_swap.
Qed.

Lemma arraySort_Permutation l : arraySort cmp l ≡ₚ l.
Proof.
  induction l as [|x l IH]; simpl; [done|].
  rewrite insertOrdered_Permutation. by rewrite IH.
Qed.

Lemma insertOrdered_sorted x l :
  StronglySorted before l → StronglySorted before (insertOrdered cmp x l).
Proof.
  induction 1 as [|y l Hl IH Hy]; simpl.
  - repeat constructor.
  - case_decide as Hxy.
    + constructor; [by constructor|].
      constructor; [exact Hxy|].
      eapply Forall_impl; [exact Hy|]. intros z Hyz. by eapply cmp_trans.
    + constructor; [exact IH|].
      rewrite insertOrdered_Permutation. constructor; [|exact Hy].
      destruct (cmp_total x y); [contradiction | done].
Qed.

Lemma arraySort_sorted l : StronglySorted before (arraySort cmp l).
Proof.
  induction l as [|x l IH]; simpl; [constructor|].
  by apply insertOrdered_sorted.
Qed.
End ArraySortFacts.

(** ** Safety screener *)

Section SafetyFacts.
Import Safety.

Lemma riskOf_high_category cats :
  (∃ c, c ∈ cats ∧ c ∈ highRiskCategories) → riskOf true cats = risk_high.
Proof.
  intros (c & Hc & Hhigh). unfold riskOf.
  replace (existsb _ cats) with true; [done|].
  symmetry. apply existsb_exists. exists c. split.
  - by apply list_elem_of_In.
  - by apply bool_decide_eq_true.
Qed.

Lemma riskOf_no_high_category cats :
  ¬ (∃ c, c ∈ cats ∧ c ∈ highRiskCategories) →
  riskOf true cats =
    if bool_decide (2 < length cats)%nat then risk_high
    else if bool_decide (0 < length cats)%nat then risk_medium
    else risk_none.
Proof.
  intros Hno. unfold riskOf.
  destruct (existsb _ cats) eqn:Hex; [|done].
  exfalso. apply Hno. apply existsb_exists in Hex as (c & Hc & Hhigh).
  exists c. split; [by apply list_elem_of_In | by apply bool_decide_eq_true in Hhigh].
Qed.

(** C4.  Without a configured service the screener answers safe, no
    flags, risk none; with a configured service whose call is rejected,
    answers non-OK or delivers no readable body it answers unsafe, the
    single flag "api_error", risk medium; and it returns an assessment,
    never throws, whatever the service does. *)
Theorem C4_safety_fallback_asymmetry
    (key : option string) (net : Fetch) (content : string) (contentType : ContentType) :
  (configured key = false →
     checkContentSafety key net content contentType
     = Returns {| isSafe := true; flags := []; riskLevel := risk_none |})
  ∧ (configured key = true → failing net →
     checkContentSafety key net content contentType
     = Returns {| isSafe := false; flags := ["api_error"]; riskLevel := risk_medium |})
  ∧ (∃ a, checkContentSafety key net content contentType = Returns a).
Proof.
  unfold checkContentSafety. split; [|split].
  - intros ->. done.
  - intros -> Hfail. simpl.
    destruct net as [e|ok status body]; simpl in *; [done|].
    destruct Hfail as [->|[->| ->]]; [done| |]; by destruct ok.
  - destruct (configured key); simpl; [|by eexists].
    destruct (checkContentSafety_try net); by eexists.
Qed.

Lemma C4_safety_fallback_asymmetry_witness :
  checkContentSafety None (FetchRejected OtherValue) "hello" post
    = Returns {| isSafe := true; flags := []; riskLevel := risk_none |}
  ∧ checkContentSafety (Some "sk-key") (FetchResponse false 503 BodyUnparsable) "hello" post
    = Returns {| isSafe := false; flags := ["api_error"]; riskLevel := risk_medium |}.
Proof.
  split.
  - apply (C4_safety_fallback_asymmetry None (FetchRejected OtherValue) "hello" post).
    reflexivity.
  - apply (C4_safety_fallback_asymmetry (Some "sk-key")
             (FetchResponse false 503 BodyUnparsable) "hello" post).
    + reflexivity.
    + simpl. left. reflexivity.
Defined.

(** C9.  For an answer of the configured service with a first result,
    the flags are the names of the categories whose value is true, in the
    order of the answer, and the high-severity categories are
    sexual/minors, violence/graphic, self-harm/intent and
    self-harm/instructions.  When the result is flagged, the content is
    unsafe and the risk level is high if a high-severity category is among
    the flags or more than two categories are flagged, medium if one or two
    are flagged and none of them is high-severity, none if no category is
    flagged; when the result is not flagged, the risk level is none and the
    content is safe. *)
Theorem C9_risk_level_of_response
    (key : option string) (status : Z) (r : ModerationResult)
    (content : string) (contentType : ContentType) :
  let flaggedCategories := (filter (λ kv, kv.2 = true) (categories r)).*1 in
  let highSeverity (c : string) : Prop :=
    c = "sexual/minors" ∨ c = "violence/graphic"
    ∨ c = "self-harm/intent" ∨ c = "self-harm/instructions" in
  configured key = true →
  ∃ a,
    checkContentSafety key (FetchResponse true status (BodyResults (Some r)))
      content contentType = Returns a
    ∧ flags a = flaggedCategories
    ∧ isSafe a = negb (flagged r)
    ∧ (flagged r = true →
         ((∃ c, c ∈ flaggedCategories ∧ highSeverity c) → riskLevel a = risk_high)
         ∧ ((2 < length flaggedCategories)%nat → riskLevel a = risk_high)
         ∧ (¬ (∃ c, c ∈ flaggedCategories ∧ highSeverity c) →
            (1 ≤ length flaggedCategories ≤ 2)%nat → riskLevel a = risk_medium)
         ∧ (length flaggedCategories = 0%nat → riskLevel a = risk_none))
    ∧ (flagged r = false → riskLevel a = risk_none).
Proof.
  intros flaggedCategories highSeverity Hkey.
  assert (Hhigh : ∀ c, highSeverity c ↔ c ∈ highRiskCategories).
  { intros c. unfold highSeverity, highRiskCategories.
    rewrite !elem_of_cons, elem_of_nil. tauto. }
  unfold checkContentSafety. rewrite Hkey. simpl.
  eexists. split; [reflexivity|]. cbn [flags isSafe riskLevel].
  change (flaggedCategoriesOf r) with flaggedCategories.
  split; [done|]. split; [done|]. split.
  - intros ->. split; [|split; [|split]].
    + intros (c & Hc & Hsevere). apply riskOf_high_category.
      exists c. split; [done | by apply Hhigh].
    + intros Hlen. unfold riskOf. destruct (existsb _ _); [done|].
      by rewrite bool_decide_eq_true_2.
    + intros Hno [Hlo Hhi]. rewrite riskOf_no_high_category.
      * rewrite bool_decide_eq_false_2 by lia. by rewrite bool_decide_eq_true_2 by lia.
      * intros (c & Hc & Hsevere). apply Hno. exists c. split; [done | by apply Hhigh].
    + intros Hlen. rewrite riskOf_no_high_category.
      * rewrite !bool_decide_eq_false_2 by lia. done.
      * intros (c & Hc & _). destruct flaggedCategories; [|done].
        by apply elem_of_nil in Hc.
  - intros ->. done.
Qed.

(** An answer that flags hate and self-harm/intent, out of three
    categories listed: two flags, one of them high-severity, risk high. *)
Lemma C9_risk_level_of_response_witness :
  ∃ a,
    checkContentSafety (Some "sk-key")
      (FetchResponse true 200
         (BodyResults (Some {| flagged := true;
                               categories := [("hate", true); ("violence", false);
                                              ("self-harm/intent", true)] |})))
      "text" post = Returns a
    ∧ flags a = ["hate"; "self-harm/intent"]
    ∧ isSafe a = false
    ∧ riskLevel a = risk_high.
Proof.
  destruct (C9_risk_level_of_response (Some "sk-key") 200
              {| flagged := true;
                 categories := [("hate", true); ("violence", false);
                                ("self-harm/intent", true)] |}
              "text" post) as (a & Ha & Hflags & Hsafe & Hflagged & _).
  - reflexivity.
  - exists a. split; [exact Ha|]. split; [exact Hflags|]. split; [exact Hsafe|].
    destruct Hflagged as (Hhigh & _); [reflexivity|].
    apply Hhigh. exists "self-harm/intent". split.
    + vm_compute. set_solver.
    + right. right. left. reflexivity.
Defined.

End SafetyFacts.

(** ** Positivity scorer *)

Section PositivityFacts.
Import Positivity.

(** The fallback rule: baseline 50, plus 5 for each positive keyword the
    lower-cased text contains, minus 8 for each negative keyword it
    contains, clamped to the range 0..100. *)
Lemma fallbackPositivityScore_rule content :
  fallbackPositivityScore content
  = Z.min 100 (Z.max 0
      (50 + 5 * Z.of_nat (length (hits (toLowerCase content) positiveWords))
          - 8 * Z.of_nat (length (hits (toLowerCase content) negativeWords)))).
Proof. unfold fallbackPositivityScore. f_equal. f_equal. lia. Qed.

Lemma fallbackPositivityScore_range content :
  0 ≤ fallbackPositivityScore content ≤ 100.
Proof. rewrite fallbackPositivityScore_rule. lia. Qed.

(** C5, as the code has it.  For the text "I hate everything, it's
    hopeless" the fallback scorer returns 39 = 50 + 5×1 − 8×2: the
    negative keywords found are "hate" and "hopeless", and the positive
    keyword "hope" is found too, inside "hopeless", a keyword being hit
    when it occurs anywhere in the lower-cased text.  Without a configured
    service this is the positivity score of the text. *)
Theorem C5_fallback_score_of_example :
  let content := "I hate everything, it's hopeless" in
  hits (toLowerCase content) negativeWords = ["hate"; "hopeless"]
  ∧ hits (toLowerCase content) positiveWords = ["hope"]
  ∧ fallbackPositivityScore content = 39
  ∧ 39 = Z.min 100 (Z.max 0 (50 + 5 * 1 - 8 * 2))
  ∧ ∀ stringToNumber toPrimitive net,
      analyzePositivity stringToNumber toPrimitive None net content = JsFinite 39.
Proof. repeat split. Qed.

(** C5, as stated, fails: the score of that text is not 34. *)
Lemma C5_score_is_not_34 :
  fallbackPositivityScore "I hate everything, it's hopeless" ≠ 34.
Proof. vm_compute. discriminate. Qed.

End PositivityFacts.

(** ** Ranking engine *)

Section RankingFacts.
Import Ranking.

Lemma tierOrder_inj t1 t2 : tierOrder t1 = tierOrder t2 → t1 = t2.
Proof. by destruct t1, t2. Qed.

Lemma compareItems_spec a b : compareItems a b ≤ 0 ↔ ranksBefore a b.
Proof.
  unfold compareItems, ranksBefore. case_decide as Hne.
  - split; [lia|]. intros [?|[Heq _]]; [lia|]. by rewrite Heq in Hne.
  - assert (tierOf a = tierOf b) by (apply tierOrder_inj; lia).
    split; [intros; right; split; [done | lia]|].
    intros [?|[_ ?]]; lia.
Qed.

Lemma compareItems_total a b : compareItems a b ≤ 0 ∨ compareItems b a ≤ 0.
Proof. unfold compareItems. repeat case_decide; lia. Qed.

Lemma compareItems_trans a b c :
  compareItems a b ≤ 0 → compareItems b c ≤ 0 → compareItems a c ≤ 0.
Proof. unfold compareItems. repeat case_decide; lia. Qed.

Lemma getVisibilityTier_thresholds :
  getVisibilityTier None = standard
  ∧ (∀ p, 90 ≤ p → getVisibilityTier (Some p) = featured)
  ∧ (∀ p, 50 ≤ p < 90 → getVisibilityTier (Some p) = standard)
  ∧ (∀ p, 30 ≤ p < 50 → getVisibilityTier (Some p) = reduced)
  ∧ (∀ p, p < 30 → getVisibilityTier (Some p) = suppressed).
Proof.
  split; [done|]. unfold getVisibilityTier.
  repeat split; intros p Hp; repeat case_decide; done || lia.
Qed.

(** C7.  Every item has the one tier its positivity score gives (no
    score: standard; 90 and more: featured; 50 and more: standard; 30 and
    more: reduced; below: suppressed).  The ranked list holds exactly the
    items of the input whose score is missing or at least 30, each as often
    as the input has it, and it is ordered: of two items the one standing
    first has the better tier (featured before standard before reduced), or
    the same tier and a creation time that is not earlier.  The ranking is
    a function of the list alone. *)
Theorem C7_positivity_ranking (items : list FeedItem) :
  let tier (item : FeedItem) : VisibilityTier :=
    match positivityScore item with
    | None => standard
    | Some p =>
        if decide (90 ≤ p) then featured
        else if decide (50 ≤ p) then standard
        else if decide (30 ≤ p) then reduced
        else suppressed
    end in
  let rank (t : VisibilityTier) : Z :=
    match t with
    | featured => 1
    | standard => 2
    | reduced => 3
    | suppressed => 4
    end in
  let kept (item : FeedItem) : Prop :=
    ∀ p, positivityScore item = Some p → 30 ≤ p in
  let before (a b : FeedItem) : Prop :=
    rank (tier a) < rank (tier b)
    ∨ (tier a = tier b ∧ createdAt b ≤ createdAt a) in
  (getVisibilityTier None = standard
   ∧ (∀ p, 90 ≤ p → getVisibilityTier (Some p) = featured)
   ∧ (∀ p, 50 ≤ p < 90 → getVisibilityTier (Some p) = standard)
   ∧ (∀ p, 30 ≤ p < 50 → getVisibilityTier (Some p) = reduced)
   ∧ (∀ p, p < 30 → getVisibilityTier (Some p) = suppressed))
  ∧ (∀ item, getVisibilityTier (positivityScore item) = tier item)
  ∧ (∀ item, item ∈ applyPositivityRanking items ↔ item ∈ items ∧ kept item)
  ∧ applyPositivityRanking items
      ≡ₚ filter (λ item, tier item ≠ suppressed) items
  ∧ (∀ item, tier item ≠ suppressed ↔ kept item)
  ∧ StronglySorted before (applyPositivityRanking items).
Proof.
  intros tier rank kept before.
  assert (Htier : ∀ item, tierOf item = tier item).
  { intros item. unfold tierOf, tier, getVisibilityTier.
    destruct (positivityScore item) as [p|]; [|done]. repeat case_decide; done || lia. }
  assert (Hkept : ∀ item, tier item ≠ suppressed ↔ kept item).
  { intros item. unfold tier, kept.
    destruct (positivityScore item) as [p|]; [|by split].
    repeat case_decide; (split; [intros _ q [= <-]; lia | done])
      || (split; [done | intros Hp; specialize (Hp p eq_refl); lia]). }
  assert (Hperm : applyPositivityRanking items
                    ≡ₚ filter (λ item, tier item ≠ suppressed) items).
  { unfold applyPositivityRanking. rewrite arraySort_Permutation.
    erewrite list_filter_iff; [done|]. intros item. by rewrite Htier. }
  split; [apply getVisibilityTier_thresholds|].
  split; [exact Htier|].
  split; [|split; [exact Hperm|split; [exact Hkept|]]].
  - intros item. rewrite Hperm, list_elem_of_filter, Hkept. tauto.
  - eapply StronglySorted_weaken; [|apply arraySort_sorted].
    + intros a b Hab. apply compareItems_spec in Hab.
      unfold ranksBefore in Hab. unfold before.
      rewrite <- (Htier a), <- (Htier b).
      destruct Hab as [Hlt|[Heq Hdate]]; [left|by right].
      revert Hlt. unfold rank. destruct (tierOf a), (tierOf b); cbn; lia.
    + apply compareItems_total.
    + apply compareItems_trans.
Qed.

(** Three items: an old one of score 95, a newer one of score 12 and one
    without a score.  The one of score 12 is dropped, the one of score 95
    comes first. *)
Lemma C7_positivity_ranking_witness :
  let old := {| id := 1; type := post; elementCategory := Water; viewCount := 3;
                positivityScore := Some 95; createdAt := 1000 |} in
  let low := {| id := 2; type := video; elementCategory := Fire; viewCount := 9;
                positivityScore := Some 12; createdAt := 5000 |} in
  let new := {| id := 3; type := post; elementCategory := Air; viewCount := 0;
                positivityScore := None; createdAt := 4000 |} in
  getVisibilityTier (Some 95) = featured
  ∧ getVisibilityTier (Some 12) = suppressed
  ∧ applyPositivityRanking [new; low; old] = [old; new]
  ∧ low ∉ applyPositivityRanking [new; low; old].
Proof.
  intros old low new.
  destruct (C7_positivity_ranking [new; low; old])
    as ((_ & Hfeat & _ & _ & Hsup) & _ & Hin & _).
  split; [apply Hfeat; lia|].
  split; [apply Hsup; lia|].
  split; [reflexivity|].
  rewrite Hin. intros [_ Hkept]. specialize (Hkept 12 eq_refl). lia.
Defined.

End RankingFacts.

(** ** Moderation workflow *)

(** The statements of an orchestrator, laid open. *)
Ltac run_unfold :=
  unfold Moderation.processVideoUpload, Moderation.processPostCreation, tryCatch,
    Moderation.processVideoUpload_try, Moderation.processVideoUpload_catch,
    Moderation.processPostCreation_try, Moderation.processPostCreation_catch,
    Moderation.updateVideoAnalysed, Moderation.updatePostAnalysed,
    bindR, await, statement, ret.

Section ModerationFacts.
Import Moderation.

Lemma publishStatusOf_uploadStatusFor m : uploadStatusFor m = publishStatusOf m.
Proof. by destruct m. Qed.

Lemma policy_unsafe contentType safety confidence :
  isSafe safety = false →
  policy contentType safety confidence
  = if decide (riskLevel safety = risk_high)
    then (rejected, Some urgent) else (requires_review, Some high).
Proof.
  intros Hs. unfold policy. rewrite Hs. simpl.
  case_decide; [by rewrite bool_decide_eq_true_2 | by rewrite bool_decide_eq_false_2].
Qed.

Lemma policy_safe contentType safety confidence :
  isSafe safety = true →
  policy contentType safety confidence
  = if bool_decide (contentType = video) && js_lt confidence (JsFinite (1 # 2))
    then (requires_review, Some normal) else (auto_approved, None).
Proof. intros Hs. unfold policy. by rewrite Hs. Qed.


(** A fact about the row an [update] wrote, from the column set. *)
Ltac written_row :=
  let row := fresh "row" in
  let Hrow := fresh "Hrow" in
  intros row Hrow; cbn in Hrow; rewrite lookup_alter_eq in Hrow;
  apply fmap_Some in Hrow as (? & _ & ->); cbn; eauto.

(** A fact about the only row an [insert] added to the queue. *)
Ltac only_queued :=
  let row := fresh "row" in
  intros row ->%list_elem_of_singleton; cbn; eauto.

Lemma alter_alter {A} (f g : A → A) (i : Z) (m : gmap Z A) :
  alter f i (alter g i m) = alter (f ∘ g) i m.
Proof.
  apply map_eq. intros j. destruct (decide (j = i)) as [->|Hne].
  - rewrite !lookup_alter_eq. by destruct (m !! i).
  - by rewrite !lookup_alter_ne.
Qed.

Section Policy.
Variable numberToString : JsNumber → string.
Variable integerRefused : JsNumber → Thrown.

(** C1.  When the three stages return and no statement of the [try] block
    is rejected, the orchestrator reports success, and whenever it reports
    success its outcome is the one the policy gives for (safety assessment,
    classifier confidence, content type), and nothing else enters it: the
    moderation status, which is also the one written to the content row,
    and the queue rows added, none or one with the priority of the policy,
    for this content item and pending.  Unsafe with risk high: rejected,
    urgent.  Unsafe otherwise: requires_review, high.  A safe video with
    confidence below 0.5: requires_review, normal, with a reason that
    contains the printed confidence.  Otherwise: auto_approved and no queue
    row.  For posts the confidence plays no part. *)
Theorem C1_decision_policy
  (env : Rejections) (now videoId postId : Z) (actorId : string)
  (analysis : AIAnalysisResult) (safety : SafetyAssessment)
  (positivityScore : JsNumber) (db : DB) :
(let r := processVideoUpload numberToString integerRefused env now videoId actorId
            (Returns analysis) (Returns safety) (Returns positivityScore) db in
 let d := policy video safety (confidence analysis) in
 (queueInsert env = None → contentUpdate env = None → auditInsert env = None →
  is_Some (asInteger positivityScore) →
  r.2 = Returns {| success := true; status := d.1 |})
 ∧ (∀ o, r.2 = Returns o → success o = true →
    status o = d.1
    ∧ QueueRow.priority <$> enqueued db r.1 = option_list d.2
    ∧ (∀ row, row ∈ enqueued db r.1 →
         QueueRow.contentId row = videoId ∧ QueueRow.contentType row = video
         ∧ QueueRow.status row = pending)
    ∧ (d.2 = Some normal →
         ∃ row reason, enqueued db r.1 = [row]
           ∧ QueueRow.aiFlaggedReason row = Some reason
           ∧ includes reason (numberToString (confidence analysis)) = true)
    ∧ (∀ row, videos r.1 !! videoId = Some row →
         VideoRow.moderationStatus row = Some d.1)))
∧ (let r := processPostCreation integerRefused env now postId actorId
              (Returns analysis) (Returns safety) (Returns positivityScore) db in
   let d := policy post safety (confidence analysis) in
   (queueInsert env = None → contentUpdate env = None → auditInsert env = None →
    is_Some (asInteger positivityScore) →
    r.2 = Returns {| success := true; status := d.1 |})
   ∧ (∀ o, r.2 = Returns o → success o = true →
      status o = d.1
      ∧ QueueRow.priority <$> enqueued db r.1 = option_list d.2
      ∧ (∀ row, row ∈ enqueued db r.1 →
           QueueRow.contentId row = postId ∧ QueueRow.contentType row = post
           ∧ QueueRow.status row = pending)
      ∧ (∀ row, posts r.1 !! postId = Some row →
           PostRow.moderationStatus row = Some d.1))).
Proof.
  cbv zeta. split; split.
  - intros Hq Hu Ha [score Hscore]. run_unfold. rewrite Hq, Hu, Ha, Hscore.
    destruct (isSafe safety) eqn:Hsafe; cbn [negb].
    + rewrite (policy_safe _ _ _ Hsafe). rewrite bool_decide_eq_true_2 by done.
      cbn [andb]. by destruct (js_lt _ _).
    + rewrite (policy_unsafe _ _ _ Hsafe). by case_decide.
  - intros o. run_unfold.
    destruct (isSafe safety) eqn:Hsafe; cbn [negb].
    + rewrite (policy_safe _ _ _ Hsafe). rewrite bool_decide_eq_true_2 by done.
      cbn [andb]. destruct (js_lt _ _) eqn:Hlt.
      * destruct (queueInsert env), (contentUpdate env), (asInteger positivityScore),
          (auditInsert env), (catchUpdate env), (catchInsert env); cbn;
          intros [= <-]; try done; intros _.
        all: unfold enqueued; cbn; rewrite drop_app_length; cbn.
        all: split_and!; [done | done | only_queued | | written_row].
        all: intros _; do 2 eexists; split; [done|]; split; [done|];
          apply includes_suffix.
      * destruct (contentUpdate env), (asInteger positivityScore),
          (auditInsert env), (catchUpdate env), (catchInsert env); cbn;
          intros [= <-]; try done; intros _.
        all: unfold enqueued; cbn; rewrite drop_all; cbn.
        all: split_and!; [done | done | by intros ? ?%elem_of_nil | done | written_row].
    + rewrite (policy_unsafe _ _ _ Hsafe).
      case_decide.
      all: destruct (queueInsert env), (contentUpdate env), (asInteger positivityScore),
          (auditInsert env), (catchUpdate env), (catchInsert env); cbn;
          intros [= <-]; try done; intros _.
      all: unfold enqueued; cbn; rewrite drop_app_length; cbn.
      all: split_and!; [done | done | only_queued | done | written_row].
  - intros Hq Hu Ha [score Hscore]. run_unfold. rewrite Hq, Hu, Ha, Hscore.
    destruct (isSafe safety) eqn:Hsafe; cbn [negb].
    + rewrite (policy_safe _ _ _ Hsafe). by rewrite bool_decide_eq_false_2.
    + rewrite (policy_unsafe _ _ _ Hsafe). by case_decide.
  - intros o. run_unfold.
    destruct (isSafe safety) eqn:Hsafe; cbn [negb].
    + rewrite (policy_safe _ _ _ Hsafe). rewrite bool_decide_eq_false_2 by done.
      cbn [andb].
      destruct (contentUpdate env), (asInteger positivityScore),
        (auditInsert env), (catchUpdate env); cbn;
        intros [= <-]; try done; intros _.
      all: unfold enqueued; cbn; rewrite drop_all; cbn.
      all: split_and!; [done | done | by intros ? ?%elem_of_nil | written_row].
    + rewrite (policy_unsafe _ _ _ Hsafe).
      case_decide.
      all: destruct (queueInsert env), (contentUpdate env), (asInteger positivityScore),
          (auditInsert env), (catchUpdate env); cbn;
          intros [= <-]; try done; intros _.
      all: unfold enqueued; cbn; rewrite drop_app_length; cbn.
      all: split_and!; [done | done | only_queued | written_row].
Qed.

(** C2.  When a statement of the [try] block is rejected, or an awaited
    stage, with an error, and the statements of the [catch] are not, the
    video orchestrator reports failure with requires_review, writes
    requires_review and Under Review to the video and adds, after what the
    [try] block had queued, one pending queue row of priority high for the
    video whose reason is "Processing error: " followed by the message of
    the error.  The post orchestrator reports the same and writes
    requires_review and Under Review to the post, and adds no queue row:
    the queue holds what the [try] block had queued, at most one row, whose
    reason is the list of the screener's flags; for a post the screener
    found safe nothing is queued. *)
Theorem C2_pipeline_exception
    (env : Rejections) (now contentId : Z) (actorId : string)
    (analysing : Completion AIAnalysisResult)
    (screening : Completion SafetyAssessment)
    (scoring : Completion JsNumber) (error : Thrown) (db : DB) :
  (let thrown := processVideoUpload_try numberToString integerRefused env now contentId
                   actorId analysing screening scoring db in
   let r := processVideoUpload numberToString integerRefused env now contentId actorId
              analysing screening scoring db in
   thrown.2 = Throws error → catchUpdate env = None → catchInsert env = None →
   r.2 = Returns {| success := false; status := requires_review |}
   ∧ (∀ row, videos r.1 !! contentId = Some row →
        VideoRow.moderationStatus row = Some requires_review
        ∧ VideoRow.uploadStatus row = UnderReview)
   ∧ (∃ row reason, moderationQueue r.1 = (moderationQueue thrown.1 ++ [row])%list
        ∧ QueueRow.contentId row = contentId
        ∧ QueueRow.contentType row = video
        ∧ QueueRow.priority row = high
        ∧ QueueRow.status row = pending
        ∧ QueueRow.aiFlaggedReason row = Some reason
        ∧ reason = "Processing error: " +:+ errorMessage error
        ∧ includes reason (errorMessage error) = true))
  ∧ (let thrown := processPostCreation_try integerRefused env now contentId
                     actorId analysing screening scoring db in
     let r := processPostCreation integerRefused env now contentId actorId
                analysing screening scoring db in
     thrown.2 = Throws error → catchUpdate env = None →
     r.2 = Returns {| success := false; status := requires_review |}
     ∧ (∀ row, posts r.1 !! contentId = Some row →
          PostRow.moderationStatus row = Some requires_review
          ∧ PostRow.uploadStatus row = Some UnderReview)
     ∧ moderationQueue r.1 = moderationQueue thrown.1
     ∧ (length (enqueued db r.1) ≤ 1)%nat
     ∧ (∀ row, row ∈ enqueued db r.1 →
          ∃ safety, screening = Returns safety ∧ isSafe safety = false
            ∧ QueueRow.aiFlaggedReason row = Some (join ", " (flags safety)))
     ∧ (∀ safety, screening = Returns safety → isSafe safety = true →
          enqueued db r.1 = [])).
Proof.
  cbv zeta. split.
  - intros Hthrown Hupdate Hinsert.
    unfold processVideoUpload, tryCatch.
    destruct (processVideoUpload_try _ _ _ _ _ _ _ _ _ _) as [db' [o|e]];
      cbn in Hthrown; [done|]. injection Hthrown as ->.
    unfold processVideoUpload_catch, bindR, statement, ret.
    rewrite Hupdate, Hinsert. cbn.
    split_and!; [done | written_row |].
    do 2 eexists. split_and!; try done. apply includes_suffix.
  - intros Hthrown Hupdate.
    assert (Hqueue :
      let thrown := processPostCreation_try integerRefused env now contentId
                      actorId analysing screening scoring db in
      (length (enqueued db thrown.1) ≤ 1)%nat
      ∧ (∀ row, row ∈ enqueued db thrown.1 →
          ∃ safety, screening = Returns safety ∧ isSafe safety = false
            ∧ QueueRow.aiFlaggedReason row = Some (join ", " (flags safety)))
      ∧ (∀ safety, screening = Returns safety → isSafe safety = true →
          enqueued db thrown.1 = [])).
    { clear Hthrown. cbv zeta. run_unfold. unfold enqueued.
      destruct analysing as [analysis|]; [|cbn; rewrite drop_all; split_and!;
        [cbn; lia | by intros ? ?%elem_of_nil | done]].
      destruct screening as [safety|]; [|cbn; rewrite drop_all; split_and!;
        [cbn; lia | by intros ? ?%elem_of_nil | done]].
      destruct scoring as [positivityScore|]; [|cbn; rewrite drop_all; split_and!;
        [cbn; lia | by intros ? ?%elem_of_nil | done]].
      destruct (isSafe safety) eqn:Hsafe; cbn [negb].
      - destruct (contentUpdate env), (asInteger positivityScore), (auditInsert env);
          cbn; rewrite drop_all; (split_and!;
            [cbn; lia | by intros ? ?%elem_of_nil | done]).
      - destruct (queueInsert env), (contentUpdate env), (asInteger positivityScore),
          (auditInsert env); cbn; rewrite ?drop_all, ?drop_app_length;
          (split_and!;
            [cbn; lia
            | first [by intros ? ?%elem_of_nil
                    | intros row ->%list_elem_of_singleton; exists safety; by split_and!]
            | intros ? [= <-]; congruence]). }
    revert Hqueue Hthrown. cbv zeta.
    unfold processPostCreation, tryCatch.
    destruct (processPostCreation_try _ _ _ _ _ _ _ _ _) as [db' [o|e]];
      cbn [fst snd]; intros Hqueue Hthrown; [done|]. injection Hthrown as ->.
    unfold processPostCreation_catch, bindR, statement, ret.
    rewrite Hupdate. cbn.
    split_and!; [done | written_row | done | apply Hqueue..].
Qed.

(** The writes of a run: the tables it leaves alone, the tables it only
    adds to, and the content row, which is as it was in a run that does not
    return and carries a moderation status and the publish status mapped
    from it as soon as one [update] ran. *)
Lemma processVideoUpload_frame env now videoId actorId analysing screening scoring db :
  let r := processVideoUpload numberToString integerRefused env now videoId actorId
             analysing screening scoring db in
  posts r.1 = posts db
  ∧ contentTrending r.1 = contentTrending db
  ∧ moderationQueue db `prefix_of` moderationQueue r.1
  ∧ auditLog db `prefix_of` auditLog r.1
  ∧ ((videos r.1 = videos db ∧ ∀ o, r.2 ≠ Returns o)
     ∨ ∃ set, videos r.1 = alter set videoId (videos db)
         ∧ ∀ row, consistentVideo (set row)).
Proof.
  cbv zeta. run_unfold.
  assert (Hanalysed : ∀ a s m z row, consistentVideo (setVideoAnalysed a s m z row)).
  { intros. eexists. split; [done|]. apply publishStatusOf_uploadStatusFor. }
  assert (Hstatus : ∀ row, consistentVideo (setVideoStatus requires_review UnderReview row)).
  { intros. by eexists. }
  assert (Hboth : ∀ a s m z row,
            consistentVideo
              ((setVideoStatus requires_review UnderReview ∘ setVideoAnalysed a s m z) row)).
  { intros. by eexists. }
  destruct analysing as [analysis|]; [destruct screening as [safety|];
    [destruct scoring as [positivityScore|]; [destruct (isSafe safety); cbn [negb];
      [destruct (js_lt _ _)|]|]|]|].
  all: destruct (queueInsert env), (contentUpdate env), (auditInsert env),
         (catchUpdate env), (catchInsert env); try destruct (asInteger positivityScore);
       cbn; rewrite ?alter_alter.
  all: split_and!;
         [ done | done
         | first [done | by apply prefix_app_r | by etrans; apply prefix_app_r]
         | first [done | by apply prefix_app_r]
         | first [ left; split; [done | by intros ? [=]]
                 | right; eexists; split; [reflexivity|];
                   first [apply Hanalysed | apply Hstatus | apply Hboth] ] ].
Qed.

Lemma processPostCreation_frame env now postId actorId analysing screening scoring db :
  let r := processPostCreation integerRefused env now postId actorId
             analysing screening scoring db in
  videos r.1 = videos db
  ∧ contentTrending r.1 = contentTrending db
  ∧ moderationQueue db `prefix_of` moderationQueue r.1
  ∧ auditLog db `prefix_of` auditLog r.1
  ∧ ((posts r.1 = posts db ∧ ∀ o, r.2 ≠ Returns o)
     ∨ ∃ set, posts r.1 = alter set postId (posts db)
         ∧ ∀ row, consistentPost (set row)).
Proof.
  cbv zeta. run_unfold.
  assert (Hanalysed : ∀ a s m z row, consistentPost (setPostAnalysed a s m z row)).
  { intros. eexists. split; [done|]. cbn. f_equal. apply publishStatusOf_uploadStatusFor. }
  assert (Hstatus : ∀ row, consistentPost (setPostStatus requires_review UnderReview row)).
  { intros. by eexists. }
  assert (Hboth : ∀ a s m z row,
            consistentPost
              ((setPostStatus requires_review UnderReview ∘ setPostAnalysed a s m z) row)).
  { intros. by eexists. }
  destruct analysing as [analysis|]; [destruct screening as [safety|];
    [destruct scoring as [positivityScore|]; [destruct (isSafe safety); cbn [negb]|]|]|].
  all: destruct (queueInsert env), (contentUpdate env), (auditInsert env),
         (catchUpdate env); try destruct (asInteger positivityScore);
       cbn; rewrite ?alter_alter.
  all: split_and!;
         [ done | done
         | first [done | by apply prefix_app_r]
         | first [done | by apply prefix_app_r]
         | first [ left; split; [done | by intros ? [=]]
                 | right; eexists; split; [reflexivity|];
                   first [apply Hanalysed | apply Hstatus | apply Hboth] ] ].
Qed.

End Policy.

(** Video 7 is safe and its classifier confidence is 0.3: it goes to
    review, with a queue row of priority normal that prints 0.30. *)
Lemma C1_decision_policy_witness :
  let r := processVideoUpload Sample.printNumber Sample.integerRefused noRejection
             50 7 "user-1"
             (Returns Sample.analysis) (Returns Sample.safe) (Returns (JsFinite 80))
             Sample.db in
  r.2 = Returns {| success := true; status := requires_review |}
  ∧ ∃ row reason, enqueued Sample.db r.1 = [row]
      ∧ QueueRow.aiFlaggedReason row = Some reason
      ∧ includes reason (Sample.printNumber (confidence Sample.analysis)) = true.
Proof.
  destruct (C1_decision_policy Sample.printNumber Sample.integerRefused noRejection
              50 7 7 "user-1" Sample.analysis Sample.safe (JsFinite 80) Sample.db)
    as [(Hruns & Hpolicy) _].
  assert (Hresult := Hruns eq_refl eq_refl eq_refl (ex_intro _ 80 eq_refl)).
  split; [exact Hresult|].
  destruct (Hpolicy _ Hresult eq_refl) as (_ & _ & _ & Hreason & _).
  apply Hreason. reflexivity.
Defined.

(** Post 7 is safe and the scorer answers 72.5, which the integer column
    of the [update] refuses: the [catch] sets the post to review and
    queues nothing. *)
Lemma C2_pipeline_exception_witness :
  let scored :=
    Positivity.analyzePositivity (λ _, JsNaN) (λ _, Returns "") (Some "sk-key")
      (Positivity.ReplyParsed (JObject [("score", JNumber (JsFinite (145 # 2)))]))
      "I hate everything, it's hopeless" in
  let r := processPostCreation Sample.integerRefused noRejection 50 7 "user-2"
             (Returns Sample.analysis) (Returns Sample.safe) (Returns scored)
             Sample.db in
  scored = JsFinite (145 # 2)
  ∧ r.2 = Returns {| success := false; status := requires_review |}
  ∧ (∀ row, posts r.1 !! 7 = Some row →
       PostRow.moderationStatus row = Some requires_review
       ∧ PostRow.uploadStatus row = Some UnderReview)
  ∧ moderationQueue r.1 = moderationQueue Sample.db
  ∧ enqueued Sample.db r.1 = [].
Proof.
  intros scored r. split; [reflexivity|].
  destruct (C2_pipeline_exception Sample.printNumber Sample.integerRefused noRejection
              50 7 "user-2" (Returns Sample.analysis) (Returns Sample.safe)
              (Returns scored) (Sample.integerRefused (JsFinite (145 # 2))) Sample.db)
    as [_ Hpost].
  destruct Hpost as (Hresult & Hrow & Hqueue & _ & _ & Hnone).
  - reflexivity.
  - reflexivity.
  - split; [exact Hresult|]. split; [exact Hrow|]. split; [exact Hqueue|].
    apply (Hnone Sample.safe); reflexivity.
Defined.


Lemma resolveModeration_queue now contentId contentType decision notes moderatorId db :
  moderationQueue (resolveModeration now contentId contentType decision notes moderatorId db)
  = moderationQueue (resolveQueue contentId db).
Proof. unfold resolveModeration. by destruct (decide (contentType = video)). Qed.

Lemma resolveQueue_lookup contentId db (i : nat) (e : QueueRow.t) :
  moderationQueue db !! i = Some e →
  moderationQueue (resolveQueue contentId db) !! i
  = Some (if decide (QueueRow.contentId e = contentId)
          then {| QueueRow.id := QueueRow.id e;
                  QueueRow.contentId := QueueRow.contentId e;
                  QueueRow.contentType := QueueRow.contentType e;
                  QueueRow.aiFlaggedReason := QueueRow.aiFlaggedReason e;
                  QueueRow.priority := QueueRow.priority e;
                  QueueRow.createdAt := QueueRow.createdAt e;
                  QueueRow.status := resolved |}
          else e).
Proof. intros He. cbn. by rewrite list_lookup_fmap, He. Qed.




Local Arguments uploadStatusFor : simpl never.

(** C6.  The ternary of the pipeline writes is the fixed mapping
    (auto_approved to Published, rejected to Flagged, requires_review to
    Under Review), and after each operation that writes a content row, on
    its normal path as on its exception path, the row of the content item
    carries a moderation status and the publish status mapped from it: in
    every run of an orchestrator that returns, and in a run that is
    rejected the row is either so or as it was, no [update] having run.
    The other rows of the table are as they were. *)
Theorem C6_publish_status_follows_moderation_status
    (numberToString : JsNumber → string) (integerRefused : JsNumber → Thrown)
    (env : Rejections)
    (now contentId : Z) (actorId : string)
    (analysing : Completion AIAnalysisResult)
    (screening : Completion SafetyAssessment)
    (scoring : Completion JsNumber)
    (decision : ModerationDecision) (notes : option string) (db : DB) :
  (publishStatusOf auto_approved = Published
   ∧ publishStatusOf rejected = Flagged
   ∧ publishStatusOf requires_review = UnderReview
   ∧ ∀ m, uploadStatusFor m = publishStatusOf m)
  ∧ (let r := processVideoUpload numberToString integerRefused env now contentId actorId
                analysing screening scoring db in
     (∀ o row, r.2 = Returns o → videos r.1 !! contentId = Some row →
        consistentVideo row)
     ∧ (∀ row, videos r.1 !! contentId = Some row →
          consistentVideo row ∨ videos db !! contentId = Some row)
     ∧ (∀ other, other ≠ contentId → videos r.1 !! other = videos db !! other)
     ∧ posts r.1 = posts db)
  ∧ (let r := processPostCreation integerRefused env now contentId actorId
                analysing screening scoring db in
     (∀ o row, r.2 = Returns o → posts r.1 !! contentId = Some row →
        consistentPost row)
     ∧ (∀ row, posts r.1 !! contentId = Some row →
          consistentPost row ∨ posts db !! contentId = Some row)
     ∧ (∀ other, other ≠ contentId → posts r.1 !! other = posts db !! other)
     ∧ videos r.1 = videos db)
  ∧ (let db' := resolveModeration now contentId video decision notes actorId db in
     (∀ row, videos db' !! contentId = Some row → consistentVideo row)
     ∧ (∀ other, other ≠ contentId → videos db' !! other = videos db !! other)
     ∧ posts db' = posts db)
  ∧ (let db' := resolveModeration now contentId post decision notes actorId db in
     (∀ row, posts db' !! contentId = Some row → consistentPost row)
     ∧ (∀ other, other ≠ contentId → posts db' !! other = posts db !! other)
     ∧ videos db' = videos db).
Proof.
  split; [by split_and!; [..|intros []]|].
  split; [|split].
  - destruct (processVideoUpload_frame numberToString integerRefused env now contentId
                actorId analysing screening scoring db)
      as (Hposts & _ & _ & _ & Hvideos).
    cbv zeta. destruct Hvideos as [[Hsame Hrejected]|(set & Hset & Hconsistent)].
    + split_and!; [by intros o row ?%Hrejected | | by rewrite Hsame | done].
      intros row. rewrite Hsame. by right.
    + assert (Hrow : ∀ row, alter set contentId (videos db) !! contentId = Some row →
                consistentVideo row).
      { intros row. rewrite lookup_alter_eq. intros (? & _ & ->)%fmap_Some. apply Hconsistent. }
      rewrite Hset. split_and!; [by intros o row _ ?%Hrow | by intros row ?%Hrow; left | | done].
      intros other Hother. by rewrite lookup_alter_ne.
  - destruct (processPostCreation_frame integerRefused env now contentId
                actorId analysing screening scoring db)
      as (Hvideos & _ & _ & _ & Hposts).
    cbv zeta. destruct Hposts as [[Hsame Hrejected]|(set & Hset & Hconsistent)].
    + split_and!; [by intros o row ?%Hrejected | | by rewrite Hsame | done].
      intros row. rewrite Hsame. by right.
    + assert (Hrow : ∀ row, alter set contentId (posts db) !! contentId = Some row →
                consistentPost row).
      { intros row. rewrite lookup_alter_eq. intros (? & _ & ->)%fmap_Some. apply Hconsistent. }
      rewrite Hset. split_and!; [by intros o row _ ?%Hrow | by intros row ?%Hrow; left | | done].
      intros other Hother. by rewrite lookup_alter_ne.
  - cbv zeta. split; split_and!.
    + unfold resolveModeration.
      destruct decision; repeat case_decide; try done; cbn; written_row; by eexists.
    + intros other Hother. unfold resolveModeration.
      repeat case_decide; try done; cbn; by rewrite lookup_alter_ne.
    + done.
    + unfold resolveModeration.
      destruct decision; repeat case_decide; try done; cbn; written_row; by eexists.
    + intros other Hother. unfold resolveModeration.
      repeat case_decide; try done; cbn; by rewrite lookup_alter_ne.
    + done.
Qed.

(** The scorer answers 72.5 for video 7, which the integer column of the
    [update] refuses; the [catch] leaves the video under review. *)
Lemma C6_publish_status_follows_moderation_status_witness :
  let r := processVideoUpload Sample.printNumber Sample.integerRefused noRejection
             50 7 "user-1"
             (Returns Sample.analysis) (Returns Sample.safe)
             (Returns (JsFinite (145 # 2))) Sample.db in
  r.2 = Returns {| success := false; status := requires_review |}
  ∧ ∃ row, videos r.1 !! 7 = Some row
      ∧ VideoRow.moderationStatus row = Some requires_review
      ∧ VideoRow.uploadStatus row = UnderReview
      ∧ consistentVideo row.
Proof.
  intros r. split; [reflexivity|].
  eexists. split; [reflexivity|]. split; [reflexivity|]. split; [reflexivity|].
  destruct (C6_publish_status_follows_moderation_status Sample.printNumber
              Sample.integerRefused noRejection 50 7 "user-1"
              (Returns Sample.analysis) (Returns Sample.safe)
              (Returns (JsFinite (145 # 2)))
              decision_approved None Sample.db)
    as (_ & (Hrow & _) & _).
  eapply Hrow; reflexivity.
Defined.

Lemma resolveModeration_auditLog now contentId contentType decision notes moderatorId db :
  auditLog (resolveModeration now contentId contentType decision notes moderatorId db)
  = (auditLog db ++
      [ {| AuditRow.id := auditLog_seq db;
           AuditRow.action :=
             if decide (decision = decision_approved) then act_publish else act_reject;
           AuditRow.actorId := Some moderatorId;
           AuditRow.contentId := Some contentId;
           AuditRow.contentType := Some contentType;
           AuditRow.changes := Some (DecisionChanges decision notes);
           AuditRow.timestamp := now |} ])%list.
Proof. unfold resolveModeration. by destruct (decide (contentType = video)). Qed.








End ModerationFacts.

(** ** Trending calculator *)

Section TrendingFacts.
Import Trending.
Context {num : Type} `{NumberOps num}.
Variable numericRefused : string → option Thrown.

Implicit Types (db : DB) (w : Work) (r : TrendingRow.t) (rows : list TrendingRow.t).

(** Rows of a table with a primary key are told apart by their [id]. *)
Lemma same_id_same_row rows r1 r2 :
  NoDup (TrendingRow.id <$> rows) →
  r1 ∈ rows → r2 ∈ rows → TrendingRow.id r1 = TrendingRow.id r2 → r1 = r2.
Proof.
  induction rows as [|r rows IH]; [by intros _ ?%elem_of_nil|].
  rewrite fmap_cons, NoDup_cons, !elem_of_cons.
  intros [Hfresh Hrows] [->|H1] [->|H2] Hid; [done| | |by apply IH].
  - destruct Hfresh. rewrite Hid. by apply list_elem_of_fmap_2.
  - destruct Hfresh. rewrite <- Hid. by apply list_elem_of_fmap_2.
Qed.

(** An [update] keeps the identity and the key of every row. *)
Lemma updateTrendingRows_ids now id w rows :
  TrendingRow.id <$> updateTrendingRows now id w rows = TrendingRow.id <$> rows.
Proof.
  unfold updateTrendingRows. rewrite <- list_fmap_compose.
  apply list_fmap_ext. intros i r _. cbn. by case_decide.
Qed.



(** What an upsert does to the table: a key that has a row keeps its rows,
    their number, identities and keys; a key that has none gets one new row
    at the end. *)
Lemma upsertTrending_found now db w first rest :
  filter (hasKey (w_contentId w) (w_contentType w)) (contentTrending db) = first :: rest →
  contentTrending (upsertTrending now db w)
  = updateTrendingRows now (TrendingRow.id first) w (contentTrending db)
  ∧ contentTrending_seq (upsertTrending now db w) = contentTrending_seq db.
Proof. intros Hsel. unfold upsertTrending. by rewrite Hsel. Qed.

Lemma upsertTrending_missing now db w :
  filter (hasKey (w_contentId w) (w_contentType w)) (contentTrending db) = [] →
  contentTrending (upsertTrending now db w)
  = (contentTrending db ++ [newTrendingRow now (contentTrending_seq db) w])%list
  ∧ contentTrending_seq (upsertTrending now db w) = contentTrending_seq db + 1.
Proof. intros Hsel. unfold upsertTrending. by rewrite Hsel. Qed.

Lemma upsertTrending_other_tables now db w :
  videos (upsertTrending now db w) = videos db
  ∧ posts (upsertTrending now db w) = posts db
  ∧ moderationQueue (upsertTrending now db w) = moderationQueue db
  ∧ auditLog (upsertTrending now db w) = auditLog db.
Proof. unfold upsertTrending. by destruct (filter _ _). Qed.

Lemma upsertTrending_primaryKey now db w :
  primaryKeyHolds db → primaryKeyHolds (upsertTrending now db w).
Proof.
  intros [Hids Hseq]. unfold primaryKeyHolds.
  destruct (filter (hasKey (w_contentId w) (w_contentType w)) (contentTrending db))
    as [|first rest] eqn:Hsel.
  - destruct (upsertTrending_missing now db w Hsel) as [-> ->]. split.
    + rewrite fmap_app. apply NoDup_app. split; [done|]. split; [|apply NoDup_singleton].
      intros id (r & -> & Hr)%list_elem_of_fmap Heq%list_elem_of_singleton.
      apply Hseq in Hr. cbn in Heq. lia.
    + intros r [Hr| ->%list_elem_of_singleton]%elem_of_app; [|cbn; lia].
      apply Hseq in Hr. lia.
  - destruct (upsertTrending_found now db w _ _ Hsel) as [-> ->]. split.
    + by rewrite updateTrendingRows_ids.
    + intros r Hr.
      assert (Hid : TrendingRow.id r ∈ TrendingRow.id <$> contentTrending db).
      { rewrite <- (updateTrendingRows_ids now (TrendingRow.id first) w).
        by apply list_elem_of_fmap_2. }
      apply list_elem_of_fmap in Hid as (r' & -> & Hr'). by apply Hseq.
Qed.





(** *** Sequences of upserts *)

Lemma upsertAll_cons now db w ws :
  upsertAll now db (w :: ws) = upsertAll now (upsertTrending now db w) ws.
Proof. reflexivity. Qed.



Lemma upsertAll_other_tables now db ws :
  videos (upsertAll now db ws) = videos db ∧ posts (upsertAll now db ws) = posts db.
Proof.
  revert db. induction ws as [|w ws IH]; intros db; [done|].
  rewrite upsertAll_cons. destruct (IH (upsertTrending now db w)) as [-> ->].
  destruct (upsertTrending_other_tables now db w) as (-> & -> & _). done.
Qed.

Lemma upsertAll_app now db ws1 ws2 :
  upsertAll now db (ws1 ++ ws2) = upsertAll now (upsertAll now db ws1) ws2.
Proof. apply foldl_app. Qed.




(** *** Upserts and time stamps *)






(** *** One row for each key *)



(** *** The work of a run *)

Lemma elementWork_ext db db' element :
  videos db = videos db' → posts db = posts db' →
  elementWork db element = elementWork db' element.
Proof.
  intros Hv Hp. unfold elementWork, publishedVideos, publishedPosts.
  by rewrite Hv, Hp.
Qed.

(** *** Runs that a refusal ends *)

Lemma untilRefused_app ws1 ws2 :
  untilRefused numericRefused (ws1 ++ ws2)
  = match refusal numericRefused ws1 with
    | None => (ws1 ++ untilRefused numericRefused ws2)%list
    | Some _ => untilRefused numericRefused ws1
    end.
Proof.
  induction ws1 as [|w ws1 IH]; [done|]. cbn.
  destruct (numericRefused (w_trendingScore w)); [done|].
  rewrite IH. by destruct (refusal numericRefused ws1).
Qed.

Lemma refusal_app ws1 ws2 :
  refusal numericRefused (ws1 ++ ws2)
  = match refusal numericRefused ws1 with
    | None => refusal numericRefused ws2
    | Some e => Some e
    end.
Proof.
  induction ws1 as [|w ws1 IH]; [done|]. cbn.
  by destruct (numericRefused (w_trendingScore w)).
Qed.


Lemma untilRefused_all ws :
  refusal numericRefused ws = None → untilRefused numericRefused ws = ws.
Proof.
  induction ws as [|w ws IH]; [done|]. cbn.
  destruct (numericRefused (w_trendingScore w)); [done|]. intros Hrest. by rewrite IH.
Qed.

Lemma untilRefused_prefix ws : untilRefused numericRefused ws `prefix_of` ws.
Proof.
  induction ws as [|w ws IH]; [done|]. cbn.
  destruct (numericRefused (w_trendingScore w)); [apply prefix_nil|].
  by apply prefix_cons.
Qed.


(** The completion that goes with a refusal. *)
Lemma forEach_upsert now ws db :
  forEach (upsert numericRefused now) ws db
  = (upsertAll now db (untilRefused numericRefused ws),
     match refusal numericRefused ws with
     | None => Returns tt
     | Some e => Throws e
     end).
Proof.
  revert db. induction ws as [|w ws IH]; intros db; [done|].
  cbn. unfold bindR, upsert, statement.
  destruct (numericRefused (w_trendingScore w)); [done|]. apply IH.
Qed.

Lemma forEach_fmap {A B} (f : A → B) (body : B → Run unit) (l : list A) :
  forEach (λ x, body (f x)) l = forEach body (f <$> l).
Proof. induction l as [|x l IH]; [done|]. cbn. by rewrite IH. Qed.

Lemma calculateElementTrending_upsertAll now db element :
  calculateElementTrending numericRefused now element db
  = (upsertAll now db (untilRefused numericRefused (elementWork db element)),
     match refusal numericRefused (elementWork db element) with
     | None => Returns tt
     | Some e => Throws e
     end).
Proof.
  unfold calculateElementTrending, elementWork, bindR, select.
  rewrite untilRefused_app, refusal_app.
  rewrite (forEach_fmap (videoWork element) (upsert numericRefused now)), forEach_upsert.
  destruct (refusal numericRefused (videoWork element <$> publishedVideos element db))
    as [e|] eqn:Hvideos; [done|].
  rewrite (forEach_fmap (postWork element) (upsert numericRefused now)), forEach_upsert.
  rewrite (untilRefused_all _ Hvideos). rewrite upsertAll_app.
  assert (Hposts : publishedPosts element
                     (upsertAll now db (videoWork element <$> publishedVideos element db))
                   = publishedPosts element db).
  { unfold publishedPosts.
    by destruct (upsertAll_other_tables now db
                   (videoWork element <$> publishedVideos element db)) as [_ ->]. }
  by rewrite Hposts.
Qed.

Lemma calculateElements_upsertAll now db0 els db :
  videos db = videos db0 → posts db = posts db0 →
  forEach (calculateElementTrending numericRefused now) els db
  = (upsertAll now db (untilRefused numericRefused (els ≫= elementWork db0)),
     match refusal numericRefused (els ≫= elementWork db0) with
     | None => Returns tt
     | Some e => Throws e
     end).
Proof.
  revert db. induction els as [|element els IH]; intros db Hv Hp; [done|].
  cbn [forEach]. unfold bindR. rewrite calculateElementTrending_upsertAll.
  rewrite bind_cons, untilRefused_app, refusal_app.
  rewrite (elementWork_ext db db0) by done.
  destruct (refusal numericRefused (elementWork db0 element)) as [e|] eqn:Hel; [done|].
  rewrite (untilRefused_all _ Hel), upsertAll_app.
  destruct (upsertAll_other_tables now db (elementWork db0 element)) as [Hv' Hp'].
  apply IH; congruence.
Qed.

(** A run is the sequence of the upserts of its work, up to the first
    refusal. *)
Lemma calculateTrendingScores_upsertAll now db :
  calculateTrendingScores numericRefused now db
  = (upsertAll now db (untilRefused numericRefused (workOf db)),
     match refusal numericRefused (workOf db) with
     | None => Returns tt
     | Some e => Throws e
     end).
Proof. by apply calculateElements_upsertAll. Qed.


Lemma elem_of_publishedVideos db element (id : Z) (row : VideoRow.t) :
  (id, row) ∈ publishedVideos element db
  ↔ videos db !! id = Some row
    ∧ VideoRow.elementCategory row = element
    ∧ VideoRow.uploadStatus row = Published.
Proof.
  unfold publishedVideos. rewrite list_elem_of_filter, elem_of_map_to_list.
  cbn. tauto.
Qed.

Lemma elem_of_publishedPosts db element (id : Z) (row : PostRow.t) :
  (id, row) ∈ publishedPosts element db
  ↔ posts db !! id = Some row
    ∧ PostRow.elementCategory row = Some element
    ∧ PostRow.uploadStatus row = Some Published.
Proof.
  unfold publishedPosts. rewrite list_elem_of_filter, elem_of_map_to_list.
  cbn. tauto.
Qed.












End TrendingFacts.


(** A published video with 60,000,000 views and positivity 95 has the
    score 129600000.00, which the column refuses: the run is rejected and
    leaves no trending row. *)
Lemma trending_run_ends_at_overflow :
  let popular :=
    {| VideoRow.title := "Popular";
       VideoRow.description := None;
       VideoRow.uploadStatus := Published;
       VideoRow.elementCategory := Water;
       VideoRow.createdBy := "user-1";
       VideoRow.createdAt := 1000;
       VideoRow.videoUrl := None;
       VideoRow.durationSeconds := None;
       VideoRow.viewCount := 60000000;
       VideoRow.aiAnalysisResult := None;
       VideoRow.safetyAssessment := None;
       VideoRow.moderationStatus := Some auto_approved;
       VideoRow.moderationNotes := None;
       VideoRow.moderatedBy := None;
       VideoRow.moderatedAt := None;
       VideoRow.positivityScore := Some 95 |} in
  let db :=
    {| videos := {[ 1 := popular ]};
       posts := ∅;
       moderationQueue := [];
       moderationQueue_seq := 1;
       auditLog := [];
       auditLog_seq := 1;
       contentTrending := [];
       contentTrending_seq := 1 |} in
  Trending.w_trendingScore (Trending.videoWork (num := Q) Water (1, popular))
  = "129600000.00"
  ∧ Trending.calculateTrendingScores (num := Q) Trending.numericOverflow 5 db
    = (db, Throws (ErrorObject "numeric field overflow")).
Proof. split; vm_compute; reflexivity. Qed.

(** ** Moderation workflow: audit trail, frames and composition *)

Section ModerationTrail.
Import Moderation.
Variable numberToString : JsNumber → string.
Variable integerRefused : JsNumber → Thrown.


(** X1.  A run of an orchestrator reports success exactly when it wrote
    its audit row.  A run that reports success has appended exactly one
    audit row: for this content item, by the uploader, with the action
    publish when the item was auto-approved and moderate otherwise.  Every
    other run, whether it reports failure or is rejected, a run whose
    audit [insert] is rejected included, has appended none. *)
Theorem X1_pipeline_audit_trail
    (env : Rejections) (now contentId : Z) (actorId : string)
    (analysing : Completion AIAnalysisResult)
    (screening : Completion SafetyAssessment)
    (scoring : Completion JsNumber) (db : DB) :
  let audited (r : DB * Completion Outcome) (contentType : ContentType) : Prop :=
    match r.2 with
    | Returns {| success := true; status := moderationStatus |} =>
        ∃ row, auditLog r.1 = (auditLog db ++ [row])%list
          ∧ AuditRow.action row
            = (if decide (moderationStatus = auto_approved)
               then act_publish else act_moderate)
          ∧ AuditRow.actorId row = Some actorId
          ∧ AuditRow.contentId row = Some contentId
          ∧ AuditRow.contentType row = Some contentType
          ∧ AuditRow.timestamp row = now
    | _ => auditLog r.1 = auditLog db
    end in
  audited (processVideoUpload numberToString integerRefused env now contentId actorId
             analysing screening scoring db) video
  ∧ audited (processPostCreation integerRefused env now contentId actorId
               analysing screening scoring db) post
  ∧ (auditInsert env ≠ None →
     auditLog (processVideoUpload numberToString integerRefused env now contentId actorId
                 analysing screening scoring db).1 = auditLog db
     ∧ auditLog (processPostCreation integerRefused env now contentId actorId
                   analysing screening scoring db).1 = auditLog db).
Proof.
  cbv zeta. run_unfold. split_and!.
  - destruct analysing as [analysis|]; [destruct screening as [safety|];
      [destruct scoring as [positivityScore|]; [destruct (isSafe safety); cbn [negb];
        [destruct (js_lt _ _)|]|]|]|].
    all: destruct (queueInsert env), (contentUpdate env), (auditInsert env),
           (catchUpdate env), (catchInsert env); try destruct (asInteger positivityScore);
         cbn; try done.
    all: eexists; split; [done|]; by split_and!.
  - destruct analysing as [analysis|]; [destruct screening as [safety|];
      [destruct scoring as [positivityScore|]; [destruct (isSafe safety); cbn [negb]|]|]|].
    all: destruct (queueInsert env), (contentUpdate env), (auditInsert env),
           (catchUpdate env); try destruct (asInteger positivityScore);
         cbn; try done.
    all: eexists; split; [done|]; by split_and!.
  - intros Haudit. destruct (auditInsert env) as [e|]; [clear Haudit|done]. split.
    + destruct analysing as [analysis|]; [destruct screening as [safety|];
        [destruct scoring as [positivityScore|]; [destruct (isSafe safety); cbn [negb];
          [destruct (js_lt _ _)|]|]|]|].
      all: destruct (queueInsert env), (contentUpdate env),
             (catchUpdate env), (catchInsert env); try destruct (asInteger positivityScore);
           cbn; done.
    + destruct analysing as [analysis|]; [destruct screening as [safety|];
        [destruct scoring as [positivityScore|]; [destruct (isSafe safety); cbn [negb]|]|]|].
      all: destruct (queueInsert env), (contentUpdate env),
             (catchUpdate env); try destruct (asInteger positivityScore);
           cbn; done.
Qed.

(** X2.  The three operations only ever add to the audit log and the
    pipeline only ever adds to the moderation queue, whatever is rejected:
    the rows that were there stay, unchanged and in place.  A resolution
    neither adds nor removes queue rows, and keeps the id, the content id,
    the content type, the reason, the priority and the creation time of
    every queue row.  None of the three touches the trending table. *)
Theorem X2_audit_and_queue_are_append_only
    (env : Rejections) (now contentId : Z) (actorId : string)
    (analysing : Completion AIAnalysisResult)
    (screening : Completion SafetyAssessment)
    (scoring : Completion JsNumber)
    (contentType : ContentType) (decision : ModerationDecision)
    (notes : option string) (db : DB) :
  (let db' := (processVideoUpload numberToString integerRefused env now contentId actorId
                 analysing screening scoring db).1 in
   auditLog db `prefix_of` auditLog db'
   ∧ moderationQueue db `prefix_of` moderationQueue db'
   ∧ contentTrending db' = contentTrending db)
  ∧ (let db' := (processPostCreation integerRefused env now contentId actorId
                   analysing screening scoring db).1 in
     auditLog db `prefix_of` auditLog db'
     ∧ moderationQueue db `prefix_of` moderationQueue db'
     ∧ contentTrending db' = contentTrending db)
  ∧ (let db' := resolveModeration now contentId contentType decision notes actorId db in
     auditLog db `prefix_of` auditLog db'
     ∧ length (moderationQueue db') = length (moderationQueue db)
     ∧ (∀ (i : nat) e, moderationQueue db !! i = Some e →
          ∃ e', moderationQueue db' !! i = Some e'
            ∧ QueueRow.id e' = QueueRow.id e
            ∧ QueueRow.contentId e' = QueueRow.contentId e
            ∧ QueueRow.contentType e' = QueueRow.contentType e
            ∧ QueueRow.aiFlaggedReason e' = QueueRow.aiFlaggedReason e
            ∧ QueueRow.priority e' = QueueRow.priority e
            ∧ QueueRow.createdAt e' = QueueRow.createdAt e)
     ∧ contentTrending db' = contentTrending db).
Proof.
  split; [|split].
  - destruct (processVideoUpload_frame numberToString integerRefused env now contentId
                actorId analysing screening scoring db)
      as (_ & Htrending & Hqueue & Haudit & _).
    by split_and!.
  - destruct (processPostCreation_frame integerRefused env now contentId
                actorId analysing screening scoring db)
      as (_ & Htrending & Hqueue & Haudit & _).
    by split_and!.
  - cbv zeta. split_and!.
    + rewrite resolveModeration_auditLog. by apply prefix_app_r.
    + rewrite resolveModeration_queue. cbn. apply length_fmap.
    + intros i e He. rewrite resolveModeration_queue.
      rewrite (resolveQueue_lookup _ _ _ _ He). eexists. split; [done|].
      by case_decide.
    + unfold resolveModeration. by destruct (decide (contentType = video)).
Qed.





End ModerationTrail.

(** The audit [insert] of the upload of video 7 is rejected: the [catch]
    runs, the call reports failure and no audit row is written. *)
Lemma X1_pipeline_audit_trail_witness :
  let env :=
    {| Moderation.queueInsert := None;
       Moderation.contentUpdate := None;
       Moderation.auditInsert := Some (ErrorObject "connection terminated");
       Moderation.catchUpdate := None;
       Moderation.catchInsert := None |} in
  let r := Moderation.processVideoUpload Sample.printNumber Sample.integerRefused env
             50 7 "user-1"
             (Returns Sample.analysis) (Returns Sample.safe) (Returns (JsFinite 80))
             Sample.db in
  r.2 = Returns {| Moderation.success := false; Moderation.status := requires_review |}
  ∧ auditLog r.1 = auditLog Sample.db
  ∧ QueueRow.aiFlaggedReason <$> Moderation.enqueued Sample.db r.1
    = [Some "Low categorization confidence: 0.30";
       Some "Processing error: connection terminated"].
Proof.
  intros env r.
  destruct (X1_pipeline_audit_trail Sample.printNumber Sample.integerRefused env
              50 7 "user-1"
              (Returns Sample.analysis) (Returns Sample.safe) (Returns (JsFinite 80))
              Sample.db) as (_ & _ & Hrejected).
  destruct Hrejected as [Hvideo _]; [discriminate|].
  split; [reflexivity|]. split; [exact Hvideo | reflexivity].
Defined.

(** Resolving video 7 keeps the three queue rows and their columns. *)
Lemma X2_audit_and_queue_are_append_only_witness :
  let db' := Moderation.resolveModeration 100 7 video decision_approved None
               "moderator-1" Sample.db in
  length (moderationQueue db') = 3%nat
  ∧ ∃ e', moderationQueue db' !! 0%nat = Some e'
      ∧ QueueRow.id e' = 1
      ∧ QueueRow.priority e' = high
      ∧ QueueRow.aiFlaggedReason e' = Some "harassment".
Proof.
  destruct (X2_audit_and_queue_are_append_only Sample.printNumber Sample.integerRefused
              Moderation.noRejection 100 7 "moderator-1"
              (Returns Sample.analysis) (Returns Sample.safe) (Returns (JsFinite 80))
              video decision_approved None Sample.db)
    as (_ & _ & _ & Hlength & Hrows & _).
  split; [exact Hlength|].
  destruct (Hrows 0%nat (Sample.queued 1 7 video) eq_refl)
    as (e' & He' & Hid & _ & _ & Hreason & Hpriority & _).
  exists e'. split; [exact He'|]. split; [exact Hid|]. split; [exact Hpriority | exact Hreason].
Defined.



(** ** Screening, scoring and ranking: invariants and composition *)

Section ScreeningFacts.
Import Safety Positivity Ranking Moderation.

Lemma riskOf_cases isFlagged cats :
  riskOf isFlagged cats ≠ risk_low
  ∧ (isFlagged = false → riskOf isFlagged cats = risk_none)
  ∧ (riskOf isFlagged cats = risk_high → isFlagged = true ∧ cats ≠ [])
  ∧ (riskOf isFlagged cats = risk_medium → isFlagged = true ∧ cats ≠ [])
  ∧ (isFlagged = true → riskOf isFlagged cats = risk_none → cats = []).
Proof.
  unfold riskOf. destruct isFlagged; [|by split_and!].
  destruct cats as [|c cats].
  - cbn. by split_and!.
  - destruct (existsb _ (c :: cats)); [by split_and!|].
    cbn [length]. repeat case_bool_decide; try lia; by split_and!.
Qed.

(** X5.  Whatever the configuration and whatever the service does, the
    screener returns an assessment in which safe content has risk none,
    risk low never occurs, and risk medium or high comes with unsafe content
    and at least one flag.  Unsafe content with risk none is content the
    service flagged without naming a category. *)
Theorem X5_assessment_is_coherent
    (key : option string) (net : Fetch) (content : string) (contentType : ContentType) :
  ∃ a, checkContentSafety key net content contentType = Returns a
    ∧ (isSafe a = true → riskLevel a = risk_none)
    ∧ riskLevel a ≠ risk_low
    ∧ (riskLevel a = risk_high ∨ riskLevel a = risk_medium →
       isSafe a = false ∧ flags a ≠ [])
    ∧ (isSafe a = false → riskLevel a = risk_none → flags a = []).
Proof.
  unfold checkContentSafety. destruct (configured key); cbn.
  2:{ eexists. split; [done|]. cbn.
      split_and!; first [done | by intros [?|?] | by intros ? ?]. }
  destruct net as [e|[] status [| |[result|]]]; cbn;
    (eexists; split; [done|]); cbn;
    try (split_and!; first [done | by intros [?|?] | by intros ? ?]).
  destruct (riskOf_cases (flagged result) (flaggedCategoriesOf result))
    as (Hlow & Hunflagged & Hhigh & Hmedium & Hnone).
  split_and!.
  - intros Hsafe%negb_true_iff. by apply Hunflagged.
  - done.
  - intros [H|H]; [apply Hhigh in H | apply Hmedium in H];
      destruct H as [-> ?]; done.
  - intros Hunsafe%negb_false_iff. by apply Hnone.
Qed.

Lemma X5_assessment_is_coherent_witness :
  ∃ a, checkContentSafety (Some "sk-key")
         (FetchResponse true 200
            (BodyResults (Some {| flagged := true; categories := [("hate", false)] |})))
         "text" post = Returns a
    ∧ flags a = [].
Proof.
  destruct (X5_assessment_is_coherent (Some "sk-key")
              (FetchResponse true 200
                 (BodyResults (Some {| flagged := true; categories := [("hate", false)] |})))
              "text" post) as (a & Ha & _ & _ & _ & Hnone).
  exists a. split; [exact Ha|].
  injection Ha as <-. apply Hnone; reflexivity.
Defined.

(** X6.  What the screener's fallbacks mean for a post whose other stages
    return and whose statements are not rejected.  Without a configured
    service the post is auto-approved and nothing is queued.  With a
    configured service that fails, the post goes to review, never to
    rejection, with one pending queue row of priority high whose reason is
    "api_error".  In every run, a post is rejected only when the service
    answered, OK and readable, with a flagged result. *)
Theorem X6_screening_fallbacks_decide_posts
    (integerRefused : JsNumber → Thrown) (env : Rejections)
    (key : option string) (net : Fetch) (content : string)
    (now postId : Z) (actorId : string)
    (analysis : AIAnalysisResult) (positivityScore : JsNumber) (db : DB) :
  let r := processPostCreation integerRefused env now postId actorId (Returns analysis)
             (checkContentSafety key net content post) (Returns positivityScore) db in
  (configured key = false → accepted env positivityScore →
     r.2 = Returns {| success := true; status := auto_approved |}
     ∧ enqueued db r.1 = [])
  ∧ (configured key = true → failing net → accepted env positivityScore →
       r.2 = Returns {| success := true; status := requires_review |}
       ∧ ∃ row, enqueued db r.1 = [row]
           ∧ QueueRow.contentId row = postId
           ∧ QueueRow.contentType row = post
           ∧ QueueRow.priority row = high
           ∧ QueueRow.status row = pending
           ∧ QueueRow.aiFlaggedReason row = Some "api_error")
  ∧ (∀ o, r.2 = Returns o → status o = rejected →
       configured key = true
       ∧ ∃ code result, net = FetchResponse true code (BodyResults (Some result))
           ∧ flagged result = true).
Proof.
  intros r. subst r. unfold checkContentSafety. split_and!.
  - intros -> (Hq & Hu & Ha & score & Hscore). run_unfold.
    rewrite Hu, Ha, Hscore. cbn. unfold enqueued. cbn. by rewrite drop_all.
  - intros -> Hfail (Hq & Hu & Ha & score & Hscore). cbn [negb].
    assert (Hnet : match checkContentSafety_try net with
                   | Returns a => Returns a
                   | Throws _ => Returns api_error
                   end = Returns api_error).
    { destruct net as [e|ok code body]; cbn in *; [done|].
      destruct Hfail as [->|[->| ->]]; [done| |]; by destruct ok. }
    rewrite Hnet. run_unfold. rewrite Hq, Hu, Ha, Hscore. cbn.
    split; [done|]. unfold enqueued. cbn.
    rewrite drop_app_length. eexists. by split_and!.
  - intros o. destruct (configured key); cbn [negb].
    2:{ run_unfold. cbn.
        destruct (contentUpdate env), (asInteger positivityScore), (auditInsert env),
          (catchUpdate env); cbn; intros [= <-]; done. }
    intros Hreturns Hrejected. split; [done|].
    assert (Hunsafe : ∃ a, checkContentSafety_try net = Returns a
                        ∧ isSafe a = false ∧ riskLevel a = risk_high).
    { revert Hreturns Hrejected. run_unfold.
      destruct (checkContentSafety_try net) as [a|e]; cbn.
      - destruct (isSafe a) eqn:Hsafe; cbn.
        + destruct (contentUpdate env), (asInteger positivityScore), (auditInsert env),
            (catchUpdate env); cbn; intros [= <-]; done.
        + destruct (decide (riskLevel a = risk_high)) as [Hhigh|Hlow].
          * intros _ _. by exists a.
          * destruct (queueInsert env), (contentUpdate env), (asInteger positivityScore),
              (auditInsert env), (catchUpdate env); cbn; intros [= <-]; done.
      - destruct (queueInsert env), (contentUpdate env), (asInteger positivityScore),
          (auditInsert env), (catchUpdate env); cbn; intros [= <-]; done. }
    destruct Hunsafe as (a & Ha & Hsafe & Hhigh).
    destruct net as [e|[] code [| |[result|]]]; cbn in Ha; simplify_eq/=.
    exists code, result. split; [done|].
    by destruct (flagged result).
Qed.

Lemma X6_screening_fallbacks_decide_posts_witness :
  let r := processPostCreation Sample.integerRefused noRejection 50 7 "user-2"
             (Returns Sample.analysis)
             (checkContentSafety (Some "sk-key") (FetchRejected OtherValue)
                "I hate everything, it's hopeless" post)
             (Returns (JsFinite 39)) Sample.db in
  r.2 = Returns {| success := true; status := requires_review |}
  ∧ ∃ row, enqueued Sample.db r.1 = [row]
      ∧ QueueRow.aiFlaggedReason row = Some "api_error".
Proof.
  destruct (X6_screening_fallbacks_decide_posts Sample.integerRefused noRejection
              (Some "sk-key") (FetchRejected OtherValue)
              "I hate everything, it's hopeless" 50 7 "user-2" Sample.analysis
              (JsFinite 39) Sample.db)
    as (_ & Hfailing & _).
  destruct Hfailing as (Hstatus & row & Hrow & _ & _ & _ & _ & Hreason).
  - reflexivity.
  - exact I.
  - split_and!; [reflexivity..|]. by exists 39.
  - split; [exact Hstatus|]. exists row. split; [exact Hrow | exact Hreason].
Defined.

(** [Math.min(hi, Math.max(lo, n))] for [lo ≤ hi]: [NaN] stays, every
    other number is brought into the range. *)
Lemma clamp_range (lo hi : Q) (n : JsNumber) :
  (lo <= hi)%Q →
  let clamped := Double.min (JsFinite hi) (Double.max (JsFinite lo) n) in
  (n = JsNaN ∧ clamped = JsNaN)
  ∨ (n ≠ JsNaN ∧ ∃ q, clamped = JsFinite q ∧ (lo <= q <= hi)%Q).
Proof.
  intros Hle. cbv zeta. destruct n as [|[]|q]; cbn.
  - by left.
  - right. split; [done|]. destruct (Qlt_le_dec lo hi); eexists; (split; [done|]); lra.
  - right. split; [done|]. eexists. split; [done|]. lra.
  - right. split; [done|]. destruct (Qlt_le_dec lo q); cbn.
    + destruct (Qlt_le_dec q hi); eexists; (split; [done|]); lra.
    + destruct (Qlt_le_dec lo hi); eexists; (split; [done|]); lra.
Qed.

(** X7.  The positivity score is [NaN] or a number between 0 and 100.
    Without a configured scorer it is the fallback's, and so it is when the
    call fails, when the reply cannot be parsed and when the parsed reply
    is [null].  For a parsed reply the score is [Math.min(100, Math.max(0,
    parsed.score || 50))]: a missing or falsy [score] (0, [NaN], the empty
    string, [false], [null]) becomes the neutral 50, so that the scorer
    cannot report 0; a number other than 0 is brought into the range and
    not rounded, so that 72.5 stays 72.5; a string is read as a number, so
    that a string which denotes none gives [NaN]. *)
Theorem X7_positivity_score_range
    (stringToNumber : string → JsNumber) (toPrimitive : Json → Completion string)
    (key : option string) (net : Reply) (content : string) :
  let score := analyzePositivity stringToNumber toPrimitive key net content in
  let fallback := JsFinite (inject_Z (fallbackPositivityScore content)) in
  let clamp (n : JsNumber) : JsNumber :=
    Double.min (JsFinite 100) (Double.max (JsFinite 0) n) in
  (score = JsNaN ∨ ∃ q, score = JsFinite q ∧ (0 <= q <= 100)%Q)
  ∧ (configured key = false → score = fallback)
  ∧ (configured key = true →
       ((∀ parsed, net ≠ ReplyParsed parsed) → score = fallback)
       ∧ (net = ReplyParsed JNull → score = fallback)
       ∧ (∀ parsed member, net = ReplyParsed parsed →
            getMember "score" parsed = Returns member →
            (truthy member = false → score = JsFinite 50)
            ∧ (∀ n, member = Some (JNumber n) → Double.isFalsy n = false →
                 score = clamp n)
            ∧ (∀ s, member = Some (JString s) → s ≠ "" →
                 score = clamp (stringToNumber s))
            ∧ (member = Some (JBool true) → score = JsFinite 1)))
  ∧ (clamp JsNaN = JsNaN
     ∧ clamp (JsInfinity false) = JsFinite 100
     ∧ clamp (JsInfinity true) = JsFinite 0
     ∧ (∀ q, (0 < q < 100)%Q → clamp (JsFinite q) = JsFinite q)
     ∧ (∀ q, (q < 0)%Q → clamp (JsFinite q) = JsFinite 0)
     ∧ (∀ q, (100 < q)%Q → clamp (JsFinite q) = JsFinite 100)).
Proof.
  intros score fallback clamp.
  assert (Hfallback : ∃ q, fallback = JsFinite q ∧ (0 <= q <= 100)%Q).
  { eexists. split; [done|].
    pose proof (fallbackPositivityScore_range content) as [Hlo Hhi].
    split; [change 0%Q with (inject_Z 0) | change 100%Q with (inject_Z 100)];
      by rewrite <- Zle_Qle. }
  split; [|split; [|split]].
  - subst score. unfold analyzePositivity. fold fallback.
    destruct (negb (configured key)); [by right|].
    destruct net as [| | | |parsed]; try by right.
    unfold analyzePositivity_try, clamped.
    destruct (getMember "score" parsed) as [member|]; cbn [bindC]; [|by right].
    destruct (toNumber _ _ _) as [n|]; cbn [bindC]; [|by right].
    destruct (clamp_range 0 100 n) as [[_ ->]|[_ Hq]]; [lra | by left | by right].
  - intros Hkey. subst score. unfold analyzePositivity. by rewrite Hkey.
  - intros Hkey. subst score. unfold analyzePositivity. rewrite Hkey. cbn [negb].
    fold fallback. split_and!.
    + intros Hnot. destruct net; try done. by destruct (Hnot parsed).
    + by intros ->.
    + intros parsed member -> Hmember.
      unfold analyzePositivity_try, clamped. rewrite Hmember. cbn [bindC].
      split_and!.
      * intros Hfalsy. unfold js_or. rewrite Hfalsy.
        by destruct member.
      * intros n -> Hn. unfold js_or. cbn. by rewrite Hn.
      * intros s -> Hs. unfold js_or. cbn. by rewrite bool_decide_eq_false_2.
      * by intros ->.
  - subst clamp. cbn. split_and!; try done.
    + intros q [Hlo Hhi]. destruct (Qlt_le_dec 0 q); [cbn|lra].
      destruct (Qlt_le_dec q 100); [done|lra].
    + intros q Hq. destruct (Qlt_le_dec 0 q); [lra|done].
    + intros q Hq. destruct (Qlt_le_dec 0 q); [cbn|lra].
      destruct (Qlt_le_dec q 100); [lra|done].
Qed.

(** A reply of 0 becomes 50, a reply of 250 becomes 100, a reply of 72.5
    stays 72.5, and the reply "abc", which denotes no number, gives
    [NaN]. *)
Lemma X7_positivity_score_range_witness :
  let reply (value : Json) := ReplyParsed (JObject [("score", value)]) in
  let score (value : Json) :=
    analyzePositivity (λ _, JsNaN) (λ _, Returns "") (Some "sk-key") (reply value)
      "anything" in
  score (JNumber (JsFinite 0)) = JsFinite 50
  ∧ score (JNumber (JsFinite 250)) = JsFinite 100
  ∧ score (JNumber (JsFinite (145 # 2))) = JsFinite (145 # 2)
  ∧ score (JString "abc") = JsNaN.
Proof.
  intros reply score.
  assert (Hof : ∀ value,
            (truthy (Some value) = false → score value = JsFinite 50)
            ∧ (∀ n, Some value = Some (JNumber n) → Double.isFalsy n = false →
                 score value = Double.min (JsFinite 100) (Double.max (JsFinite 0) n))
            ∧ (∀ s, Some value = Some (JString s) → s ≠ "" →
                 score value
                 = Double.min (JsFinite 100) (Double.max (JsFinite 0) JsNaN))).
  { intros value.
    destruct (X7_positivity_score_range (λ _, JsNaN) (λ _, Returns "") (Some "sk-key")
                (reply value) "anything") as (_ & _ & Hkey & _).
    destruct Hkey as (_ & _ & Hparsed); [reflexivity|].
    destruct (Hparsed _ (Some value) eq_refl eq_refl) as (H0 & Hn & Hs & _).
    split; [exact H0|]. split; [exact Hn | exact Hs]. }
  split; [|split; [|split]].
  - apply (Hof (JNumber (JsFinite 0))). reflexivity.
  - destruct (Hof (JNumber (JsFinite 250))) as (_ & Hn & _).
    rewrite (Hn _ eq_refl eq_refl). reflexivity.
  - destruct (Hof (JNumber (JsFinite (145 # 2)))) as (_ & Hn & _).
    rewrite (Hn _ eq_refl eq_refl). reflexivity.
  - destruct (Hof (JString "abc")) as (_ & _ & Hs).
    rewrite (Hs _ eq_refl); [reflexivity | discriminate].
Defined.

(** X8.  How the fallback scorer feeds the ranking, for an ASCII text.  A
    text in which at most two negative keywords occur is never suppressed;
    a suppressed text has at least three; a featured text has at least
    eight positive keywords; a text with no keyword at all scores 50 and is
    standard. *)
Theorem X8_fallback_score_and_visibility (content : string) :
  isAscii content = true →
  let text := toLowerCase content in
  let positive := length (hits text positiveWords) in
  let negative := length (hits text negativeWords) in
  let tier := getVisibilityTier (Some (fallbackPositivityScore content)) in
  fallbackPositivityScore content
  = Z.min 100 (Z.max 0 (50 + 5 * Z.of_nat positive - 8 * Z.of_nat negative))
  ∧ ((negative ≤ 2)%nat → tier ≠ suppressed)
  ∧ (tier = suppressed → (3 ≤ negative)%nat)
  ∧ (tier = featured → (8 ≤ positive)%nat)
  ∧ (positive = 0%nat → negative = 0%nat →
     fallbackPositivityScore content = 50 ∧ tier = standard).
Proof.
  intros _ text positive negative tier. subst tier.
  rewrite fallbackPositivityScore_rule. fold text. fold positive. fold negative.
  unfold getVisibilityTier. split_and!.
  - done.
  - intros Hneg. repeat case_decide; try done; lia.
  - repeat case_decide; try done; lia.
  - repeat case_decide; try done; lia.
  - intros -> ->. cbn. done.
Qed.

Lemma X8_fallback_score_and_visibility_witness :
  getVisibilityTier (Some (fallbackPositivityScore "I hate everything, it's hopeless"))
  ≠ suppressed.
Proof.
  destruct (X8_fallback_score_and_visibility "I hate everything, it's hopeless")
    as (_ & Hkept & _); [reflexivity|].
  apply Hkept. vm_compute. lia.
Defined.

End ScreeningFacts.

(** ** Trending calculator: what a run leaves alone *)

Section TrendingFrameFacts.
Import Trending TrendingFrame.
Context {num : Type} `{NumberOps num}.
Variable numericRefused : string → option Thrown.

Implicit Types (db : DB) (w : Work) (r : TrendingRow.t).

Lemma updateTrendingRows_fixedColumns now id w (rows : list TrendingRow.t) :
  fixedColumns <$> updateTrendingRows now id w rows = fixedColumns <$> rows.
Proof.
  unfold updateTrendingRows. rewrite <- list_fmap_compose.
  apply list_fmap_ext. intros i r _. cbn. by case_decide.
Qed.

Lemma upsertTrending_fixedColumns now db w :
  fixedColumns <$> contentTrending db
  `prefix_of` fixedColumns <$> contentTrending (upsertTrending now db w).
Proof.
  destruct (filter (hasKey (w_contentId w) (w_contentType w)) (contentTrending db))
    as [|first rest] eqn:Hsel.
  - destruct (upsertTrending_missing now db w Hsel) as [-> _].
    rewrite fmap_app. by apply prefix_app_r.
  - destruct (upsertTrending_found now db w _ _ Hsel) as [-> _].
    by rewrite updateTrendingRows_fixedColumns.
Qed.

Lemma upsertAll_fixedColumns now db ws :
  fixedColumns <$> contentTrending db
  `prefix_of` fixedColumns <$> contentTrending (upsertAll now db ws).
Proof.
  revert db. induction ws as [|w ws IH]; intros db; [done|].
  rewrite upsertAll_cons. etrans; [apply (upsertTrending_fixedColumns now db w)|].
  apply IH.
Qed.

Lemma upsertAll_frame now db ws :
  moderationQueue (upsertAll now db ws) = moderationQueue db
  ∧ auditLog (upsertAll now db ws) = auditLog db.
Proof.
  revert db. induction ws as [|w ws IH]; intros db; [done|].
  rewrite upsertAll_cons. destruct (IH (upsertTrending now db w)) as [-> ->].
  by destruct (upsertTrending_other_tables now db w) as (_ & _ & -> & ->).
Qed.

(** X9.  A run of the trending computation, whether it returns or the
    database ends it by refusing a score, never removes a trending row,
    never moves one, and never changes the identity, the content id, the
    content type or the element category of one: as far as these columns
    go, the table after the run starts with the table before it.  A row
    therefore keeps the element under which it was first inserted, even when
    its content was since re-categorised.  The run touches no other
    table. *)
Theorem X9_trending_run_keeps_rows (now : Z) (db : DB) :
  let db' := (calculateTrendingScores numericRefused now db).1 in
  fixedColumns <$> contentTrending db `prefix_of` fixedColumns <$> contentTrending db'
  ∧ (length (contentTrending db) ≤ length (contentTrending db'))%nat
  ∧ videos db' = videos db ∧ posts db' = posts db
  ∧ moderationQueue db' = moderationQueue db ∧ auditLog db' = auditLog db.
Proof.
  intros db'. subst db'. rewrite calculateTrendingScores_upsertAll. cbn [fst].
  pose proof (upsertAll_fixedColumns now db (untilRefused numericRefused (workOf db)))
    as Hprefix.
  split_and!;
    [done | | apply upsertAll_other_tables | apply upsertAll_other_tables
    | apply upsertAll_frame | apply upsertAll_frame].
  apply prefix_length in Hprefix. by rewrite !length_fmap in Hprefix.
Qed.

(** An upsert for another key leaves a row where and as it is. *)
Lemma upsertTrending_lookup_other now db w (i : nat) r :
  primaryKeyHolds db → contentTrending db !! i = Some r → keyOf r ≠ workKey w →
  contentTrending (upsertTrending now db w) !! i = Some r.
Proof.
  intros [Hids _] Hr Hkey.
  destruct (filter (hasKey (w_contentId w) (w_contentType w)) (contentTrending db))
    as [|first rest] eqn:Hsel.
  - destruct (upsertTrending_missing now db w Hsel) as [-> _].
    by apply lookup_app_l_Some.
  - destruct (upsertTrending_found now db w _ _ Hsel) as [-> _].
    unfold updateTrendingRows. rewrite list_lookup_fmap, Hr. cbn.
    rewrite decide_False; [done|]. intros Hid.
    assert (Hfirst : first ∈ filter (hasKey (w_contentId w) (w_contentType w))
                               (contentTrending db)) by (rewrite Hsel; left).
    apply list_elem_of_filter in Hfirst as [[Hcid Htype] Hfirst].
    assert (r = first) as ->.
    { eapply same_id_same_row; [done| |done|done]. by eapply list_elem_of_lookup_2. }
    apply Hkey. unfold keyOf, workKey. by rewrite Hcid, Htype.
Qed.

Lemma upsertAll_lookup_other now db ws (i : nat) r :
  primaryKeyHolds db → contentTrending db !! i = Some r →
  keyOf r ∉ workKey <$> ws →
  contentTrending (upsertAll now db ws) !! i = Some r.
Proof.
  revert db. induction ws as [|w ws IH]; intros db Hpk Hr Hkey; [done|].
  rewrite upsertAll_cons. rewrite fmap_cons, not_elem_of_cons in Hkey.
  destruct Hkey as [Hw Hws]. apply IH; [|by apply upsertTrending_lookup_other|done].
  by apply upsertTrending_primaryKey.
Qed.

(** The work of a run is for published content only. *)
Lemma workOf_published db w :
  w ∈ workOf db →
  match w_contentType w with
  | video => ∃ row, videos db !! w_contentId w = Some row
                    ∧ VideoRow.uploadStatus row = Published
  | post => ∃ row, posts db !! w_contentId w = Some row
                   ∧ PostRow.uploadStatus row = Some Published
  end.
Proof.
  unfold workOf. intros (element & Hw & _)%list_elem_of_bind.
  unfold elementWork in Hw.
  apply elem_of_app in Hw as [([id row] & -> & Hrow)%list_elem_of_fmap
                             |([id row] & -> & Hrow)%list_elem_of_fmap]; cbn.
  - apply elem_of_publishedVideos in Hrow as (Hrow & _ & Hpub). by exists row.
  - apply elem_of_publishedPosts in Hrow as (Hrow & _ & Hpub). by exists row.
Qed.

(** X10.  On a trending table whose primary key holds, a run, whether it
    returns or the database ends it by refusing a score, leaves the
    trending row of content that is not published (no content row, or a
    content row that is under review or flagged) exactly as it is and where
    it is: the row is not refreshed and not removed, its last score stays
    in the table. *)
Theorem X10_trending_rows_of_unpublished_content_stay
    (now : Z) (db : DB) (i : nat) (r : TrendingRow.t) :
  primaryKeyHolds db →
  contentTrending db !! i = Some r →
  notPublished db r →
  contentTrending (calculateTrendingScores numericRefused now db).1 !! i = Some r.
Proof.
  intros Hpk Hr Hnot. rewrite calculateTrendingScores_upsertAll. cbn [fst].
  apply upsertAll_lookup_other; [done..|].
  intros (w & Hkey & Hw)%list_elem_of_fmap.
  assert (Hin : w ∈ workOf db).
  { destruct (untilRefused_prefix numericRefused (workOf db)) as [rest Hrest].
    rewrite Hrest. apply elem_of_app. by left. }
  clear Hw. rename Hin into Hw.
  apply workOf_published in Hw. unfold keyOf, workKey in Hkey.
  injection Hkey as Hcid Htype. unfold notPublished in Hnot.
  rewrite Htype, Hcid in Hnot.
  destruct (w_contentType w); destruct Hw as (row & Hrow & Hpub); by eapply Hnot.
Qed.

End TrendingFrameFacts.

(** Video 7 is under review; the run leaves the trending row it had from the
    time it was published. *)
Lemma X10_trending_rows_of_unpublished_content_stay_witness :
  contentTrending
    (Trending.calculateTrendingScores (num := Q) Trending.numericOverflow 400
       SampleMore.withStaleTrending).1
    !! 0%nat
  = Some SampleMore.trendingOfVideo7.
Proof.
  apply (X10_trending_rows_of_unpublished_content_stay (num := Q)
           Trending.numericOverflow 400
           SampleMore.withStaleTrending 0 SampleMore.trendingOfVideo7).
  - split.
    + apply NoDup_singleton.
    + intros r Hr. apply list_elem_of_singleton in Hr. subst r. cbn. lia.
  - reflexivity.
  - intros row Hrow. cbn in Hrow. rewrite lookup_singleton_eq in Hrow.
    injection Hrow as <-. discriminate.
Defined.

(** ** Classifier *)

Section AnalysisFacts.
Import Analysis.

(** The loop keeps the first entry with the largest score, if one scores
    above the start. *)
Lemma foldl_better_spec text entries best :
  let r := foldl (better text) best entries in
  (best.2 ≤ r.2)%nat
  ∧ (∀ entry, entry ∈ entries → (scoreOf text entry.2 ≤ r.2)%nat)
  ∧ (r = best
     ∨ ∃ (i : nat) entry, entries !! i = Some entry
         ∧ r = (entry.1, scoreOf text entry.2)
         ∧ (best.2 < r.2)%nat
         ∧ ∀ (j : nat) entry', (j < i)%nat → entries !! j = Some entry' →
             (scoreOf text entry'.2 < r.2)%nat).
Proof.
  revert best. induction entries as [|x rest IH]; intros best; cbn.
  - split; [done|]. split; [by intros ? ?%elem_of_nil | by left].
  - destruct (IH (better text best x)) as (Hle & Hall & Hwhich).
    assert (Hstep : (best.2 ≤ (better text best x).2)%nat
                    ∧ (scoreOf text x.2 ≤ (better text best x).2)%nat).
    { unfold better. case_decide; cbn; lia. }
    destruct Hstep as [Hbest Hx]. split; [lia|]. split.
    + intros entry [->|Hin]%elem_of_cons; [lia | by apply Hall].
    + destruct Hwhich as [Hsame|(i & entry & Hi & Hr & Hlt & Hearlier)].
      * rewrite Hsame. unfold better. case_decide as Hbetter; [|by left].
        right. exists 0%nat, x. cbn. split_and!; [done|done|done|].
        intros j entry' Hj. lia.
      * right. exists (S i), entry. cbn. split_and!; [done|done|lia|].
        intros [|j] entry' Hj Hentry'; cbn in Hentry'.
        -- injection Hentry' as <-. lia.
        -- apply (Hearlier j); [lia | done].
Qed.

Lemma scoreOf_le_length text words : (scoreOf text words ≤ length words)%nat.
Proof. apply length_filter. Qed.

Lemma bestOf_le_13 text : ((bestOf text).2 ≤ 13)%nat.
Proof.
  destruct (foldl_better_spec text keywords (Spiritual, 0%nat))
    as (_ & _ & [Hstart|(i & entry & Hi & Hr & _)]); fold (bestOf text) in *.
  - rewrite Hstart. cbn. lia.
  - rewrite Hr. cbn. etrans; [apply scoreOf_le_length|].
    apply list_elem_of_lookup_2 in Hi. unfold keywords in Hi.
    repeat (apply elem_of_cons in Hi as [->|Hi]; [cbn; lia|]).
    by apply elem_of_nil in Hi.
Qed.

(** X11.  For an ASCII title and description, the keyword classifier
    picks the element whose keyword list has the most keywords occurring in
    the lower-cased text, and of several such the first in the order Water,
    Fire, Earth, Air, Spiritual; when no keyword of any element occurs, it
    takes the element the random source draws. *)
Theorem X11_fallback_classifier_choice
    (drawn : ElementCategory) (title : string) (description : option string) :
  isAscii title = true → isAscii (default "" description) = true →
  let text := toLowerCase (title +:+ " " +:+ default "" description) in
  let count (words : list string) : nat :=
    length (filter (λ w, includes text w = true) words) in
  let order (element : ElementCategory) : nat :=
    match element with
    | Water => 1%nat
    | Fire => 2%nat
    | Earth => 3%nat
    | Air => 4%nat
    | Spiritual => 5%nat
    end in
  let chosen := elementType (fallbackAnalysis drawn title description) in
  keywords.*1 = [Water; Fire; Earth; Air; Spiritual]
  ∧ ∃ best : nat,
      (∀ element words, (element, words) ∈ keywords → (count words ≤ best)%nat)
      ∧ (best = 0%nat → chosen = drawn)
      ∧ ((0 < best)%nat →
         ∃ words, (chosen, words) ∈ keywords
           ∧ count words = best
           ∧ ∀ element' words', (element', words') ∈ keywords →
               (order element' < order chosen)%nat → (count words' < best)%nat).
Proof.
  intros _ _ text count order chosen. split; [done|].
  exists (bestOf text).2.
  subst chosen. unfold fallbackAnalysis. cbn [elementType].
  change (textOf title description) with text.
  destruct (foldl_better_spec text keywords (Spiritual, 0%nat))
    as (_ & Hall & Hwhich); fold (bestOf text) in *. split_and!.
  - intros element words Hin. apply (Hall (element, words) Hin).
  - intros Hzero. by rewrite decide_True.
  - intros Hpos. rewrite decide_False by lia.
    destruct Hwhich as [Hstart|(i & [element words] & Hi & Hr & _ & Hearlier)].
    + rewrite Hstart in Hpos. cbn in Hpos. lia.
    + exists words. rewrite Hr. cbn [fst snd]. rewrite Hr in Hearlier. cbn [snd] in Hearlier.
      split_and!; [by eapply list_elem_of_lookup_2 | done |].
      intros element' words' Hin Horder.
      apply list_elem_of_lookup_1 in Hin as [j Hj].
      apply (Hearlier j (element', words')); [|done].
      unfold keywords in Hi, Hj.
      destruct i as [|[|[|[|[|i]]]]]; cbn in Hi; simplify_eq;
      destruct j as [|[|[|[|[|j]]]]]; cbn in Hj; simplify_eq; cbn in Horder; lia.
Qed.

(** Two keywords of Fire and two of Air occur: Fire comes first. *)
Lemma X11_fallback_classifier_choice_witness :
  elementType (fallbackAnalysis Air "fire and light, the mind and the wind" None) = Fire.
Proof.
  destruct (X11_fallback_classifier_choice Air "fire and light, the mind and the wind" None)
    as (_ & best & Hall & _ & Hbest); [reflexivity..|].
  pose proof (Hall Fire _ ltac:(unfold keywords; right; left)) as Hfire.
  vm_compute in Hfire.
  destruct Hbest as (words & Hin & Hcount & Hearlier); [lia|].
  revert Hin Hearlier.
  generalize (elementType (fallbackAnalysis Air "fire and light, the mind and the wind" None)).
  intros chosen Hin Hearlier.
  destruct chosen; [|done|..]; exfalso.
  all: pose proof (Hearlier Fire _ ltac:(unfold keywords; right; left)) as Hlt.
  all: unfold keywords in Hin.
  all: repeat (apply elem_of_cons in Hin as [Heq|Hin];
               [try discriminate Heq; injection Heq as ->|]);
         [|by apply elem_of_nil in Hin].
  all: vm_compute in Hcount; subst best.
  - lia.
  - specialize (Hlt ltac:(cbn; lia)). vm_compute in Hlt. lia.
  - specialize (Hlt ltac:(cbn; lia)). vm_compute in Hlt. lia.
  - specialize (Hlt ltac:(cbn; lia)). vm_compute in Hlt. lia.
Defined.

(** The confidence of the keyword classifier against one half. *)
Lemma fallbackAnalysis_lowConfidence drawn title description :
  lowConfidence (fallbackAnalysis drawn title description)
  = bool_decide ((bestOf (textOf title description)).2 < 3)%nat.
Proof.
  unfold lowConfidence, fallbackAnalysis. cbn [confidence].
  pose proof (bestOf_le_13 (textOf title description)) as Hbound.
  destruct ((bestOf (textOf title description)).2) as [|n]; [by vm_compute|].
  rewrite decide_True by lia.
  do 13 (destruct n as [|n]; [by vm_compute|]). lia.
Qed.

(** The scores of the fallback scorer are integers of the column. *)
Lemma asInteger_fallbackPositivityScore content :
  asInteger (JsFinite (inject_Z (Positivity.fallbackPositivityScore content)))
  = Some (Positivity.fallbackPositivityScore content).
Proof.
  pose proof (fallbackPositivityScore_range content) as Hrange.
  unfold asInteger. rewrite Qfloor_Z.
  rewrite (proj2 (Qeq_bool_iff _ _)) by reflexivity.
  by rewrite bool_decide_eq_true_2 by lia.
Qed.

(** X12.  A deployment without an API key, seen from the upload of a video
    with an ASCII title and description, when no statement is rejected:
    the keyword classifier, the permissive screener and the fallback scorer
    run, and the video is auto-approved and published exactly when at least
    three keywords of its best element occur in its title and description.
    Otherwise it goes to review with one pending queue row of priority
    normal.  It is never rejected, and its positivity score is the
    fallback's. *)
Theorem X12_video_upload_without_api_key
    (numberToString : JsNumber → string) (integerRefused : JsNumber → Thrown)
    (stringToNumber : string → JsNumber) (toPrimitive : Json → Completion string)
    (env : Moderation.Rejections)
    (key : option string) (chat : Chat) (net : Safety.Fetch) (reply : Positivity.Reply)
    (drawn : ElementCategory) (now videoId : Z) (actorId videoUrl title : string)
    (description : option string) (db : DB) :
  configured key = false →
  isAscii title = true → isAscii (default "" description) = true →
  Moderation.queueInsert env = None → Moderation.contentUpdate env = None →
  Moderation.auditInsert env = None →
  let text := title +:+ " " +:+ default "" description in
  let analysis := fallbackAnalysis drawn title description in
  let score := Positivity.fallbackPositivityScore text in
  let best := (bestOf (toLowerCase text)).2 in
  let r := Moderation.processVideoUpload numberToString integerRefused env now videoId
             actorId (Returns analysis)
             (Safety.checkVideoSafety key net title description videoUrl)
             (Returns (Positivity.analyzePositivity stringToNumber toPrimitive
                         key reply text)) db in
  analyzeVideoElement stringToNumber toPrimitive key chat drawn videoUrl title description
  = declared analysis
  ∧ Safety.checkVideoSafety key net title description videoUrl
    = Returns {| isSafe := true; flags := []; riskLevel := risk_none |}
  ∧ Positivity.analyzePositivity stringToNumber toPrimitive key reply text
    = JsFinite (inject_Z score)
  ∧ r.2 = Returns {| Moderation.success := true;
                     Moderation.status :=
                       if decide (best < 3)%nat then requires_review else auto_approved |}
  ∧ ((best < 3)%nat →
     ∃ row, Moderation.enqueued db r.1 = [row]
       ∧ QueueRow.contentId row = videoId
       ∧ QueueRow.priority row = normal
       ∧ QueueRow.status row = pending)
  ∧ ((3 ≤ best)%nat → Moderation.enqueued db r.1 = [])
  ∧ (∀ row, videos r.1 !! videoId = Some row →
       VideoRow.uploadStatus row
       = (if decide (best < 3)%nat then UnderReview else Published)
       ∧ VideoRow.positivityScore row = Some score
       ∧ VideoRow.elementCategory row = elementType analysis).
Proof.
  intros Hkey _ _ Hq Hu Ha text analysis score best r. subst r.
  assert (Hs : Safety.checkVideoSafety key net title description videoUrl
               = Returns Safety.approved_unchecked)
    by (unfold Safety.checkVideoSafety, Safety.checkContentSafety; by rewrite Hkey).
  assert (Hp : Positivity.analyzePositivity stringToNumber toPrimitive key reply text
               = JsFinite (inject_Z score))
    by (unfold Positivity.analyzePositivity; by rewrite Hkey).
  split; [unfold analyzeVideoElement; by rewrite Hkey|].
  split; [exact Hs|]. split; [exact Hp|].
  rewrite Hs, Hp.
  pose proof (fallbackAnalysis_lowConfidence drawn title description) as Hgate.
  change (bestOf (textOf title description)).2 with best in Hgate.
  unfold lowConfidence in Hgate. fold analysis in Hgate.
  pose proof (asInteger_fallbackPositivityScore text) as Hscore. fold score in Hscore.
  clearbody analysis score.
  run_unfold. rewrite Hq, Hu, Ha, Hscore.
  cbn [Safety.approved_unchecked isSafe negb]. rewrite Hgate.
  destruct (decide (best < 3)%nat) as [Hlow|Hhigh].
  - rewrite bool_decide_eq_true_2 by done. cbn.
    unfold Moderation.enqueued. cbn. rewrite drop_app_length.
    split_and!; [done| |lia|].
    + intros _. eexists. by split_and!.
    + intros row Hrow. rewrite lookup_alter_eq in Hrow.
      apply fmap_Some in Hrow as (? & _ & ->). done.
  - rewrite bool_decide_eq_false_2 by done. cbn.
    unfold Moderation.enqueued. cbn. rewrite drop_all.
    split_and!; [done|lia|done|].
    intros row Hrow. rewrite lookup_alter_eq in Hrow.
    apply fmap_Some in Hrow as (? & _ & ->). done.
Qed.

Lemma X12_video_upload_without_api_key_witness :
  let r := Moderation.processVideoUpload Sample.printNumber Sample.integerRefused
             Moderation.noRejection 50 7 "user-1"
             (Returns (fallbackAnalysis Air "Ocean waves and calm rain" None))
             (Safety.checkVideoSafety None (Safety.FetchRejected OtherValue)
                "Ocean waves and calm rain" None "")
             (Returns (Positivity.analyzePositivity (λ _, JsNaN) (λ _, Returns "")
                         None Positivity.ReplyRejected
                         ("Ocean waves and calm rain" +:+ " " +:+ "")))
             Sample.db in
  r.2 = Returns {| Moderation.success := true; Moderation.status := auto_approved |}
  ∧ Moderation.enqueued Sample.db r.1 = [].
Proof.
  destruct (X12_video_upload_without_api_key Sample.printNumber Sample.integerRefused
              (λ _, JsNaN) (λ _, Returns "") Moderation.noRejection
              None ChatRejected
              (Safety.FetchRejected OtherValue) Positivity.ReplyRejected Air 50 7
              "user-1" "" "Ocean waves and calm rain" None Sample.db)
    as (_ & _ & _ & Hstatus & _ & Hnone & _); [reflexivity..|].
  split; [exact Hstatus|]. apply Hnone. vm_compute. lia.
Defined.

(** X13.  A deployment without an API key, seen from a post with an ASCII
    text, when no statement is rejected: every post, whatever its text, is
    auto-approved and published, with nothing queued, the fallback's
    positivity score and the keyword classifier's element. *)
Theorem X13_post_creation_without_api_key
    (integerRefused : JsNumber → Thrown)
    (stringToNumber : string → JsNumber) (toPrimitive : Json → Completion string)
    (env : Moderation.Rejections)
    (key : option string) (chat : Chat) (net : Safety.Fetch) (reply : Positivity.Reply)
    (drawn : ElementCategory) (now postId : Z) (actorId content : string) (db : DB) :
  configured key = false →
  isAscii content = true →
  Moderation.contentUpdate env = None → Moderation.auditInsert env = None →
  let analysis := fallbackAnalysis drawn content None in
  let score := Positivity.fallbackPositivityScore content in
  let r := Moderation.processPostCreation integerRefused env now postId actorId
             (Returns analysis)
             (Safety.checkContentSafety key net content post)
             (Returns (Positivity.analyzePositivity stringToNumber toPrimitive
                         key reply content)) db in
  analyzeTextElement stringToNumber toPrimitive key chat drawn content = declared analysis
  ∧ Safety.checkContentSafety key net content post
    = Returns {| isSafe := true; flags := []; riskLevel := risk_none |}
  ∧ Positivity.analyzePositivity stringToNumber toPrimitive key reply content
    = JsFinite (inject_Z score)
  ∧ r.2 = Returns {| Moderation.success := true; Moderation.status := auto_approved |}
  ∧ moderationQueue r.1 = moderationQueue db
  ∧ (∀ row, posts r.1 !! postId = Some row →
       PostRow.moderationStatus row = Some auto_approved
       ∧ PostRow.uploadStatus row = Some Published
       ∧ PostRow.positivityScore row = Some score
       ∧ PostRow.elementCategory row = Some (elementType analysis)).
Proof.
  intros Hkey _ Hu Ha analysis score r. subst r.
  assert (Hs : Safety.checkContentSafety key net content post
               = Returns Safety.approved_unchecked)
    by (unfold Safety.checkContentSafety; by rewrite Hkey).
  assert (Hp : Positivity.analyzePositivity stringToNumber toPrimitive key reply content
               = JsFinite (inject_Z score))
    by (unfold Positivity.analyzePositivity; by rewrite Hkey).
  split; [unfold analyzeTextElement; by rewrite Hkey|].
  split; [exact Hs|]. split; [exact Hp|].
  rewrite Hs, Hp.
  pose proof (asInteger_fallbackPositivityScore content) as Hscore. fold score in Hscore.
  clearbody analysis score.
  run_unfold. rewrite Hu, Ha, Hscore. cbn. split_and!; [done|done|].
  intros row Hrow. rewrite lookup_alter_eq in Hrow.
  apply fmap_Some in Hrow as (? & _ & ->). done.
Qed.

Lemma X13_post_creation_without_api_key_witness :
  let r := Moderation.processPostCreation Sample.integerRefused Moderation.noRejection
             50 7 "user-2"
             (Returns (fallbackAnalysis Air "I hate everything, it's hopeless" None))
             (Safety.checkContentSafety None (Safety.FetchRejected OtherValue)
                "I hate everything, it's hopeless" post)
             (Returns (Positivity.analyzePositivity (λ _, JsNaN) (λ _, Returns "")
                         None Positivity.ReplyRejected
                         "I hate everything, it's hopeless"))
             Sample.db in
  ∃ row, posts r.1 !! 7 = Some row
    ∧ PostRow.uploadStatus row = Some Published
    ∧ PostRow.positivityScore row = Some 39.
Proof.
  eexists. split; [reflexivity|].
  destruct (X13_post_creation_without_api_key Sample.integerRefused
              (λ _, JsNaN) (λ _, Returns "") Moderation.noRejection
              None ChatRejected
              (Safety.FetchRejected OtherValue) Positivity.ReplyRejected Air 50 7
              "user-2" "I hate everything, it's hopeless" Sample.db)
    as (_ & _ & _ & _ & _ & Hrow); [reflexivity..|].
  edestruct Hrow as (_ & Hupload & Hscore & _); [reflexivity|].
  split; [exact Hupload | exact Hscore].
Defined.

(** X14.  What both analysers take from a parsed reply.  A reply that is
    [null], or whose confidence has no conversion to a number, is answered
    by the keyword classifier.  Otherwise the element type and the
    reasoning are the reply's, unchecked, and the confidence is
    [Math.min(1, Math.max(0, parsed.confidence || 0.5))]: [NaN] or a number
    between 0 and 1.  A missing or falsy confidence becomes 0.5; a number
    other than 0 is brought into the range; a string is read as a number,
    and one that denotes none gives [NaN].  The low-confidence test of the
    video orchestrator then holds exactly for a number other than 0 below
    one half, negative numbers included, and fails for [NaN]: a reply with
    confidence 0 is not reviewed, a reply with confidence -1 is, and a
    reply with a confidence that is not a number is not. *)
Theorem X14_parsed_confidence
    (stringToNumber : string → JsNumber) (toPrimitive : Json → Completion string)
    (key : option string) (parsed : Json)
    (drawn : ElementCategory) (videoUrl title : string) (description : option string) :
  configured key = true →
  let clamp (n : JsNumber) : JsNumber :=
    Double.min (JsFinite 1) (Double.max (JsFinite 0) n) in
  let low (n : JsNumber) : bool := js_lt n (JsFinite (1 # 2)) in
  (∀ e, ofParsed stringToNumber toPrimitive parsed = Throws e →
     analyzeVideoElement stringToNumber toPrimitive key (ChatParsed parsed)
       drawn videoUrl title description
     = declared (fallbackAnalysis drawn title description)
     ∧ analyzeTextElement stringToNumber toPrimitive key (ChatParsed parsed) drawn title
       = declared (fallbackAnalysis drawn title None))
  ∧ (∃ e, ofParsed stringToNumber toPrimitive JNull = Throws e)
  ∧ (∀ a, ofParsed stringToNumber toPrimitive parsed = Returns a →
       analyzeVideoElement stringToNumber toPrimitive key (ChatParsed parsed)
         drawn videoUrl title description = a
       ∧ analyzeTextElement stringToNumber toPrimitive key (ChatParsed parsed) drawn title
         = a
       ∧ getMember "elementType" parsed = Returns (a_elementType a)
       ∧ (a_confidence a = JsNaN
          ∨ ∃ q, a_confidence a = JsFinite q ∧ (0 <= q <= 1)%Q)
       ∧ (a_confidence a = JsNaN → low (a_confidence a) = false)
       ∧ ∀ member, getMember "confidence" parsed = Returns member →
           (truthy member = false →
              a_confidence a = JsFinite (1 # 2) ∧ low (a_confidence a) = false)
           ∧ (∀ n, member = Some (JNumber n) →
                (Double.isFalsy n = false → a_confidence a = clamp n)
                ∧ (low (a_confidence a) = true
                   ↔ Double.isFalsy n = false ∧ low n = true))
           ∧ (∀ s, member = Some (JString s) → s ≠ "" →
                a_confidence a = clamp (stringToNumber s))).
Proof.
  intros Hkey clamp low.
  unfold analyzeVideoElement, analyzeTextElement. rewrite Hkey. cbn [negb].
  split; [by intros e ->|]. split; [by eexists|].
  intros a Ha. rewrite Ha. split; [done|]. split; [done|].
  revert Ha. unfold ofParsed, clamped.
  destruct (getMember "elementType" parsed) as [elementType|]; cbn [bindC]; [|done].
  destruct (getMember "confidence" parsed) as [member|]; cbn [bindC]; [|done].
  destruct (toNumber _ _ _) as [n|] eqn:Hn; cbn [bindC]; [|done].
  destruct (getMember "reasoning" parsed) as [reasoning|]; cbn [bindC]; [|done].
  intros [= <-]. cbn [a_elementType a_confidence]. fold (clamp n).
  split; [done|].
  assert (Hrange : (n = JsNaN ∧ clamp n = JsNaN)
                   ∨ (n ≠ JsNaN ∧ ∃ q, clamp n = JsFinite q ∧ (0 <= q <= 1)%Q))
    by (apply (clamp_range 0 1 n); lra).
  split; [destruct Hrange as [[_ ?]|[_ ?]]; [by left | by right]|].
  split; [by intros ->|].
  intros ? [= <-]. split_and!.
  - intros Hfalsy. unfold js_or in Hn. rewrite Hfalsy in Hn.
    assert (n = JsFinite (1 # 2)) as -> by (destruct member; by simplify_eq/=).
    done.
  - intros m ->. unfold js_or in Hn. cbn in Hn.
    destruct (Double.isFalsy m) eqn:Hm; cbn in Hn; simplify_eq.
    + split; [done|]. split; [done | by intros [? _]].
    + split; [done|]. split; [|intros [_ Hlow]].
      * intros Hlow. split; [done|]. revert Hlow. subst clamp low. cbv beta.
        destruct n as [|[]|q]; cbn; try done.
        destruct (Qlt_le_dec 0 q); cbn; [|by destruct (Qlt_le_dec q (1 # 2)); [|lra]].
        destruct (Qlt_le_dec q 1); cbn; [done|].
        by destruct (Qlt_le_dec q (1 # 2)); [lra|].
      * revert Hlow. subst clamp low. cbv beta.
        destruct n as [|[]|q]; cbn; try done.
        destruct (Qlt_le_dec q (1 # 2)); [intros _|done].
        destruct (Qlt_le_dec 0 q); cbn.
        -- destruct (Qlt_le_dec q 1); cbn; [|lra].
           by destruct (Qlt_le_dec q (1 # 2)); [|lra].
        -- done.
  - intros s -> Hs. unfold js_or in Hn. cbn in Hn.
    rewrite bool_decide_eq_false_2 in Hn by done. cbn in Hn. by simplify_eq.
Qed.

(** A reply with confidence 0 gets 0.5 and is not reviewed; a reply whose
    confidence is the string "high" gets [NaN] and is not reviewed
    either. *)
Lemma X14_parsed_confidence_witness :
  let reply (value : Json) :=
    JObject [("elementType", JString "Fire"); ("confidence", value)] in
  let analysed (value : Json) :=
    analyzeVideoElement (λ _, JsNaN) (λ _, Returns "") (Some "sk-key")
      (ChatParsed (reply value)) Air "" "title" None in
  a_confidence (analysed (JNumber (JsFinite 0))) = JsFinite (1 # 2)
  ∧ a_confidence (analysed (JString "high")) = JsNaN
  ∧ js_lt (a_confidence (analysed (JString "high"))) (JsFinite (1 # 2)) = false.
Proof.
  intros reply analysed.
  assert (Hof : ∀ value a,
            ofParsed (λ _, JsNaN) (λ _, Returns "") (reply value) = Returns a →
            analysed value = a
            ∧ (truthy (Some value) = false → a_confidence a = JsFinite (1 # 2))
            ∧ (∀ s, Some value = Some (JString s) → s ≠ "" →
                 a_confidence a
                 = Double.min (JsFinite 1) (Double.max (JsFinite 0) JsNaN))
            ∧ (a_confidence a = JsNaN →
               js_lt (a_confidence a) (JsFinite (1 # 2)) = false)).
  { intros value a Ha.
    destruct (X14_parsed_confidence (λ _, JsNaN) (λ _, Returns "") (Some "sk-key")
                (reply value) Air "" "title" None) as (_ & _ & Hparsed); [reflexivity|].
    destruct (Hparsed a Ha) as (Hvideo & _ & _ & _ & Hnan & Hmember).
    destruct (Hmember (Some value) eq_refl) as (Hfalsy & _ & Hstring).
    split; [exact Hvideo|]. split; [apply Hfalsy|]. split; [exact Hstring | exact Hnan]. }
  destruct (Hof (JNumber (JsFinite 0)) _ eq_refl) as (-> & Hzero & _).
  destruct (Hof (JString "high") _ eq_refl) as (-> & _ & Hstring & Hnan).
  split; [apply Hzero; reflexivity|].
  assert (Hconfidence := Hstring "high" eq_refl ltac:(discriminate)).
  split; [exact Hconfidence|]. apply Hnan. exact Hconfidence.
Defined.

End AnalysisFacts.

(** ** Feed caching layer *)

Section CacheFacts.
Context {T : Type}.
Implicit Types (store : gmap string (Cache.CacheEntry T)) (key : string).

(** X15.  A value that was set is served until its time to live is over,
    the last millisecond included, and leaves the map on the first read
    after that; reads of another key are not affected. *)
Theorem X15_cache_set_then_get
    (now later ttlSeconds : Z) key (value : T) store :
  (later ≤ now + ttlSeconds * 1000 →
     Cache.get later key (Cache.set now key value ttlSeconds store)
     = (Some value, Cache.set now key value ttlSeconds store))
  ∧ (now + ttlSeconds * 1000 < later →
       Cache.get later key (Cache.set now key value ttlSeconds store)
       = (None, delete key store))
  ∧ (∀ other, other ≠ key →
       (Cache.get later other (Cache.set now key value ttlSeconds store)).1
       = (Cache.get later other store).1).
Proof.
  unfold Cache.get, Cache.set. split_and!.
  - intros Hfresh. rewrite lookup_insert_eq. cbn. by rewrite decide_False by lia.
  - intros Hstale. rewrite lookup_insert_eq. cbn. rewrite decide_True by lia.
    by rewrite delete_insert_eq.
  - intros other Hother. rewrite lookup_insert_ne by done.
    destruct (store !! other) as [entry|]; [|done]. by case_decide.
Qed.

(** What the purge loop does to one key. *)
Lemma purge_loop_lookup (now : Z) (l : list (string * Cache.CacheEntry T)) store key :
  let purged :=
    foldl (λ (acc : gmap string (Cache.CacheEntry T)) (kv : string * Cache.CacheEntry T),
             if decide (Cache.expiresAt kv.2 < now) then delete kv.1 acc else acc)
      store l in
  (store !! key = None → purged !! key = None)
  ∧ ((∃ entry, (key, entry) ∈ l ∧ Cache.expiresAt entry < now) → purged !! key = None)
  ∧ ((∀ entry, (key, entry) ∈ l → ¬ Cache.expiresAt entry < now) →
     purged !! key = store !! key).
Proof.
  revert store. induction l as [|[k e] l IH]; intros store; cbn.
  - split_and!; [done| |done]. by intros (entry & ?%elem_of_nil & _).
  - set (next := if decide (Cache.expiresAt e < now) then delete k store else store).
    destruct (IH next) as (Hnone & Hexpired & Hkept).
    assert (Hnext : store !! key = None → next !! key = None).
    { intros Hkey. subst next. case_decide; [|done].
      destruct (decide (k = key)) as [->|Hne];
        [apply lookup_delete_eq | by rewrite lookup_delete_ne]. }
    split_and!.
    + intros Hkey. by apply Hnone, Hnext.
    + intros (entry & [[= <- <-]|Hin]%elem_of_cons & Hold).
      * apply Hnone. subst next. rewrite decide_True by done. apply lookup_delete_eq.
      * apply Hexpired. by exists entry.
    + intros Hfresh. rewrite Hkept.
      * subst next. case_decide as Hold; [|done].
        rewrite lookup_delete_ne; [done|]. intros ->. by apply (Hfresh e); [left|].
      * intros entry Hin. apply Hfresh. by right.
Qed.

Lemma purgeExpired_lookup (now : Z) store key :
  Cache.purgeExpired now store !! key
  = match store !! key with
    | Some entry => if decide (Cache.expiresAt entry < now) then None else Some entry
    | None => None
    end.
Proof.
  destruct (purge_loop_lookup now (map_to_list store) store key)
    as (Hnone & Hexpired & Hkept).
  fold (Cache.purgeExpired now store) in *.
  destruct (store !! key) as [entry|] eqn:Hkey; [|by apply Hnone].
  case_decide as Hold.
  - apply Hexpired. exists entry. split; [by apply elem_of_map_to_list | done].
  - rewrite Hkept; [done|]. intros entry' Hin%elem_of_map_to_list. by simplify_eq.
Qed.

(** X16.  The periodic purge removes exactly the entries whose time to live
    is over and keeps every other entry as it is; it never changes what a
    later [get] answers, since [get] treats the entries it would remove as
    missing; and [size] is the number of entries that are still alive. *)
Theorem X16_cache_purge_is_invisible (purgedAt now : Z) store key :
  (∀ k, Cache.purgeExpired purgedAt store !! k
        = match store !! k with
          | Some entry =>
              if decide (Cache.expiresAt entry < purgedAt) then None else Some entry
          | None => None
          end)
  ∧ (purgedAt ≤ now →
     (Cache.get now key (Cache.purgeExpired purgedAt store)).1
     = (Cache.get now key store).1)
  ∧ Cache.purgeExpired now (Cache.purgeExpired now store) = Cache.purgeExpired now store
  ∧ (Cache.size now store).1
    = size (filter (λ kv : string * Cache.CacheEntry T, now ≤ Cache.expiresAt kv.2) store).
Proof.
  split_and!.
  - intros k. apply purgeExpired_lookup.
  - intros Hle. unfold Cache.get. rewrite purgeExpired_lookup.
    destruct (store !! key) as [entry|]; [|done].
    destruct (decide (Cache.expiresAt entry < purgedAt)); cbn.
    + by rewrite decide_True by lia.
    + by case_decide.
  - apply map_eq. intros k. rewrite !purgeExpired_lookup.
    destruct (store !! k) as [entry|]; [|done]. case_decide; [done|].
    by rewrite decide_False.
  - cbn. f_equal. apply map_eq. intros k. rewrite purgeExpired_lookup.
    rewrite map_lookup_filter. destruct (store !! k) as [entry|]; [|done]. cbn.
    case_decide.
    + by rewrite option_guard_False by (cbn; lia).
    + by rewrite option_guard_True by (cbn; lia).
Qed.

End CacheFacts.

Lemma X15_cache_set_then_get_witness :
  Cache.get 300000 "feed:Water" (Cache.set 0 "feed:Water" 7 300 ∅)
  = (Some 7, Cache.set 0 "feed:Water" 7 300 ∅)
  ∧ Cache.get 300001 "feed:Water" (Cache.set 0 "feed:Water" 7 300 ∅)
    = (None, delete "feed:Water" ∅).
Proof.
  destruct (X15_cache_set_then_get 0 300000 300 "feed:Water" 7 ∅) as (Hfresh & _).
  destruct (X15_cache_set_then_get 0 300001 300 "feed:Water" 7 ∅) as (_ & Hstale & _).
  split; [apply Hfresh; lia | apply Hstale; lia].
Defined.

Lemma X16_cache_purge_is_invisible_witness :
  (Cache.get 20 "a" (Cache.purgeExpired 10 (Cache.set 0 "a" 5 0 ∅))).1
  = (Cache.get 20 "a" (Cache.set 0 "a" 5 0 ∅)).1.
Proof.
  destruct (X16_cache_purge_is_invisible 10 20 (Cache.set 0 "a" 5 0 ∅) "a")
    as (_ & Hget & _).
  apply Hget. lia.
Defined.


Section CacheAsideFacts.
Context {T : Type}.
Implicit Types (store : gmap string (Cache.CacheEntry T)) (key : string).




(** The loop of [invalidatePrefix] over a list of distinct keys of the map. *)
Lemma invalidate_loop (prefix : string) (keys : list string) (count : nat) store :
  let loop :=
    foldl (λ (acc : nat * gmap string (Cache.CacheEntry T)) k,
             if String.prefix prefix k then (S acc.1, delete k acc.2) else acc)
      (count, store) keys in
  NoDup keys →
  (∀ k, k ∈ keys → is_Some (store !! k)) →
  (∀ k, loop.2 !! k
        = if bool_decide (k ∈ keys) && String.prefix prefix k then None else store !! k)
  ∧ (loop.1 + size loop.2 = count + size store)%nat.
Proof.
  cbv zeta. revert count store.
  induction keys as [|key keys IH]; intros count store Hdistinct Hpresent; cbn.
  - split; [|done]. intros k. by rewrite bool_decide_eq_false_2 by apply not_elem_of_nil.
  - apply NoDup_cons in Hdistinct as [Hfresh Hdistinct].
    destruct (String.prefix prefix key) eqn:Hprefix; cbn.
    + destruct (IH (S count) (delete key store) Hdistinct) as [Hlookup Hsize].
      { intros k Hk. rewrite lookup_delete_ne by (by intros ->).
        apply Hpresent. by right. }
      split.
      * intros k. rewrite Hlookup. destruct (decide (k = key)) as [->|Hne].
        -- rewrite (bool_decide_eq_true_2 (key ∈ key :: keys)) by left.
           rewrite (bool_decide_eq_false_2 (key ∈ keys)) by done. cbn.
           by rewrite Hprefix, lookup_delete_eq.
        -- rewrite lookup_delete_ne by done.
           assert (bool_decide (k ∈ key :: keys) = bool_decide (k ∈ keys)) as ->; [|done].
           apply bool_decide_ext. rewrite elem_of_cons.
           split; [by intros [?|?] | by right].
      * rewrite Hsize, map_size_delete_Some by (apply Hpresent; left).
        assert (size store ≠ 0%nat); [|lia].
        intros ->%map_size_empty_inv. destruct (Hpresent key) as [? Hkey]; [left|].
        by rewrite lookup_empty in Hkey.
    + destruct (IH count store Hdistinct) as [Hlookup Hsize].
      { intros k Hk. apply Hpresent. by right. }
      split; [|done]. intros k. rewrite Hlookup.
      destruct (decide (k = key)) as [->|Hne].
      * rewrite (bool_decide_eq_true_2 (key ∈ key :: keys)) by left.
        rewrite (bool_decide_eq_false_2 (key ∈ keys)) by done. cbn. by rewrite Hprefix.
      * assert (bool_decide (k ∈ key :: keys) = bool_decide (k ∈ keys)) as ->; [|done].
        apply bool_decide_ext. rewrite elem_of_cons.
           split; [by intros [?|?] | by right].
Qed.

(** X18.  [invalidatePrefix] removes exactly the keys that start with the
    prefix and leaves every other entry as it is; the number it returns is
    the number of entries removed; afterwards a read of a key with the
    prefix misses and a read of another key answers as before. *)
Theorem X18_cache_invalidate_prefix (prefix : string) (now : Z) store :
  let after := Cache.invalidatePrefix prefix store in
  (∀ k, after.2 !! k = if String.prefix prefix k then None else store !! k)
  ∧ (after.1 + size after.2 = size store)%nat
  ∧ (∀ k, (Cache.get now k after.2).1
          = if String.prefix prefix k then None else (Cache.get now k store).1).
Proof.
  cbv zeta.
  destruct (invalidate_loop prefix (map_to_list store).*1 0 store) as [Hlookup Hsize].
  { apply NoDup_fst_map_to_list. }
  { intros k ((k' & entry) & -> & Hin%elem_of_map_to_list)%list_elem_of_fmap. by exists entry. }
  fold (Cache.invalidatePrefix prefix store) in *.
  assert (Hafter : ∀ k, (Cache.invalidatePrefix prefix store).2 !! k
                        = if String.prefix prefix k then None else store !! k).
  { intros k. rewrite Hlookup. destruct (String.prefix prefix k); [|by rewrite andb_false_r].
    rewrite andb_true_r. case_bool_decide as Hin; [done|].
    destruct (store !! k) as [entry|] eqn:Hkey; [|done]. destruct Hin.
    apply list_elem_of_fmap. exists (k, entry). split; [done|]. by apply elem_of_map_to_list. }
  split_and!; [done|done|].
  intros k. unfold Cache.get. rewrite Hafter.
  destruct (String.prefix prefix k); [done|].
  destruct (store !! k) as [entry|]; [|done]. by case_decide.
Qed.

End CacheAsideFacts.


(** ** Rate limiting *)

Section RateLimitFacts.
Implicit Types (windows : gmap string RateLimit.WindowEntry) (key : string).

(** One request inside an open window. *)
Lemma rateLimit_in_window opts now key windows entry :
  windows !! key = Some entry →
  now ≤ RateLimit.resetAt entry →
  RateLimit.rateLimit opts now key windows
  = ({| RateLimit.rateLimitLimit := RateLimit.max opts;
        RateLimit.rateLimitRemaining :=
          Z.max 0 (RateLimit.max opts - (RateLimit.count entry + 1));
        RateLimit.rateLimitReset :=
          RateLimit.ceilSeconds (RateLimit.resetAt entry - now);
        RateLimit.passed :=
          bool_decide (RateLimit.count entry + 1 ≤ RateLimit.max opts) |},
     <[key := {| RateLimit.count := RateLimit.count entry + 1;
                 RateLimit.resetAt := RateLimit.resetAt entry |}]> windows).
Proof.
  intros Hkey Hopen. unfold RateLimit.rateLimit, RateLimit.hit. rewrite Hkey.
  rewrite decide_False by lia. cbn. do 2 f_equal.
  case_bool_decide; case_bool_decide; done || lia.
Qed.

(** One request when no window is open. *)
Lemma rateLimit_opens opts now key windows :
  RateLimit.closed now key windows →
  RateLimit.rateLimit opts now key windows
  = ({| RateLimit.rateLimitLimit := RateLimit.max opts;
        RateLimit.rateLimitRemaining := Z.max 0 (RateLimit.max opts - 1);
        RateLimit.rateLimitReset := RateLimit.ceilSeconds (RateLimit.windowMs opts);
        RateLimit.passed := bool_decide (1 ≤ RateLimit.max opts) |},
     <[key := {| RateLimit.count := 1;
                 RateLimit.resetAt := now + RateLimit.windowMs opts |}]> windows).
Proof.
  unfold RateLimit.closed, RateLimit.rateLimit, RateLimit.hit. intros Hclosed.
  assert (Hpassed : negb (bool_decide (RateLimit.max opts < 1))
                    = bool_decide (1 ≤ RateLimit.max opts)).
  { case_bool_decide; case_bool_decide; done || lia. }
  destruct (windows !! key) as [entry|].
  - rewrite decide_True by done. cbn. by rewrite Hpassed.
  - cbn. by rewrite Hpassed.
Qed.

(** The requests that follow inside the window that is open. *)
Lemma serve_in_window key (requests : list (RateLimit.RateLimitOptions * Z))
    (served : list RateLimit.Response) windows entry :
  windows !! key = Some entry →
  Forall (λ request, request.2 ≤ RateLimit.resetAt entry) requests →
  let out :=
    foldl (λ (acc : list RateLimit.Response * gmap string RateLimit.WindowEntry)
             (request : RateLimit.RateLimitOptions * Z),
             let r := RateLimit.rateLimit request.1 request.2 key acc.2 in
             ((acc.1 ++ [r.1])%list, r.2))
      (served, windows) requests in
  length out.1 = (length served + length requests)%nat
  ∧ (∀ i response, (i < length served)%nat →
       out.1 !! i = Some response ↔ served !! i = Some response)
  ∧ (∀ (i : nat) request response,
       requests !! i = Some request →
       out.1 !! (length served + i)%nat = Some response →
       response
       = {| RateLimit.rateLimitLimit := RateLimit.max request.1;
            RateLimit.rateLimitRemaining :=
              Z.max 0 (RateLimit.max request.1 - (RateLimit.count entry + 1 + Z.of_nat i));
            RateLimit.rateLimitReset :=
              RateLimit.ceilSeconds (RateLimit.resetAt entry - request.2);
            RateLimit.passed :=
              bool_decide (RateLimit.count entry + 1 + Z.of_nat i ≤ RateLimit.max request.1) |})
  ∧ out.2 !! key
    = Some {| RateLimit.count := RateLimit.count entry + Z.of_nat (length requests);
              RateLimit.resetAt := RateLimit.resetAt entry |}
  ∧ (∀ other, other ≠ key → out.2 !! other = windows !! other).
Proof.
  cbv zeta. revert served windows entry.
  induction requests as [|[opts now] requests IH]; intros served windows entry Hkey Hopen; cbn.
  - split_and!; [lia|done| |by rewrite Z.add_0_r; destruct entry|done].
    intros i request response Hrequest. by rewrite lookup_nil in Hrequest.
  - apply Forall_cons in Hopen as [Hnow Hopen]. cbn in Hnow.
    rewrite (rateLimit_in_window opts now key windows entry Hkey Hnow). cbn.
    match goal with
    | |- context [foldl _ ((served ++ [?r])%list, ?w) requests] =>
        specialize (IH (served ++ [r])%list w
                      {| RateLimit.count := RateLimit.count entry + 1;
                         RateLimit.resetAt := RateLimit.resetAt entry |});
        set (first := r) in *; set (next := w) in *
    end.
    destruct IH as (Hlength & Hserved & Hlater & Hentry & Hother).
    { subst next. apply lookup_insert_eq. }
    { done. }
    rewrite length_app in *. cbn in *. split_and!.
    + lia.
    + intros i response Hi. rewrite Hserved by lia. by rewrite lookup_app_l.
    + intros [|i] request response Hrequest Hresponse; cbn in Hrequest.
      * simplify_eq. rewrite Nat.add_0_r in Hresponse.
        apply Hserved in Hresponse; [|lia].
        rewrite lookup_app_r, Nat.sub_diag in Hresponse by done. cbn in Hresponse.
        simplify_eq. cbn. by rewrite !Z.add_0_r.
      * rewrite (Hlater i request response Hrequest).
        -- do 2 f_equal; [f_equal; lia|]. apply bool_decide_ext. lia.
        -- rewrite <- Hresponse. f_equal. lia.
    + rewrite Hentry. do 2 f_equal. lia.
    + intros other Hne. rewrite Hother by done. subst next. by rewrite lookup_insert_ne.
Qed.

(** [Math.ceil(ms / 1000)] is the least number of whole seconds that
    covers [ms]. *)
Lemma ceilSeconds_spec (ms : Z) :
  1000 * (RateLimit.ceilSeconds ms - 1) < ms ≤ 1000 * RateLimit.ceilSeconds ms.
Proof.
  unfold RateLimit.ceilSeconds.
  pose proof (Z.div_mod (- ms) 1000 ltac:(lia)) as Hdiv.
  pose proof (Z.mod_pos_bound (- ms) 1000 ltac:(lia)) as Hmod.
  lia.
Qed.

(** X19.  The request counter belongs to the client key alone: all limiters
    count in the same window.  When no window of the key is open, a request
    opens one that lasts the [windowMs] of that request's limiter; of the
    requests that arrive until it ends, by whatever limiters, the one in
    place [i] (the opening one is in place 0) passes exactly when [i + 1]
    is at most the [max] of its own limiter, it is told that many less are
    remaining (never less than 0) and the time left of the window in whole
    seconds, rounded up: the least number of seconds that covers the
    milliseconds left.  Windows of other keys are not touched. *)
Theorem X19_rate_limit_window key (first : RateLimit.RateLimitOptions) (start : Z)
    (requests : list (RateLimit.RateLimitOptions * Z)) windows :
  RateLimit.closed start key windows →
  Forall (λ request, request.2 ≤ start + RateLimit.windowMs first) requests →
  let out := RateLimit.serve key ((first, start) :: requests) windows in
  length out.1 = S (length requests)
  ∧ (∀ (i : nat) request response,
       ((first, start) :: requests) !! i = Some request →
       out.1 !! i = Some response →
       let left :=
         if decide (i = 0%nat) then RateLimit.windowMs first
         else start + RateLimit.windowMs first - request.2 in
       RateLimit.rateLimitLimit response = RateLimit.max request.1
       ∧ RateLimit.rateLimitRemaining response
         = Z.max 0 (RateLimit.max request.1 - (Z.of_nat i + 1))
       ∧ 1000 * (RateLimit.rateLimitReset response - 1) < left
                 ≤ 1000 * RateLimit.rateLimitReset response
       ∧ RateLimit.passed response
         = bool_decide (Z.of_nat i + 1 ≤ RateLimit.max request.1))
  ∧ out.2 !! key
    = Some {| RateLimit.count := Z.of_nat (S (length requests));
              RateLimit.resetAt := start + RateLimit.windowMs first |}
  ∧ (∀ other, other ≠ key → out.2 !! other = windows !! other).
Proof.
  intros Hclosed Hopen. cbv zeta. unfold RateLimit.serve. cbn [foldl fst snd].
  rewrite (rateLimit_opens first start key windows Hclosed). cbn [fst snd app].
  match goal with
  | |- context [foldl _ ([?r], ?w) requests] =>
      set (opening := r) in *; set (next := w) in *
  end.
  destruct (serve_in_window key requests [opening] next
              {| RateLimit.count := 1; RateLimit.resetAt := start + RateLimit.windowMs first |})
    as (Hlength & Hserved & Hlater & Hentry & Hother).
  { subst next. apply lookup_insert_eq. }
  { done. }
  cbn in *. split_and!.
  - done.
  - intros [|i] request response Hrequest Hresponse; cbn in Hrequest.
    + simplify_eq. apply Hserved in Hresponse; [|lia]. cbn in Hresponse.
      simplify_eq. cbn. split_and!; [done | done | apply ceilSeconds_spec..| done].
    + rewrite (Hlater i request response Hrequest Hresponse). cbn.
      split_and!; [done | f_equal; lia | apply ceilSeconds_spec..
                  | apply bool_decide_ext; lia].
  - rewrite Hentry. do 2 f_equal. lia.
  - intros other Hne. rewrite Hother by done. subst next. by rewrite lookup_insert_ne.
Qed.

End RateLimitFacts.

(** Three requests of one client: the first opens a window of 60 seconds
    and is told 60; the third comes 20 milliseconds later through a
    limiter of one request, is refused and is told 60 as well. *)
Lemma X19_rate_limit_window_witness :
  let served :=
    (RateLimit.serve "10.0.0.1"
       [({| RateLimit.windowMs := 60000; RateLimit.max := 60 |}, 0);
        ({| RateLimit.windowMs := 60000; RateLimit.max := 60 |}, 10);
        ({| RateLimit.windowMs := 60000; RateLimit.max := 1 |}, 20)] ∅).1 in
  served !! 0%nat
  = Some {| RateLimit.rateLimitLimit := 60;
            RateLimit.rateLimitRemaining := 59;
            RateLimit.rateLimitReset := 60;
            RateLimit.passed := true |}
  ∧ served !! 2%nat
    = Some {| RateLimit.rateLimitLimit := 1;
              RateLimit.rateLimitRemaining := 0;
              RateLimit.rateLimitReset := 60;
              RateLimit.passed := false |}.
Proof.
  intros served.
  destruct (X19_rate_limit_window "10.0.0.1"
              {| RateLimit.windowMs := 60000; RateLimit.max := 60 |} 0
              [({| RateLimit.windowMs := 60000; RateLimit.max := 60 |}, 10);
               ({| RateLimit.windowMs := 60000; RateLimit.max := 1 |}, 20)] ∅)
    as (_ & Hresponses & _).
  - exact I.
  - repeat constructor; cbn; lia.
  - fold served in Hresponses. split.
    + destruct (served !! 0%nat) as [response|] eqn:Hresponse;
        [|by vm_compute in Hresponse].
      destruct (Hresponses 0%nat _ response eq_refl Hresponse)
        as (Hlimit & Hremaining & Hreset & Hpassed).
      destruct response as [limit remaining reset passed]. cbn in *.
      f_equal. f_equal;
        [ exact Hlimit | lia
        | try rewrite decide_True in Hreset by done;
          try rewrite decide_False in Hreset by done; lia
        | rewrite Hpassed; reflexivity ].
    + destruct (served !! 2%nat) as [response|] eqn:Hresponse;
        [|by vm_compute in Hresponse].
      destruct (Hresponses 2%nat _ response eq_refl Hresponse)
        as (Hlimit & Hremaining & Hreset & Hpassed).
      destruct response as [limit remaining reset passed]. cbn in *.
      f_equal. f_equal;
        [ exact Hlimit | lia
        | try rewrite decide_True in Hreset by done;
          try rewrite decide_False in Hreset by done; lia
        | rewrite Hpassed; reflexivity ].
Defined.

Section RateLimitPurge.
Implicit Types (windows : gmap string RateLimit.WindowEntry) (key : string).

Lemma purge_windows_loop (now : Z) (l : list (string * RateLimit.WindowEntry)) windows key :
  let purged :=
    foldl (λ (acc : gmap string RateLimit.WindowEntry) (kv : string * RateLimit.WindowEntry),
             if decide (RateLimit.resetAt kv.2 < now) then delete kv.1 acc else acc)
      windows l in
  (windows !! key = None → purged !! key = None)
  ∧ ((∃ entry, (key, entry) ∈ l ∧ RateLimit.resetAt entry < now) → purged !! key = None)
  ∧ ((∀ entry, (key, entry) ∈ l → ¬ RateLimit.resetAt entry < now) →
     purged !! key = windows !! key).
Proof.
  revert windows. induction l as [|[k e] l IH]; intros windows; cbn.
  - split_and!; [done| |done]. by intros (entry & ?%elem_of_nil & _).
  - set (next := if decide (RateLimit.resetAt e < now) then delete k windows else windows).
    destruct (IH next) as (Hnone & Hexpired & Hkept).
    assert (Hnext : windows !! key = None → next !! key = None).
    { intros Hkey. subst next. case_decide; [|done].
      destruct (decide (k = key)) as [->|Hne];
        [apply lookup_delete_eq | by rewrite lookup_delete_ne]. }
    split_and!.
    + intros Hkey. by apply Hnone, Hnext.
    + intros (entry & [[= <- <-]|Hin]%elem_of_cons & Hold).
      * apply Hnone. subst next. rewrite decide_True by done. apply lookup_delete_eq.
      * apply Hexpired. by exists entry.
    + intros Hfresh. rewrite Hkept.
      * subst next. case_decide as Hold; [|done].
        rewrite lookup_delete_ne; [done|]. intros ->. by apply (Hfresh e); [left|].
      * intros entry Hin. apply Hfresh. by right.
Qed.

Lemma purge_lookup (now : Z) windows key :
  RateLimit.purge now windows !! key
  = match windows !! key with
    | Some entry => if decide (RateLimit.resetAt entry < now) then None else Some entry
    | None => None
    end.
Proof.
  destruct (purge_windows_loop now (map_to_list windows) windows key)
    as (Hnone & Hexpired & Hkept).
  fold (RateLimit.purge now windows) in *.
  destruct (windows !! key) as [entry|] eqn:Hkey; [|by apply Hnone].
  case_decide as Hold.
  - apply Hexpired. exists entry. split; [by apply elem_of_map_to_list | done].
  - rewrite Hkept; [done|]. intros entry' Hin%elem_of_map_to_list. by simplify_eq.
Qed.

(** X20.  The periodic purge of the rate-limit store drops exactly the
    windows that have ended and never changes how a request is answered:
    after a purge a request gets the response, and leaves the window of its
    key, that it would have got and left without the purge. *)
Theorem X20_rate_limit_purge_is_invisible
    (opts : RateLimit.RateLimitOptions) (purgedAt now : Z) key windows :
  purgedAt ≤ now →
  (∀ k, RateLimit.purge purgedAt windows !! k
        = match windows !! k with
          | Some entry =>
              if decide (RateLimit.resetAt entry < purgedAt) then None else Some entry
          | None => None
          end)
  ∧ (RateLimit.rateLimit opts now key (RateLimit.purge purgedAt windows)).1
    = (RateLimit.rateLimit opts now key windows).1
  ∧ (RateLimit.rateLimit opts now key (RateLimit.purge purgedAt windows)).2 !! key
    = (RateLimit.rateLimit opts now key windows).2 !! key.
Proof.
  intros Hle. split; [intros k; apply purge_lookup|].
  unfold RateLimit.rateLimit, RateLimit.hit. rewrite purge_lookup.
  destruct (windows !! key) as [entry|]; cbn.
  - destruct (decide (RateLimit.resetAt entry < purgedAt)); cbn.
    + rewrite decide_True by lia. cbn. by rewrite !lookup_insert_eq.
    + case_decide; cbn; by rewrite !lookup_insert_eq.
  - by rewrite !lookup_insert_eq.
Qed.

End RateLimitPurge.

Lemma X20_rate_limit_purge_is_invisible_witness :
  (RateLimit.uploadRateLimit 70000 "10.0.0.1"
     (RateLimit.purge 65000 (RateLimit.uploadRateLimit 0 "10.0.0.1" ∅).2)).1
  = (RateLimit.uploadRateLimit 70000 "10.0.0.1"
       (RateLimit.uploadRateLimit 0 "10.0.0.1" ∅).2).1.
Proof.
  destruct (X20_rate_limit_purge_is_invisible
              {| RateLimit.windowMs := 60000; RateLimit.max := 5 |} 65000 70000
              "10.0.0.1" (RateLimit.uploadRateLimit 0 "10.0.0.1" ∅).2)
    as (_ & Hresponse & _); [lia|].
  exact Hresponse.
Defined.

(** ** Feed service *)

Section FeedFacts.
Import Ranking Feed.
Variable numberToString : Z → string.
Implicit Types (feedCache : gmap string Cached) (key : string).

Lemma byDate_sorted (items : list FeedItem) :
  StronglySorted newestFirst (arraySort byDate items).
Proof.
  eapply StronglySorted_weaken; [|apply arraySort_sorted].
  - unfold newestFirst, byDate. intros a b. cbn. lia.
  - unfold byDate. intros a b. lia.
  - unfold byDate. intros a b c. lia.
Qed.

(** What [slice(0, limit)] keeps and what it leaves. *)
Lemma slice0_split {A} (limit : Z) (l : list A) :
  ∃ rest, (slice0 limit l ++ rest)%list = l
          ∧ (0 ≤ limit → length (slice0 limit l) = Nat.min (Z.to_nat limit) (length l)).
Proof.
  unfold slice0. case_decide.
  - exists (drop (Z.to_nat limit) l). split; [apply take_drop|].
    intros _. apply length_take.
  - exists (drop (length l - Z.to_nat (- limit)) l). split; [apply take_drop|lia].
Qed.

Lemma getCached_miss now key feedCache :
  (getCached now key feedCache).1 = None →
  (getCached now key feedCache).2 = delete key feedCache.
Proof.
  unfold getCached. destruct (feedCache !! key) as [cached|]; [|done].
  by case_decide.
Qed.

Lemma getCached_hit now key feedCache items :
  (getCached now key feedCache).1 = Some items →
  (getCached now key feedCache).2 = feedCache
  ∧ ∃ cached, feedCache !! key = Some cached
              ∧ data cached = items ∧ now < expiresAt cached.
Proof.
  unfold getCached. destruct (feedCache !! key) as [cached|]; [|done].
  case_decide; [|done]. cbn. intros [= <-]. split; [done|]. by exists cached.
Qed.

Lemma cacheKey_kinds element limit offset element' limit' offset' :
  cacheKey numberToString "videos" element limit offset
  ≠ cacheKey numberToString "feed" element' limit' offset'.
Proof. unfold cacheKey. cbn. discriminate. Qed.

(** The videos lookup leaves the key of the feed alone. *)
Lemma getVideosByElement_feed_key now later query element limit offset
    element' limit' offset' feedCache :
  (getVideosByElement numberToString now later query element limit offset feedCache).2
    !! cacheKey numberToString "feed" element' limit' offset'
  = feedCache !! cacheKey numberToString "feed" element' limit' offset'.
Proof.
  unfold getVideosByElement, getCached.
  destruct (feedCache !! cacheKey numberToString "videos" element limit offset)
    as [cached|]; [case_decide|]; cbn; [done| |].
  - destruct query; cbn; unfold setCache;
      rewrite ?(lookup_insert_ne _ _ _ _ (cacheKey_kinds _ _ _ _ _ _));
      by rewrite (lookup_delete_ne _ _ _ (cacheKey_kinds _ _ _ _ _ _)).
  - destruct query; cbn; unfold setCache;
      rewrite ?(lookup_insert_ne _ _ _ _ (cacheKey_kinds _ _ _ _ _ _));
      by rewrite (lookup_delete_ne _ _ _ (cacheKey_kinds _ _ _ _ _ _)).
Qed.

(** [getFeedByElement] when the feed is not in the cache. *)
Lemma getFeedByElement_miss
    (now nowVideos afterVideos afterAll : Z)
    (videoQuery postQuery : Completion (list QueryRow)) (postsFailFirst : bool)
    (element : ElementCategory) (limit offset : Z) feedCache :
  let key := cacheKey numberToString "feed" element limit offset in
  let videos :=
    getVideosByElement numberToString nowVideos afterVideos videoQuery
      element limit offset (delete key feedCache) in
  (getCached now key feedCache).1 = None →
  getFeedByElement numberToString now nowVideos afterVideos afterAll
    videoQuery postQuery postsFailFirst element limit offset feedCache
  = match videos.1, postQuery with
    | Returns videoItems, Returns postRows =>
        let combined :=
          slice0 limit
            (arraySort byDate (videoItems ++ (itemOf post <$> postRows))%list) in
        (Returns combined, setCache afterAll key combined videos.2)
    | Throws e, Returns _ => (Throws e, videos.2)
    | Returns _, Throws e => (Throws e, videos.2)
    | Throws e, Throws e' => (Throws (if postsFailFirst then e' else e), videos.2)
    end.
Proof.
  cbv zeta. intros Hmiss. unfold getFeedByElement.
  pose proof (getCached_miss _ _ _ Hmiss) as Hstore.
  destruct (getCached now _ feedCache) as [[cached|] store]; [done|].
  cbn in Hstore. subst store.
  destruct (getVideosByElement numberToString nowVideos afterVideos videoQuery
              element limit offset _) as [[videoItems|e] store]; cbn;
    by destruct postQuery.
Qed.

(** X21.  When the feed is not in the cache and both queries answer, the
    page returned is the merged list of the video items and the post items,
    newest first, cut after [limit] items: it is in order, nothing that was
    cut is newer than an item of the page, and for a [limit] that is not
    negative the page has [limit] items, or all of them when there are
    fewer.  The page is then cached.  When a query fails the call fails and
    nothing is cached under the key of the feed. *)
Theorem X21_feed_page
    (now nowVideos afterVideos afterAll : Z)
    (videoQuery postQuery : Completion (list QueryRow)) (postsFailFirst : bool)
    (element : ElementCategory) (limit offset : Z) feedCache :
  let key := cacheKey numberToString "feed" element limit offset in
  let videos :=
    getVideosByElement numberToString nowVideos afterVideos videoQuery
      element limit offset (delete key feedCache) in
  let out :=
    getFeedByElement numberToString now nowVideos afterVideos afterAll
      videoQuery postQuery postsFailFirst element limit offset feedCache in
  (getCached now key feedCache).1 = None →
  match videos.1, postQuery with
  | Returns videoItems, Returns postRows =>
      ∃ page rest,
        out = (Returns page, setCache afterAll key page videos.2)
        ∧ (page ++ rest)%list ≡ₚ (videoItems ++ (itemOf post <$> postRows))%list
        ∧ StronglySorted newestFirst (page ++ rest)%list
        ∧ (0 ≤ limit →
           length page
           = Nat.min (Z.to_nat limit) (length videoItems + length postRows))
  | _, _ => (∃ e, out.1 = Throws e) ∧ out.2 !! key = None
  end.
Proof.
  cbv zeta. intros Hmiss.
  rewrite (getFeedByElement_miss _ _ _ _ _ _ _ _ _ _ _ Hmiss).
  pose proof (getVideosByElement_feed_key nowVideos afterVideos videoQuery
                element limit offset element limit offset
                (delete (cacheKey numberToString "feed" element limit offset) feedCache))
    as Hkey.
  rewrite lookup_delete_eq in Hkey.
  destruct (getVideosByElement numberToString nowVideos afterVideos videoQuery
              element limit offset _) as [[videoItems|e] store]; cbn in *.
  - destruct postQuery as [postRows|e]; cbn.
    + destruct (slice0_split limit
                  (arraySort byDate (videoItems ++ (itemOf post <$> postRows))%list))
        as (rest & Hsplit & Hlength).
      eexists _, rest. split; [reflexivity|]. rewrite Hsplit. split_and!.
      * apply arraySort_Permutation.
      * apply byDate_sorted.
      * intros Hlimit. rewrite Hlength by done.
        by rewrite arraySort_Permutation, length_app, length_fmap.
    + split; [by eexists | done].
  - destruct postQuery as [postRows|e']; cbn; (split; [by eexists | done]).
Qed.

(** X22.  A page that was computed is served again from the cache, whatever
    the queries would answer and without changing the cache, by every call
    for the same element, limit and offset that comes less than five
    minutes after the page was stored, and by none that comes later;
    [invalidateFeedCache] ends it at once, for every key. *)
Theorem X22_feed_cache
    (now nowVideos afterVideos afterAll : Z)
    (again nowVideos' afterVideos' afterAll' : Z)
    (videoRows postRows : list QueryRow)
    (videoQuery' postQuery' : Completion (list QueryRow)) (postsFailFirst postsFailFirst' : bool)
    (element : ElementCategory) (limit offset : Z) feedCache :
  let key := cacheKey numberToString "feed" element limit offset in
  let first :=
    getFeedByElement numberToString now nowVideos afterVideos afterAll
      (Returns videoRows) (Returns postRows) postsFailFirst element limit offset feedCache in
  (getCached now key feedCache).1 = None →
  (again < afterAll + 300000 →
   getFeedByElement numberToString again nowVideos' afterVideos' afterAll'
     videoQuery' postQuery' postsFailFirst' element limit offset first.2
   = (first.1, first.2))
  ∧ (afterAll + 300000 ≤ again → (getCached again key first.2).1 = None)
  ∧ (∀ k, (getCached again k (invalidateFeedCache first.2)).1 = None).
Proof.
  cbv zeta. intros Hmiss.
  rewrite (getFeedByElement_miss _ _ _ _ _ _ _ _ _ _ _ Hmiss).
  assert (Hvideos : ∃ videoItems store,
            getVideosByElement numberToString nowVideos afterVideos (Returns videoRows)
              element limit offset
              (delete (cacheKey numberToString "feed" element limit offset) feedCache)
            = (Returns videoItems, store)).
  { unfold getVideosByElement.
    destruct (getCached nowVideos _ _) as [[cached|] store]; by eexists _, _. }
  destruct Hvideos as (videoItems & store & ->). cbn.
  split_and!; [| |done].
  - intros Hlive. unfold getFeedByElement, getCached at 1, setCache.
    rewrite lookup_insert_eq. cbn. unfold CACHE_TTL. by rewrite decide_True by lia.
  - intros Hstale. unfold getCached, setCache. rewrite lookup_insert_eq. cbn.
    unfold CACHE_TTL. by rewrite decide_False by lia.
Qed.

(** The items of a page come from the rows of the two queries. *)
Lemma slice0_subset {A} (limit : Z) (l : list A) (x : A) : x ∈ slice0 limit l → x ∈ l.
Proof.
  destruct (slice0_split limit l) as (rest & Hsplit & _). intros Hin.
  rewrite <- Hsplit. apply elem_of_app. by left.
Qed.

End FeedFacts.

Lemma X21_feed_page_witness :
  ∃ page rest,
    Feed.getFeedByElement SampleFeed.printInteger 0 0 5 9
      (Returns [SampleFeed.row 1 1000 None; SampleFeed.row 2 500 None])
      (Returns [SampleFeed.post7]) false Fire 2 0 ∅
    = (Returns page,
       Feed.setCache 9 (Feed.cacheKey SampleFeed.printInteger "feed" Fire 2 0) page
         (Feed.getVideosByElement SampleFeed.printInteger 0 5
            (Returns [SampleFeed.row 1 1000 None; SampleFeed.row 2 500 None]) Fire 2 0
            (delete (Feed.cacheKey SampleFeed.printInteger "feed" Fire 2 0) ∅)).2)
    ∧ (page ++ rest)%list
      ≡ₚ ((Feed.itemOf video
             <$> [SampleFeed.row 1 1000 None; SampleFeed.row 2 500 None])
          ++ (Feed.itemOf post <$> [SampleFeed.post7]))%list
    ∧ StronglySorted Feed.newestFirst (page ++ rest)%list
    ∧ (0 ≤ 2 → length page = Nat.min (Z.to_nat 2) (2 + 1)).
Proof.
  pose proof (X21_feed_page SampleFeed.printInteger 0 0 5 9
                (Returns [SampleFeed.row 1 1000 None; SampleFeed.row 2 500 None])
                (Returns [SampleFeed.post7]) false Fire 2 0 ∅) as Hpage.
  cbv zeta in Hpage.
  assert (Hvideos :
    (Feed.getVideosByElement SampleFeed.printInteger 0 5
       (Returns [SampleFeed.row 1 1000 None; SampleFeed.row 2 500 None]) Fire 2 0
       (delete (Feed.cacheKey SampleFeed.printInteger "feed" Fire 2 0) ∅)).1
    = Returns (Feed.itemOf video
                 <$> [SampleFeed.row 1 1000 None; SampleFeed.row 2 500 None])).
  { unfold Feed.getVideosByElement, Feed.getCached.
    by rewrite delete_empty, lookup_empty. }
  rewrite Hvideos in Hpage. apply Hpage.
  unfold Feed.getCached. by rewrite lookup_empty.
Defined.

Lemma X22_feed_cache_witness :
  Feed.getFeedByElement SampleFeed.printInteger 300008 300008 300010 300012
    (Throws OtherValue) (Returns []) true Fire 2 0
    (Feed.getFeedByElement SampleFeed.printInteger 0 0 5 9
       (Returns [SampleFeed.row 1 1000 None]) (Returns [SampleFeed.post7])
       false Fire 2 0 ∅).2
  = ((Feed.getFeedByElement SampleFeed.printInteger 0 0 5 9
        (Returns [SampleFeed.row 1 1000 None]) (Returns [SampleFeed.post7])
        false Fire 2 0 ∅).1,
     (Feed.getFeedByElement SampleFeed.printInteger 0 0 5 9
        (Returns [SampleFeed.row 1 1000 None]) (Returns [SampleFeed.post7])
        false Fire 2 0 ∅).2).
Proof.
  destruct (X22_feed_cache SampleFeed.printInteger 0 0 5 9 300008 300008 300010 300012
              [SampleFeed.row 1 1000 None] [SampleFeed.post7]
              (Throws OtherValue) (Returns []) false true Fire 2 0 ∅)
    as (Hlive & _).
  - unfold Feed.getCached. by rewrite lookup_empty.
  - apply Hlive. lia.
Defined.

(** ** Moderation queue listing *)

Section QueueRouteFacts.
Import QueueRoute.






End QueueRouteFacts.


(** ** Retrying calls of the AI services *)

Section RetryFacts.
Import Retry.
Context {T : Type}.






End RetryFacts.


(** ** Sparks and energy *)

Section StorageFacts.
Import Storage.
Variables (foreignKeyViolation outOfRange : Thrown).

(** Deleting by the id of a row removes that row and no other. *)
Lemma filter_other_ids (l : list SparkRow.t) (id : Z) :
  (∀ s, s ∈ l → SparkRow.id s ≠ id) →
  filter (λ s, SparkRow.id s ≠ id) l = l.
Proof.
  induction l as [|y l IH]; intros Hall; [done|].
  rewrite filter_cons, decide_True by (apply Hall; left).
  rewrite IH; [done|]. intros s Hs. apply Hall. by right.
Qed.

Lemma delete_by_id_other (Q : SparkRow.t → Prop) `{!∀ s, Decision (Q s)}
    (l : list SparkRow.t) (x : SparkRow.t) :
  NoDup (SparkRow.id <$> l) → x ∈ l → ¬ Q x →
  filter Q (filter (λ s, SparkRow.id s ≠ SparkRow.id x) l) = filter Q l.
Proof.
  induction l as [|y l IH]; intros Hids Hx HQ; [done|].
  rewrite fmap_cons in Hids. apply NoDup_cons in Hids as [Hy Hids].
  rewrite (filter_cons _ y l).
  destruct (decide (SparkRow.id y ≠ SparkRow.id x)) as [Hne|Heq].
  - apply elem_of_cons in Hx as [->|Hx]; [done|].
    rewrite !filter_cons. by rewrite IH.
  - apply dec_stable in Heq.
    assert (y = x) as ->.
    { apply elem_of_cons in Hx as [->|Hx]; [done|]. destruct Hy. rewrite Heq.
      apply list_elem_of_fmap. by exists x. }
    rewrite filter_other_ids.
    + by rewrite filter_cons, decide_False.
    + intros s Hs Hid. destruct Hy. rewrite <- Hid. apply list_elem_of_fmap. by exists s.
Qed.

Lemma delete_by_id_one (Q : SparkRow.t → Prop) `{!∀ s, Decision (Q s)}
    (l : list SparkRow.t) (x : SparkRow.t) :
  NoDup (SparkRow.id <$> l) → x ∈ l → Q x →
  S (length (filter Q (filter (λ s, SparkRow.id s ≠ SparkRow.id x) l)))
  = length (filter Q l).
Proof.
  induction l as [|y l IH]; intros Hids Hx HQ; [by apply elem_of_nil in Hx|].
  rewrite fmap_cons in Hids. apply NoDup_cons in Hids as [Hy Hids].
  rewrite (filter_cons _ y l).
  destruct (decide (SparkRow.id y ≠ SparkRow.id x)) as [Hne|Heq].
  - apply elem_of_cons in Hx as [->|Hx]; [done|].
    rewrite !filter_cons. destruct (decide (Q y)); cbn; by rewrite <- IH.
  - apply dec_stable in Heq.
    assert (y = x) as ->.
    { apply elem_of_cons in Hx as [->|Hx]; [done|]. destruct Hy. rewrite Heq.
      apply list_elem_of_fmap. by exists x. }
    rewrite filter_other_ids.
    + by rewrite filter_cons, decide_True.
    + intros s Hs Hid. destruct Hy. rewrite <- Hid. apply list_elem_of_fmap. by exists s.
Qed.

Lemma primaryKey_delete id t :
  primaryKey t → primaryKey (deleteSpark id t).
Proof.
  intros [Hids Hseq]. split; cbn.
  - eapply sublist_NoDup; [exact Hids | apply fmap_sublist, sublist_filter].
  - intros s [_ Hs]%list_elem_of_filter. by apply Hseq.
Qed.

Lemma primaryKey_insert postId userId t :
  primaryKey t →
  primaryKey
    (setSparks
       (sparks t ++ [{| SparkRow.id := sparks_seq t;
                        SparkRow.postId := postId;
                        SparkRow.userId := userId |}])%list
       (sparks_seq t + 1) t).
Proof.
  intros [Hids Hseq]. split; cbn.
  - rewrite fmap_app. apply NoDup_app. split_and!; [done| |apply NoDup_singleton].
    intros id (s & -> & Hs)%list_elem_of_fmap Hnew%list_elem_of_singleton.
    cbn in Hnew. specialize (Hseq s Hs). lia.
  - intros s [Hs| ->%list_elem_of_singleton]%elem_of_app; [|cbn; lia].
    specialize (Hseq s Hs). lia.
Qed.

(** X26.  [toggleSpark] keeps the spark counters right.  On a table with
    its primary key, when it returns: it returns [true] exactly when the
    user had no spark on the post, who then has one, and otherwise one of
    the user's sparks on the post is gone; the sparks of every other user
    and post are as before; and if every post's [spark_count] was the
    number of its sparks before, it is so afterwards.  The energy tables
    are not touched. *)
Theorem X26_toggle_spark_keeps_counts (postId : Z) (userId : string) (t : Tables)
    (sparked : bool) :
  primaryKey t →
  (toggleSpark foreignKeyViolation outOfRange postId userId t).1 = Returns sparked →
  let after := (toggleSpark foreignKeyViolation outOfRange postId userId t).2 in
  sparked = bool_decide (sparksOf postId userId t = [])
  ∧ length (sparksOf postId userId after)
    = (if sparked then 1 else length (sparksOf postId userId t) - 1)%nat
  ∧ (∀ postId' userId', postId' ≠ postId ∨ userId' ≠ userId →
       sparksOf postId' userId' after = sparksOf postId' userId' t)
  ∧ primaryKey after
  ∧ (countsAgree t → countsAgree after)
  ∧ energyPoints after = energyPoints t
  ∧ energyTransactions after = energyTransactions t.
Proof.
  intros Hkey. cbv zeta.
  destruct (toggleSpark foreignKeyViolation outOfRange postId userId t)
    as [result after] eqn:Hout.
  cbn [fst snd]. intros ->.
  unfold toggleSpark, getUserSpark in Hout.
  destruct (sparksOf postId userId t) as [|existing others] eqn:Hmine; cbn [head] in Hout.
  - (* no spark yet: insert *)
    unfold insertSpark in Hout. case_decide as Hfk; [|done].
    destruct Hfk as [[count Hcount] Huser].
    unfold addSparkCount in Hout. cbn [sparkCount setSparks] in Hout.
    rewrite Hcount in Hout. case_decide as Hrange; [|done].
    injection Hout as <- <-.
    split; [done|]. unfold sparksOf in *. cbn [sparks setSparkCount setSparks].
    split_and!.
    + rewrite filter_app, Hmine. cbn. by rewrite decide_True.
    + intros postId' userId' Hother. rewrite filter_app, filter_cons, decide_False.
      * by rewrite filter_nil, app_nil_r.
      * cbn. intros [-> ->]. by destruct Hother.
    + by apply (primaryKey_insert postId userId) in Hkey.
    + intros Hagree postId' count'. cbn. unfold sparksOn. cbn.
      destruct (decide (postId' = postId)) as [->|Hne].
      * rewrite lookup_insert_eq. intros [= <-].
        rewrite filter_app, filter_cons, decide_True by done.
        rewrite length_app. cbn. rewrite (Hagree postId count Hcount).
        unfold sparksOn. lia.
      * rewrite lookup_insert_ne by done. intros Hcount'.
        rewrite filter_app, filter_cons, decide_False by (cbn; congruence).
        rewrite filter_nil, app_nil_r. by apply Hagree.
    + done.
    + done.
  - (* a spark exists: delete it *)
    assert (Hexisting : existing ∈ sparks t
                        ∧ SparkRow.postId existing = postId
                        ∧ SparkRow.userId existing = userId).
    { assert (Hin : existing ∈ sparksOf postId userId t) by (rewrite Hmine; left).
      apply list_elem_of_filter in Hin. tauto. }
    destruct Hexisting as (Hin & Hpost & Huser).
    pose proof Hkey as [Hids Hseq].
    pose proof (delete_by_id_one
                  (λ s, SparkRow.postId s = postId ∧ SparkRow.userId s = userId)
                  (sparks t) existing Hids Hin (conj Hpost Huser)) as Hmine'.
    pose proof (delete_by_id_one (λ s, SparkRow.postId s = postId)
                  (sparks t) existing Hids Hin Hpost) as Hpost'.
    assert (Hothers : ∀ postId' userId', postId' ≠ postId ∨ userId' ≠ userId →
              sparksOf postId' userId' (deleteSpark (SparkRow.id existing) t)
              = sparksOf postId' userId' t).
    { intros postId' userId' Hother.
      apply (delete_by_id_other _ (sparks t) existing Hids Hin).
      intros [<- <-]. by destruct Hother. }
    assert (Hposts : ∀ postId', postId' ≠ postId →
              sparksOn postId' (deleteSpark (SparkRow.id existing) t) = sparksOn postId' t).
    { intros postId' Hother.
      apply (delete_by_id_other _ (sparks t) existing Hids Hin). by rewrite Hpost. }
    fold (sparksOf postId userId t) in Hmine'. rewrite Hmine in Hmine'.
    fold (sparksOn postId t) in Hpost'.
    unfold addSparkCount in Hout. cbn [sparkCount deleteSpark setSparks] in Hout.
    destruct (sparkCount t !! postId) as [count|] eqn:Hcount.
    + case_decide as Hrange; [|done]. injection Hout as <- <-.
      split; [done|]. split_and!.
      * cbn in Hmine'. unfold sparksOf in *. cbn in *. lia.
      * exact Hothers.
      * by apply (primaryKey_delete (SparkRow.id existing) t).
      * intros Hagree postId' count'. cbn.
        destruct (decide (postId' = postId)) as [->|Hne].
        -- rewrite lookup_insert_eq. intros [= <-].
           rewrite (Hagree postId count Hcount). lia.
        -- rewrite lookup_insert_ne by done. intros Hcount'.
           specialize (Hposts postId' Hne). unfold sparksOn in Hposts.
           cbn in Hposts. rewrite Hposts. by apply Hagree.
      * done.
      * done.
    + injection Hout as <- <-.
      split; [done|]. split_and!.
      * cbn in Hmine'. unfold sparksOf in *. cbn in *. lia.
      * exact Hothers.
      * by apply (primaryKey_delete (SparkRow.id existing) t).
      * intros Hagree postId' count'. cbn. intros Hcount'.
        assert (Hne : postId' ≠ postId) by (intros ->; by rewrite Hcount in Hcount').
        specialize (Hposts postId' Hne). unfold sparksOn in Hposts.
        cbn in Hposts. rewrite Hposts. by apply Hagree.
      * done.
      * done.
Qed.

(** One round: the spark is set and taken back. *)
Lemma sparkRoute_round (postId : Z) (userId : string) (t : Tables) (count points : Z) :
  primaryKey t →
  sparksOf postId userId t = [] →
  sparkCount t !! postId = Some count → inRange count → inRange (count + 1) →
  energyPoints t !! userId = Some points → inRange (points + 1) →
  let on := sparkRoute foreignKeyViolation outOfRange postId userId t in
  let off := sparkRoute foreignKeyViolation outOfRange postId userId on.2 in
  on.1 = Json true ∧ off.1 = Json false
  ∧ off.2
    = {| sparks := sparks t;
         sparks_seq := sparks_seq t + 1;
         sparkCount := sparkCount t;
         energyPoints := <[userId := points + 1]> (energyPoints t);
         energyTransactions :=
           (energyTransactions t
            ++ [{| EnergyRow.id := energyTransactions_seq t;
                   EnergyRow.userId := userId;
                   EnergyRow.amount := 1;
                   EnergyRow.transactionType := "earn";
                   EnergyRow.description := Some "Sparked a post" |}])%list;
         energyTransactions_seq := energyTransactions_seq t + 1 |}.
Proof.
  intros [Hids Hseq] Hmine Hcount Hc Hc1 Hpoints Hp1. cbv zeta.
  assert (Hon : sparkRoute foreignKeyViolation outOfRange postId userId t
    = (Json true,
       setEnergyPoints (<[userId := points + 1]> (energyPoints t))
         (setEnergyTransactions
            (energyTransactions t
             ++ [{| EnergyRow.id := energyTransactions_seq t;
                    EnergyRow.userId := userId;
                    EnergyRow.amount := 1;
                    EnergyRow.transactionType := "earn";
                    EnergyRow.description := Some "Sparked a post" |}])%list
            (energyTransactions_seq t + 1)
            (setSparkCount (<[postId := count + 1]> (sparkCount t))
               (setSparks
                  (sparks t ++ [{| SparkRow.id := sparks_seq t;
                                   SparkRow.postId := postId;
                                   SparkRow.userId := userId |}])%list
                  (sparks_seq t + 1) t))))).
  { unfold sparkRoute, toggleSpark, getUserSpark. rewrite Hmine. cbn [head].
    unfold insertSpark. rewrite decide_True by (by rewrite Hcount, Hpoints).
    unfold addSparkCount. cbn [sparkCount setSparks]. rewrite Hcount.
    rewrite decide_True by done.
    unfold addEnergyTransaction. cbn [energyPoints setSparkCount setSparks].
    rewrite decide_True by (rewrite Hpoints; split; [done | unfold inRange, INT_MIN, INT_MAX; lia]).
    unfold updateEnergy. cbn [energyPoints setEnergyTransactions setSparkCount setSparks].
    rewrite Hpoints. by rewrite decide_True by done. }
  rewrite Hon. cbn [fst snd]. split; [done|].
  unfold sparkRoute, toggleSpark, getUserSpark, sparksOf.
  cbn [sparks setEnergyPoints setEnergyTransactions setSparkCount setSparks].
  rewrite filter_app. fold (sparksOf postId userId t). rewrite Hmine.
  rewrite filter_cons, decide_True by done. cbn [app head filter SparkRow.id].
  unfold addSparkCount, deleteSpark.
  cbn [sparks sparkCount sparks_seq setEnergyPoints setEnergyTransactions
       setSparkCount setSparks].
  rewrite lookup_insert_eq.
  rewrite decide_True by (by replace (count + 1 + -1) with count by lia).
  cbn [fst snd]. split; [done|].
  unfold setSparkCount, setSparks. cbn. f_equal.
  - rewrite filter_app, filter_other_ids.
    + rewrite filter_cons, decide_False by (cbn; by intros ?). by rewrite filter_nil, app_nil_r.
    + intros s Hs. specialize (Hseq s Hs). lia.
  - rewrite insert_insert_eq. replace (count + 1 + -1) with count by lia.
    by apply insert_id.
Qed.

(** X27.  A spark earns an energy point and taking it back costs nothing:
    a user without a spark on a post who sends the spark request [2 * rounds]
    times is answered sparked, not sparked, and so on, leaves the sparks
    and the spark counter as they were, and has gained [rounds] energy
    points, with as many transactions recorded. *)
Theorem X27_spark_and_unspark_earns_energy
    (rounds : nat) (postId : Z) (userId : string) (t : Tables) (count points : Z) :
  primaryKey t →
  sparksOf postId userId t = [] →
  sparkCount t !! postId = Some count → inRange count → inRange (count + 1) →
  energyPoints t !! userId = Some points →
  inRange points → inRange (points + Z.of_nat rounds) →
  let out := sparkAndUnspark foreignKeyViolation outOfRange rounds postId userId t in
  out.1 = mjoin (replicate rounds [Json true; Json false])
  ∧ sparks out.2 = sparks t
  ∧ sparkCount out.2 = sparkCount t
  ∧ energyPoints out.2 = <[userId := points + Z.of_nat rounds]> (energyPoints t)
  ∧ length (energyTransactions out.2) = (length (energyTransactions t) + rounds)%nat.
Proof.
  cbv zeta. revert t points.
  induction rounds as [|rounds IH];
    intros t points Hkey Hmine Hcount Hc Hc1 Hpoints Hp Hrange.
  - cbn. split_and!; [done|done|done| |lia].
    rewrite Z.add_0_r. symmetry. by apply insert_id.
  - assert (Hp1 : inRange (points + 1)) by (unfold inRange in *; lia).
    destruct (sparkRoute_round postId userId t count points) as (Hon & Hoff & Hstate);
      [done..|].
    cbn [sparkAndUnspark].
    destruct (sparkRoute foreignKeyViolation outOfRange postId userId t) as [on t1].
    cbn [fst snd] in Hon, Hoff, Hstate.
    destruct (sparkRoute foreignKeyViolation outOfRange postId userId t1) as [off t2].
    cbn [fst snd] in Hoff, Hstate. subst on off t2.
    match goal with
    | |- context [sparkAndUnspark _ _ rounds postId userId ?t2] =>
        specialize (IH t2 (points + 1)); set (next := t2) in *
    end.
    destruct IH as (Hresponses & Hsparks & Hcounts & Henergy & Hlength).
    + destruct Hkey as [Hids Hseq]. split; [done|]. subst next. cbn.
      intros s Hs. specialize (Hseq s Hs). lia.
    + done.
    + done.
    + done.
    + done.
    + subst next. cbn. apply lookup_insert_eq.
    + done.
    + unfold inRange in *. lia.
    + destruct (sparkAndUnspark foreignKeyViolation outOfRange rounds postId userId next)
        as [later t3].
      cbn [fst snd] in *. split_and!.
      * cbn. by rewrite Hresponses.
      * by rewrite Hsparks.
      * by rewrite Hcounts.
      * rewrite Henergy. subst next. cbn. rewrite insert_insert_eq. f_equal. lia.
      * rewrite Hlength. subst next. cbn. rewrite length_app. cbn. lia.
Qed.

End StorageFacts.

(** A post with one spark, of another user. *)
Lemma X26_toggle_spark_keeps_counts_witness :
  let t :=
    {| Storage.sparks :=
         [{| Storage.SparkRow.id := 1; Storage.SparkRow.postId := 7;
             Storage.SparkRow.userId := "user-2" |}];
       Storage.sparks_seq := 2;
       Storage.sparkCount := {[ 7 := 1 ]};
       Storage.energyPoints := {[ "user-1" := 100; "user-2" := 100 ]};
       Storage.energyTransactions := [];
       Storage.energyTransactions_seq := 1 |} in
  length (Storage.sparksOf 7 "user-1"
            (Storage.toggleSpark OtherValue OtherValue 7 "user-1" t).2) = 1%nat
  ∧ Storage.countsAgree
      (Storage.toggleSpark OtherValue OtherValue 7 "user-1" t).2.
Proof.
  intros t.
  destruct (X26_toggle_spark_keeps_counts OtherValue OtherValue 7 "user-1" t true)
    as (_ & Hmine & _ & _ & Hagree & _).
  - split.
    + cbn. apply NoDup_singleton.
    + intros s ->%list_elem_of_singleton. cbn. lia.
  - reflexivity.
  - split; [exact Hmine|]. apply Hagree.
    intros postId count Hcount. subst t. cbn in Hcount.
    apply lookup_singleton_Some in Hcount as [<- <-]. reflexivity.
Defined.

Lemma X27_spark_and_unspark_earns_energy_witness :
  let t :=
    {| Storage.sparks := [];
       Storage.sparks_seq := 1;
       Storage.sparkCount := {[ 7 := 0 ]};
       Storage.energyPoints := {[ "user-1" := 100 ]};
       Storage.energyTransactions := [];
       Storage.energyTransactions_seq := 1 |} in
  Storage.sparks (Storage.sparkAndUnspark OtherValue OtherValue 3 7 "user-1" t).2 = []
  ∧ Storage.energyPoints (Storage.sparkAndUnspark OtherValue OtherValue 3 7 "user-1" t).2
    = <["user-1" := 100 + 3]> {[ "user-1" := 100 ]}.
Proof.
  intros t.
  destruct (X27_spark_and_unspark_earns_energy OtherValue OtherValue 3 7 "user-1" t 0 100)
    as (_ & Hsparks & _ & Henergy & _).
  - split; [apply NoDup_nil_2 | by intros s ?%elem_of_nil].
  - reflexivity.
  - reflexivity.
  - unfold Storage.inRange, Storage.INT_MIN, Storage.INT_MAX. lia.
  - unfold Storage.inRange, Storage.INT_MIN, Storage.INT_MAX. lia.
  - reflexivity.
  - unfold Storage.inRange, Storage.INT_MIN, Storage.INT_MAX. lia.
  - unfold Storage.inRange, Storage.INT_MIN, Storage.INT_MAX. lia.
  - split; [exact Hsparks | exact Henergy].
Defined.

(** ** Safety flags *)

Section HelperFacts.
Import Moderation Helper.
Variable numberToString : JsNumber → string.
Variable integerRefused : JsNumber → Thrown.

(** X28.  The helper [parseSafetyFlags] and the pipelines agree.  For a
    post whose stages return and whose statements are not rejected, the
    status the pipeline gives is rejected exactly when the helper says
    block, requires_review exactly when it says review, and auto_approved
    when it says neither; it never says both, and it says one of them
    exactly when the pipeline queues the post, the helper's reason ending
    with the reason in the queue.  A video is rejected exactly when the
    helper says block. *)
Theorem X28_safety_flags_agree_with_pipeline
    (env : Rejections) (now contentId : Z) (actorId : string)
    (analysis : AIAnalysisResult)
    (safety : SafetyAssessment) (positivityScore : JsNumber) (db : DB) :
  accepted env positivityScore →
  let flagsOf := parseSafetyFlags safety in
  let forPost :=
    processPostCreation integerRefused env now contentId actorId
      (Returns analysis) (Returns safety) (Returns positivityScore) db in
  let forVideo :=
    processVideoUpload numberToString integerRefused env now contentId actorId
      (Returns analysis) (Returns safety) (Returns positivityScore) db in
  forPost.2 = Returns {| success := true; status := statusOfFlags flagsOf |}
  ∧ (shouldBlock flagsOf && requiresReview flagsOf = false)
  ∧ (if shouldBlock flagsOf || requiresReview flagsOf
     then ∃ row prefix,
            enqueued db forPost.1 = [row]
            ∧ reason flagsOf
              = prefix +:+ default "" (QueueRow.aiFlaggedReason row)
     else enqueued db forPost.1 = [])
  ∧ (∃ o, forVideo.2 = Returns o ∧ success o = true
       ∧ (status o = rejected ↔ shouldBlock flagsOf = true)
       ∧ (requiresReview flagsOf = true → status o = requires_review)).
Proof.
  intros (Hq & Hu & Ha & score & Hscore). cbv zeta. run_unfold.
  rewrite Hq, Hu, Ha, Hscore.
  unfold parseSafetyFlags, statusOfFlags, enqueued.
  destruct (isSafe safety); cbn [negb].
  - destruct (js_lt _ _); cbn;
      (split_and!; [done | done | by rewrite drop_all |]);
      eexists; (split_and!; [done | done | by split | done]).
  - destruct (decide (riskLevel safety = risk_high)); cbn.
    + split_and!; [done | done | |].
      * eexists _, _. rewrite drop_app_length. split; [done|]. cbn. done.
      * eexists. split_and!; [done | done | by split | done].
    + split_and!; [done | done | |].
      * eexists _, _. rewrite drop_app_length. split; [done|]. cbn. done.
      * eexists. split_and!; [done | done | by split | done].
Qed.

End HelperFacts.

(** ** Cost monitor *)

Section CostFacts.
Context {N : Type} (zero : N) (add : N → N → N) (estimate : string → Z → Z → N).

(** X29.  The budget window of the cost monitor, for a window that is not
    negative.  Recording a call adds exactly its estimated cost to the
    spend of the moment; the pruning that comes with it never changes the
    spend read then or later, since it only drops records older than two
    windows; the record just made is kept, and no record older than two
    windows is. *)
Theorem X29_cost_window (now later budgetWindowHours : Z) (model : string)
    (inputTokens outputTokens : Z) (operation : string)
    (records : list (Cost.CostRecord (N := N))) :
  0 ≤ budgetWindowHours →
  now ≤ later →
  let out :=
    Cost.record estimate now budgetWindowHours model inputTokens outputTokens
      operation records in
  let made :=
    {| Cost.timestamp := now;
       Cost.model := model;
       Cost.inputTokens := inputTokens;
       Cost.outputTokens := outputTokens;
       Cost.estimatedCost := estimate model inputTokens outputTokens;
       Cost.operation := operation |} in
  out.1 = estimate model inputTokens outputTokens
  ∧ Cost.getCurrentSpend zero add now budgetWindowHours out.2
    = add (Cost.getCurrentSpend zero add now budgetWindowHours records) out.1
  ∧ Cost.getCurrentSpend zero add later budgetWindowHours out.2
    = Cost.getCurrentSpend zero add later budgetWindowHours (records ++ [made])%list
  ∧ made ∈ out.2
  ∧ (∀ r, r ∈ out.2 →
       now - 2 * Cost.budgetWindowMs budgetWindowHours ≤ Cost.timestamp r).
Proof.
  intros Hwindow Hlater. cbv zeta.
  unfold Cost.record, Cost.getCurrentSpend, Cost.pruneOldRecords, Cost.budgetWindowMs.
  cbn [fst snd].
  assert (Hpruned : ∀ t,
            now ≤ t →
            filter (λ r : Cost.CostRecord, t - budgetWindowHours * 60 * 60 * 1000
                                           ≤ Cost.timestamp r)
              (filter (λ r : Cost.CostRecord,
                         now - budgetWindowHours * 60 * 60 * 1000 * 2 ≤ Cost.timestamp r)
                 (records ++ [{| Cost.timestamp := now;
                                 Cost.model := model;
                                 Cost.inputTokens := inputTokens;
                                 Cost.outputTokens := outputTokens;
                                 Cost.estimatedCost := estimate model inputTokens outputTokens;
                                 Cost.operation := operation |}])%list)
            = filter (λ r : Cost.CostRecord, t - budgetWindowHours * 60 * 60 * 1000
                                             ≤ Cost.timestamp r)
                (records ++ [{| Cost.timestamp := now;
                                Cost.model := model;
                                Cost.inputTokens := inputTokens;
                                Cost.outputTokens := outputTokens;
                                Cost.estimatedCost := estimate model inputTokens outputTokens;
                                Cost.operation := operation |}])%list).
  { intros t Ht. rewrite list_filter_filter. apply list_filter_iff. intros r. lia. }
  split_and!.
  - done.
  - rewrite Hpruned by done. rewrite filter_app, filter_cons, decide_True by (cbn; lia).
    rewrite filter_nil. by rewrite foldl_snoc.
  - by rewrite Hpruned.
  - apply list_elem_of_filter. split; [cbn; lia|]. apply elem_of_app. right. left.
  - intros r [Hr _]%list_elem_of_filter. lia.
Qed.

End CostFacts.

Lemma X28_safety_flags_agree_with_pipeline_witness :
  (Moderation.processPostCreation Sample.integerRefused Moderation.noRejection
     100 7 "user-2" (Returns Sample.analysis)
     (Returns {| isSafe := false; flags := ["violence"]; riskLevel := risk_high |})
     (Returns (JsFinite 40)) Sample.db).2
  = Returns {| Moderation.success := true; Moderation.status := rejected |}
  ∧ Helper.shouldBlock
      (Helper.parseSafetyFlags
         {| isSafe := false; flags := ["violence"]; riskLevel := risk_high |}) = true.
Proof.
  destruct (X28_safety_flags_agree_with_pipeline Sample.printNumber Sample.integerRefused
              Moderation.noRejection 100 7 "user-2" Sample.analysis
              {| isSafe := false; flags := ["violence"]; riskLevel := risk_high |}
              (JsFinite 40) Sample.db) as (Hpost & _).
  - split_and!; [reflexivity..|]. by exists 40.
  - split; [exact Hpost | reflexivity].
Defined.

Lemma X29_cost_window_witness :
  Cost.getCurrentSpend 0 Z.add 1000 24
    (Cost.record (λ _ input output, input + output) 1000 24 "gpt-4o" 3 4 "analysis" []).2
  = 0 + 7.
Proof.
  destruct (X29_cost_window 0 Z.add (λ _ input output, input + output)
              1000 1000 24 "gpt-4o" 3 4 "analysis" []) as (_ & Hspend & _); [lia|lia|].
  exact Hspend.
Defined.
